(** * Frame sampling and de-duplication of [youtube_screenshot_processor.py]

    A shallow embedding of the frame-sampling loop
    ([extract_high_quality_screenshots]), the content de-duplication pass
    ([get_image_hash], [remove_duplicate_screenshots]), the document builders
    ([create_hd_pdf], [create_pdf_with_pillow]) and the orchestrator
    ([process_video]), followed by the properties of the specification that
    concern them; then of the download step and the transcript
    ([download_video_and_transcript], [convert_srt_to_text]) and of the
    helpers [sanitize_filename] and [format_time], with further properties
    of the code.

    Conventions of the embedding.
    - Python integers are [Z] (counters that only count up from 0 are [nat]);
      the duration, a finite Python float, is the rational it denotes ([Q]):
      the only float operations that steer control flow are the comparison
      [current_time <= duration], which Python evaluates exactly, and the
      division [current_time / duration], which raises exactly when the
      duration is zero.
    - The file system is a finite map from paths to files; external tools
      (ffprobe, ffmpeg, yt-dlp, the PDF libraries) are oracles collected in a
      record.  An operation whose failure the source handles or requests
      ([try]/[except], [check=True]) is fallible in the model, and where a
      handled failure is left out the definition concerned says so; an
      operation the source performs unguarded is taken to succeed, as the
      source does.
    - A loop that may run forever is given fuel; [None] as a result means the
      fuel ran out, never that the program stopped. *)

From Stdlib Require Import ZArith QArith Qround Lia List Ascii String.
From Stdlib.Strings Require Import Byte.
From stdpp Require Import base option list sorting gmap strings.

Local Open Scope Z_scope.

(* ===================================================================== *)
(** * Part I: the embedding                                               *)
(* ===================================================================== *)

(** ** SHA-256 ([hashlib.sha256(...).hexdigest()])

    32-bit words are integers in [0, 2^32); every addition wraps. *)

Module SHA256.

Definition wrap32 (x : Z) : Z := x mod 2 ^ 32.
Definition add32 (x y : Z) : Z := wrap32 (x + y).
Definition rotr (n x : Z) : Z :=
  Z.lor (Z.shiftr x n) (wrap32 (Z.shiftl x (32 - n))).
Definition not32 (x : Z) : Z := Z.lxor x 0xffffffff.

Definition Ch (x y z : Z) : Z := Z.lxor (Z.land x y) (Z.land (not32 x) z).
Definition Maj (x y z : Z) : Z :=
  Z.lxor (Z.lxor (Z.land x y) (Z.land x z)) (Z.land y z).
Definition Sigma0 (x : Z) : Z := Z.lxor (Z.lxor (rotr 2 x) (rotr 13 x)) (rotr 22 x).
Definition Sigma1 (x : Z) : Z := Z.lxor (Z.lxor (rotr 6 x) (rotr 11 x)) (rotr 25 x).
Definition sigma0 (x : Z) : Z := Z.lxor (Z.lxor (rotr 7 x) (rotr 18 x)) (Z.shiftr x 3).
Definition sigma1 (x : Z) : Z := Z.lxor (Z.lxor (rotr 17 x) (rotr 19 x)) (Z.shiftr x 10).

(** The constants are not tabulated but computed from their definition
    (FIPS 180-4, 4.2.2 and 5.3.3): the first 32 bits of the fractional part
    of the cube roots of the first 64 primes for the rounds, of the square
    roots of the first 8 primes for the initial chaining value. *)
Definition is_prime (n : Z) : bool :=
  forallb (fun d => negb (n mod Z.of_nat d =? 0)) (seq 2 (Z.to_nat n - 2)).

Definition primes_below (n : nat) : list Z :=
  List.filter is_prime (map Z.of_nat (seq 2 (n - 2))).

(** The largest [r] in [lo, hi) with [r ^ k <= n], by bisection. *)
Fixpoint root_between (fuel : nat) (k lo hi n : Z) : Z :=
  match fuel with
  | O => lo
  | S fuel' =>
      let mid := (lo + hi) / 2 in
      if mid ^ k <=? n then root_between fuel' k mid hi n
      else root_between fuel' k lo mid n
  end.

Definition root_fraction (k p : Z) : Z :=
  wrap32 (root_between 40 k 0 (2 ^ 36) (p * 2 ^ (32 * k))).

Definition K : list Z :=
  Eval vm_compute in map (root_fraction 3) (primes_below 312).

(** The eight working variables, also the chaining value. *)
Record regs := Regs { ra : Z; rb : Z; rc : Z; rd : Z; re : Z; rf : Z; rg : Z; rh : Z }.

Definition regs_of_list (l : list Z) : regs :=
  Regs (nth 0 l 0) (nth 1 l 0) (nth 2 l 0) (nth 3 l 0)
       (nth 4 l 0) (nth 5 l 0) (nth 6 l 0) (nth 7 l 0).

Definition H0 : regs :=
  Eval vm_compute in regs_of_list (map (root_fraction 2) (primes_below 20)).

(** Padding: a 1 bit, zeros up to 56 mod 64 bytes, the bit length on 8 bytes. *)
Definition be_bytes (n : nat) (x : Z) : list Z :=
  map (fun i => Z.land (Z.shiftr x (8 * Z.of_nat i)) 0xff) (rev (seq 0 n)).
Definition pad (msg : list Z) : list Z :=
  let len := Z.of_nat (length msg) in
  msg ++ 0x80 :: repeat 0 (Z.to_nat ((55 - len) mod 64)) ++ be_bytes 8 (8 * len).

Definition be_word (bs : list Z) : Z :=
  fold_left (fun acc b => Z.lor (Z.shiftl acc 8) b) bs 0.
Fixpoint words (n : nat) (bs : list Z) : list Z :=
  match n with
  | O => []
  | S n' => be_word (firstn 4 bs) :: words n' (skipn 4 bs)
  end.

(** One round: [w] is the sliding window W[t .. t+15] of the message schedule. *)
Definition round (st : regs * list Z) (k : Z) : regs * list Z :=
  let '(r, w) := st in
  let wt := nth 0 w 0 in
  let t1 := add32 (add32 (add32 (add32 (rh r) (Sigma1 (re r))) (Ch (re r) (rf r) (rg r))) k) wt in
  let t2 := add32 (Sigma0 (ra r)) (Maj (ra r) (rb r) (rc r)) in
  let next := add32 (add32 (add32 (sigma1 (nth 14 w 0)) (nth 9 w 0)) (sigma0 (nth 1 w 0))) wt in
  (Regs (add32 t1 t2) (ra r) (rb r) (rc r) (add32 (rd r) t1) (re r) (rf r) (rg r),
   skipn 1 w ++ [next]).

Definition compress (h : regs) (block : list Z) : regs :=
  let r := fst (fold_left round K (h, words 16 block)) in
  Regs (add32 (ra h) (ra r)) (add32 (rb h) (rb r)) (add32 (rc h) (rc r))
       (add32 (rd h) (rd r)) (add32 (re h) (re r)) (add32 (rf h) (rf r))
       (add32 (rg h) (rg r)) (add32 (rh h) (rh r)).

Fixpoint blocks (n : nat) (h : regs) (bs : list Z) : regs :=
  match n with
  | O => h
  | S n' => blocks n' (compress h (firstn 64 bs)) (skipn 64 bs)
  end.

Definition digest (msg : list Z) : regs :=
  let p := pad msg in blocks (length p / 64) H0 p.

Definition hex_digit (d : Z) : ascii :=
  ascii_of_nat (Z.to_nat (if d <? 10 then 48 + d else 87 + d)).
Definition hex32 (x : Z) : string :=
  fold_right (fun i s => String (hex_digit (Z.land (Z.shiftr x (4 * Z.of_nat i)) 0xf)) s)
             EmptyString (rev (seq 0 8)).

Definition hexdigest (r : regs) : string :=
  hex32 (ra r) ++ hex32 (rb r) ++ hex32 (rc r) ++ hex32 (rd r) ++
  hex32 (re r) ++ hex32 (rf r) ++ hex32 (rg r) ++ hex32 (rh r).

Definition sha256_hex (data : list byte) : string :=
  hexdigest (digest (map (fun b => Z.of_N (Byte.to_N b)) data)).

End SHA256.

(** ** The file system

    A file has its bytes and two permissions: whether [open(path, 'rb')]
    succeeds and whether [os.remove(path)] succeeds.  A path that is not in
    the map does not exist. *)

Record file := File { data : list byte; readable : bool; deletable : bool }.

Abbreviation storage := (gmap string file).

(** What the de-duplication pass does to the outside world, in order. *)
Inductive io_event :=
  | ReadForHash (path : string)
  | Remove (path : string).

(** Python's truth value of [img_hash]: [None] and the empty string are false. *)
Definition truthy (img_hash : option string) : bool :=
  match img_hash with
  | Some h => negb (h =? "")%string
  | None => false
  end.

(** [get_image_hash]: the hexadecimal SHA-256 of the file's bytes, [None]
    when opening or reading the file raises. *)
Definition get_image_hash (fs : storage) (image_path : string) : option string :=
  match fs !! image_path with
  | Some f => if readable f then Some (SHA256.sha256_hex (data f)) else None
  | None => None
  end.

(** [os.remove]: [None] when it raises. *)
Definition os_remove (fs : storage) (path : string) : option storage :=
  match fs !! path with
  | Some f => if deletable f then Some (delete path fs) else None
  | None => None
  end.

(** The state of [remove_duplicate_screenshots]: the file system, the local
    variables [hashes] and [duplicates_removed], and two ghost fields: the
    entries of the input that the pass left in place ([survivors], in input
    order) and the I/O performed so far ([trace]). *)
Record dedup_state := DedupState {
  store : storage;
  hashes : gmap string string;
  duplicates_removed : nat;
  survivors : list string;
  trace : list io_event
}.

Definition dedup_init (fs : storage) : dedup_state :=
  DedupState fs ∅ 0 [] [].

Definition keep (img_path : string) (st : dedup_state) : dedup_state :=
  DedupState (store st) (hashes st) (duplicates_removed st)
             (survivors st ++ [img_path]) (trace st).

Definition logged (e : io_event) (st : dedup_state) : dedup_state :=
  DedupState (store st) (hashes st) (duplicates_removed st)
             (survivors st) (trace st ++ [e]).

(** The body of [for img_path in screenshot_files]. *)
Definition dedup_step (st : dedup_state) (img_path : string) : dedup_state :=
  let img_hash := get_image_hash (store st) img_path in
  let st := logged (ReadForHash img_path) st in
  if truthy img_hash then
    match img_hash with
    | Some h =>
        if bool_decide (is_Some (hashes st !! h)) then
          let st := logged (Remove img_path) st in
          match os_remove (store st) img_path with
          | Some fs' =>
              DedupState fs' (hashes st) (S (duplicates_removed st))
                         (survivors st) (trace st)
          | None => keep img_path st
          end
        else
          keep img_path
               (DedupState (store st) (<[h := img_path]> (hashes st))
                           (duplicates_removed st) (survivors st) (trace st))
    | None => keep img_path st
    end
  else keep img_path st.

Definition dedup_loop (st : dedup_state) (screenshot_files : list string) : dedup_state :=
  fold_left dedup_step screenshot_files st.

(** [remove_duplicate_screenshots]: the returned integer is
    [duplicates_removed] of the result, the file system after the call is its
    [store]. *)
Definition remove_duplicate_screenshots (fs : storage) (screenshot_files : list string)
  : dedup_state :=
  if (length screenshot_files <=? 1)%nat then
    DedupState fs ∅ 0 screenshot_files []
  else dedup_loop (dedup_init fs) screenshot_files.

(** *** Vocabulary of the specification for the de-duplication pass *)

(** The fingerprint an artifact bears: the digest of its file as stored when
    the pass starts, none when the file cannot be read. *)
Definition fingerprint (fs : storage) (p : string) : option string :=
  get_image_hash fs p.

(** [p] repeats the fingerprint of one of the artifacts in [earlier]. *)
Definition repeats_earlier (fs : storage) (earlier : list string) (p : string) : Prop :=
  ∃ q h, q ∈ earlier ∧ fingerprint fs q = Some h ∧ fingerprint fs p = Some h.

(** Deleting [p] from storage succeeds. *)
Definition can_delete (fs : storage) (p : string) : Prop :=
  is_Some (os_remove fs p).

(** The fingerprint computations recorded in a trace. *)
Definition hash_reads (t : list io_event) : list string :=
  omap (fun e => match e with ReadForHash p => Some p | Remove _ => None end) t.

(** The four ways one iteration of the loop can go; [dedup_step_outcome]
    below shows that [dedup_step] always takes exactly one of them. *)
Inductive step_outcome (st : dedup_state) (p : string) : dedup_state → Prop :=
  | StepNoHash :
      get_image_hash (store st) p = None →
      step_outcome st p
        (DedupState (store st) (hashes st) (duplicates_removed st)
                    (survivors st ++ [p]) (trace st ++ [ReadForHash p]))
  | StepFirst h :
      get_image_hash (store st) p = Some h →
      hashes st !! h = None →
      step_outcome st p
        (DedupState (store st) (<[h := p]> (hashes st)) (duplicates_removed st)
                    (survivors st ++ [p]) (trace st ++ [ReadForHash p]))
  | StepRemoved h f :
      get_image_hash (store st) p = Some h →
      is_Some (hashes st !! h) →
      store st !! p = Some f → deletable f = true →
      step_outcome st p
        (DedupState (delete p (store st)) (hashes st) (S (duplicates_removed st))
                    (survivors st) ((trace st ++ [ReadForHash p]) ++ [Remove p]))
  | StepUndeletable h f :
      get_image_hash (store st) p = Some h →
      is_Some (hashes st !! h) →
      store st !! p = Some f → deletable f = false →
      step_outcome st p
        (DedupState (store st) (hashes st) (duplicates_removed st)
                    (survivors st ++ [p]) ((trace st ++ [ReadForHash p]) ++ [Remove p])).

(** The iteration on [p] deletes [p]: its fingerprint is already recorded and
    the deletion succeeds. *)
Definition removes (st : dedup_state) (p : string) : Prop :=
  ∃ h f, get_image_hash (store st) p = Some h ∧ is_Some (hashes st !! h) ∧
         store st !! p = Some f ∧ deletable f = true.

(** Two states that differ in the ghost fields only. *)
Definition same_core (st st' : dedup_state) : Prop :=
  store st = store st' ∧ hashes st = hashes st' ∧
  duplicates_removed st = duplicates_removed st'.

(** ** Formatting

    [decimal n] is [str(n)] for a natural number, [format_04d n] is
    [f"{n:04d}"]: at least four characters, zeros between the sign and the
    digits, and as many digits as the number needs. *)

Definition digit (d : Z) : ascii := ascii_of_nat (Z.to_nat (48 + d)).

Fixpoint decimal_digits (fuel : nat) (n : Z) (acc : string) : string :=
  match fuel with
  | O => acc
  | S fuel' =>
      let acc' := String (digit (n mod 10)) acc in
      if n <? 10 then acc' else decimal_digits fuel' (n / 10) acc'
  end.

Definition decimal (n : Z) : string :=
  decimal_digits (S (Z.to_nat (Z.log2 n))) n "".

Definition str_int (n : Z) : string :=
  if n <? 0 then ("-" ++ decimal (- n))%string else decimal n.

Fixpoint zeros (n : nat) : string :=
  match n with
  | O => ""
  | S n' => String "0" (zeros n')
  end.

Definition zfill (width : nat) (n : Z) : string :=
  let sign := if n <? 0 then "-"%string else ""%string in
  let digits := decimal (Z.abs n) in
  (sign ++ zeros (width - String.length sign - String.length digits) ++ digits)%string.

Definition format_04d (n : Z) : string := zfill 4 n.

(** The exceptions the modelled code can raise. *)
Inductive exn :=
  | CalledProcessError
  | ValueError
  | ZeroDivisionError
  | OverflowError.

(** [format_time]: [str(timedelta(seconds=int(seconds)))].  A [timedelta]
    holds at most 999999999 days in either direction; beyond that its
    constructor raises [OverflowError]. *)
Definition format_time (seconds : Z) : exn + string :=
  let days := seconds / 86400 in
  let rest := seconds mod 86400 in
  if 999999999 <? Z.abs days then inl OverflowError
  else
    let clock := (decimal (rest / 3600) ++ ":" ++ zfill 2 (rest / 60 mod 60)
                  ++ ":" ++ zfill 2 (rest mod 60))%string in
    inr (if days =? 0 then clock
         else (str_int days ++ " day" ++ (if (Z.abs days =? 1)%Z then "" else "s")
               ++ ", " ++ clock)%string).

(** [os.path.join] of two components (POSIX). *)
Definition ends_with_slash (a : string) : bool :=
  match String.get (String.length a - 1) a with
  | Some c => Ascii.eqb c "/"
  | None => false
  end.

Definition is_absolute (b : string) : bool :=
  match b with
  | String c _ => Ascii.eqb c "/"
  | EmptyString => false
  end.

Definition os_path_join (a b : string) : string :=
  if is_absolute b then b
  else if (a =? "")%string || ends_with_slash a then (a ++ b)%string
  else (a ++ "/" ++ b)%string.

(** ** The outside world

    What the external programs answer.  [ffprobe] gives the duration or
    raises (the process fails, or its output is not a number); [ffmpeg]
    gives the bytes of the frame written to [output_file], or [None] when
    the process exits with an error ([check=True] then raises
    [CalledProcessError]).  Durations that are not finite numbers are outside
    the model. *)

Inductive probe_result :=
  | ProbeRaises (e : exn)
  | ProbeDuration (duration : Q).

Record video_info := VideoInfo { title : string; info_duration : Z; uploader : string }.

Inductive download_result :=
  | DownloadRaises
  | Downloaded (video : list byte) (transcript_found : bool).

Record world := World {
  yt_dlp_info : string → option video_info;
  yt_dlp_download : string → download_result;
  ffprobe : string → probe_result;
  ffmpeg : string → Z → string → option (list byte);
  (* [None]: [import img2pdf] raises [ImportError]; a conversion that gives
     [None] raises an exception that is not an [ImportError] *)
  img2pdf_convert : option (list string → option (list byte));
  (* opening the images and saving them as one PDF with Pillow *)
  pillow_save : list string → option (list byte);
  temp_dir : string;
  github_output : option string
}.

(** ** The sampling loop

    [while current_time <= duration: body; current_time += interval], for a
    body that either finishes or raises.  A run ends when the condition
    fails, when the body raises, or when the fuel is spent; in each case the
    state reached is part of the result. *)

Inductive loop_end :=
  | Exit
  | Raise (e : exn)
  | Fuel.

Section sampling.
Context {St : Type}.
Variable duration : Q.
Variable interval : Z.
Variable body : Z → St → St * option exn.

Fixpoint sample_loop (fuel : nat) (current_time : Z) (s : St) : St * loop_end :=
  match fuel with
  | O => (s, Fuel)
  | S fuel' =>
      if Qle_bool (inject_Z current_time) duration then
        match body current_time s with
        | (s', Some e) => (s', Raise e)
        | (s', None) => sample_loop fuel' (current_time + interval) s'
        end
      else (s, Exit)
  end.

(** The body run at each timestamp of a list, stopping at the first
    exception. *)
Fixpoint run_over (ts : list Z) (s : St) : St * loop_end :=
  match ts with
  | [] => (s, Exit)
  | t :: ts' =>
      match body t s with
      | (s', Some e) => (s', Raise e)
      | (s', None) => run_over ts' s'
      end
  end.
End sampling.

(** The time grid: the values [current_time] takes in the loop when no
    iteration raises. *)
Definition time_grid (fuel : nat) (duration : Q) (interval : Z) : option (list Z) :=
  match sample_loop duration interval (fun t ts => (ts ++ [t], None)) fuel 0 [] with
  | (ts, Exit) => Some ts
  | _ => None
  end.

(** The grid the specification describes: 0, I, 2 I, ... with
    [floor (D / I) + 1] elements. *)
Definition multiples (interval : Z) (n : nat) : list Z :=
  map (fun k => Z.of_nat k * interval) (seq 0 n).

Definition grid_size (duration : Q) (interval : Z) : nat :=
  Z.to_nat (Qfloor (duration / inject_Z interval) + 1).

(** ** [extract_high_quality_screenshots] *)

Record extract_state := ExtractState {
  disk : storage;
  screenshots_taken : nat;
  screenshot_files : list string;
  (* ghost: the timestamps at which ffmpeg was invoked *)
  captures : list Z
}.

Definition output_file_name (output_dir title_prefix quality : string) (current_time : Z)
  : string :=
  let time_str := (format_04d current_time ++ "s")%string in
  if (quality =? "highest")%string
  then os_path_join output_dir (title_prefix ++ "_" ++ time_str ++ ".png")
  else os_path_join output_dir (title_prefix ++ "_" ++ time_str ++ ".jpg").

(** The body of the [while] loop, without the final [current_time += interval]. *)
Definition capture (w : world) (video_path output_dir title_prefix quality : string)
    (duration : Q) (current_time : Z) (st : extract_state) : extract_state * option exn :=
  let output_file := output_file_name output_dir title_prefix quality current_time in
  let st := ExtractState (disk st) (screenshots_taken st) (screenshot_files st)
                         (captures st ++ [current_time]) in
  match ffmpeg w video_path current_time output_file with
  | None => (st, Some CalledProcessError)
  | Some image =>
      let st := ExtractState (<[output_file := File image true true]> (disk st))
                             (S (screenshots_taken st))
                             (screenshot_files st ++ [output_file])
                             (captures st) in
      (* progress = (current_time / duration) * 100 *)
      if Qeq_bool duration 0 then (st, Some ZeroDivisionError)
      else
        match format_time current_time with
        | inl e => (st, Some e)
        | inr _ => (st, None)
        end
  end.

(** What the call leaves behind: the file system, the returned pair
    [(ex_count, ex_files)], and as ghost fields the captures attempted and
    the exception caught by [except Exception], if any. *)
Record extraction := Extraction {
  ex_disk : storage;
  ex_count : nat;
  ex_files : list string;
  ex_captures : list Z;
  ex_caught : option exn
}.

Definition extract_high_quality_screenshots (w : world) (fuel : nat) (fs : storage)
    (video_path output_dir : string) (interval : Z) (title_prefix quality : string)
  : option extraction :=
  match ffprobe w video_path with
  | ProbeRaises e => Some (Extraction fs 0 [] [] (Some e))
  | ProbeDuration duration =>
      match sample_loop duration interval
              (capture w video_path output_dir title_prefix quality duration)
              fuel 0 (ExtractState fs 0 [] []) with
      | (st, Fuel) => None
      | (st, Exit) =>
          Some (Extraction (disk st) (screenshots_taken st) (screenshot_files st)
                           (captures st) None)
      | (st, Raise e) =>
          (* except Exception as e: return 0, [] *)
          Some (Extraction (disk st) 0 [] (captures st) (Some e))
      end
  end.

(** Whether the iteration at [current_time] raises, and what: this does not
    depend on the state ([capture_raises] below). *)
Definition capture_exn (w : world) (video_path output_dir title_prefix quality : string)
    (duration : Q) (current_time : Z) : option exn :=
  snd (capture w video_path output_dir title_prefix quality duration current_time
               (ExtractState ∅ 0 [] [])).

(** ** File names and paths *)

(** The characters [sanitize_filename] removes: angle brackets, colon,
    double quote (code 34), slash, backslash (code 92), bar, question mark
    and star. *)
Definition invalid_chars : list ascii :=
  ["<"; ">"; ":"; "034"; "/"; "092"; "|"; "?"; "*"]%char.

Definition mem_ascii (c : ascii) (cs : list ascii) : bool :=
  existsb (Ascii.eqb c) cs.

Fixpoint lstrip (cs l : list ascii) : list ascii :=
  match l with
  | c :: l' => if mem_ascii c cs then lstrip cs l' else l
  | [] => []
  end.

(** [str.strip(chars)] *)
Definition strip (cs : list ascii) (l : list ascii) : list ascii :=
  rev (lstrip cs (rev (lstrip cs l))).

(** [sanitize_filename]; lengths are counted in bytes, which is Python's
    count of characters for ASCII titles. *)
Definition sanitize_filename (filename : string) (max_length : nat) : string :=
  let l := list_ascii_of_string filename in
  let l := List.filter (fun c => negb (mem_ascii c invalid_chars)) l in
  let l := strip ["."; " "]%char l in
  let l := map (fun c => if Ascii.eqb c " " then "_"%char else c) l in
  string_of_list_ascii (if (max_length <? length l)%nat then firstn max_length l else l).

(** [Path(a) / b] for a path [a] that is already in normal form. *)
Definition path_div (a b : string) : string :=
  if (b =? "")%string then a
  else if (a =? ".")%string then b
  else os_path_join a b.

(** [p] names an entry of directory [dir]: the name after [dir/], when it is
    not empty and has no further separator. *)
Definition child_name (dir p : string) : option string :=
  let pre := (dir ++ "/")%string in
  let name := substring (String.length pre) (String.length p - String.length pre) p in
  if String.prefix pre p && negb (name =? "")%string
     && negb (mem_ascii "/" (list_ascii_of_string name))
  then Some name else None.

(** [Path.iterdir], in some order. *)
Definition iterdir (fs : storage) (dir : string) : list string :=
  List.filter (fun p => bool_decide (is_Some (child_name dir p))) (map fst (map_to_list fs)).

(** [str.rfind('.')] counted from the end: the number of characters after
    the last dot. *)
Fixpoint chars_before_dot (rev_name : list ascii) : option nat :=
  match rev_name with
  | [] => None
  | c :: l => if Ascii.eqb c "." then Some 0%nat else S <$> chars_before_dot l
  end.

(** [PurePath.suffix]: from the last dot on, unless the dot is the first or
    the last character of the name. *)
Definition path_suffix (name : string) : string :=
  let n := String.length name in
  match chars_before_dot (rev (list_ascii_of_string name)) with
  | Some after =>
      if (0 <? after)%nat && (S after <? n)%nat
      then substring (n - S after) (S after) name else ""%string
  | None => ""%string
  end.

Definition lower_ascii (c : ascii) : ascii :=
  let n := nat_of_ascii c in
  if (65 <=? n)%nat && (n <=? 90)%nat then ascii_of_nat (n + 32) else c.

Definition lower (s : string) : string :=
  string_of_list_ascii (map lower_ascii (list_ascii_of_string s)).

Definition is_image (dir p : string) : bool :=
  match child_name dir p with
  | Some name =>
      let ext := lower (path_suffix name) in
      ((ext =? ".png") || (ext =? ".jpg") || (ext =? ".jpeg"))%string
  | None => false
  end.

(** [sorted([f for f in Path(images_dir).iterdir() if f.suffix.lower() in ...])];
    [String.le] is the order of Python on strings, character by character. *)
Definition image_files (fs : storage) (images_dir : string) : list string :=
  merge_sort String.le (List.filter (is_image images_dir) (iterdir fs images_dir)).

(** ** The document builders

    [create_pdf_with_pillow]: [False] when there is no image or when opening
    or saving raises. *)
Definition create_pdf_with_pillow (w : world) (fs : storage)
    (images_dir output_pdf : string) (dpi : Z) : storage * bool :=
  match image_files fs images_dir with
  | [] => (fs, false)
  | imgs =>
      match pillow_save w imgs with
      | Some pdf => (<[output_pdf := File pdf true true]> fs, true)
      | None => (fs, false)
      end
  end.

(** [create_hd_pdf].  The output file is opened for writing before
    [img2pdf.convert] runs, so a conversion that raises leaves an empty file.
    The model takes the output file to be writable, and the conversion, when
    it raises, to raise something else than [ImportError] (which would hand
    over to Pillow). *)
Definition create_hd_pdf (w : world) (fs : storage)
    (images_dir output_pdf : string) (dpi : Z) : storage * bool :=
  match img2pdf_convert w with
  | None => create_pdf_with_pillow w fs images_dir output_pdf dpi
  | Some convert =>
      match image_files fs images_dir with
      | [] => (fs, false)
      | imgs =>
          match convert imgs with
          | Some pdf => (<[output_pdf := File pdf true true]> fs, true)
          | None => (<[output_pdf := File [] true true]> fs, false)
          end
      end
  end.

(** ** [process_video] *)

(** The states of the orchestrator named by the specification; the list of
    states a run goes through is a ghost field of its result. *)
Inductive stage :=
  | Extracting
  | Deduplicating
  | DocumentBuilding
  | Done
  | Failed.

(** The lines written to [$GITHUB_OUTPUT]. *)
Record report := Report {
  report_output_dir : string;
  report_pdf_file : string;
  report_transcript_file : string;
  report_screenshot_count : nat
}.

Record run := Run {
  succeeded : bool;            (* the value [process_video] returns *)
  run_disk : storage;
  run_removed : nat;           (* [duplicates] *)
  run_pdf : option bool;       (* what [create_hd_pdf] returned, if called *)
  run_report : option report;
  stages : list stage
}.

(** The temporary directory and the transcript file are modelled only as
    far as the frames are concerned: the video is written to
    [temp_dir/video.mp4] and removed with the directory on the way out; the
    subtitle files in the temporary directory and the transcript written by
    [download_video_and_transcript] (modelled on its own below) are left
    out.  [output_dir] is taken in the form [Path] gives it ([pathlib_str]
    below).  The report is written when [GITHUB_OUTPUT] is set to a string
    that is not empty. *)
Definition process_video (w : world) (fuel : nat) (fs : storage)
    (url : string) (interval : Z) (output_dir quality : string) (pdf_dpi : Z)
    (keep_video no_transcript no_pdf : bool) : option run :=
  match yt_dlp_info w url with
  | None => Some (Run false fs 0 None None [Failed])
  | Some info =>
      let safe_title := sanitize_filename (title info) 100 in
      let video_dir := path_div output_dir safe_title in
      let images_dir := path_div video_dir "images" in
      let video_path := os_path_join (temp_dir w) "video.mp4" in
      let transcript_path := path_div video_dir (safe_title ++ "_transcript.txt") in
      match yt_dlp_download w url with
      | DownloadRaises => Some (Run false fs 0 None None [Failed])
      | Downloaded video transcript_success =>
          let fs := <[video_path := File video true true]> fs in
          match extract_high_quality_screenshots w fuel fs video_path images_dir
                  interval safe_title quality with
          | None => None
          | Some ex =>
              if (0 <? ex_count ex)%nat then
                let dd := remove_duplicate_screenshots (ex_disk ex) (ex_files ex) in
                let duplicates := duplicates_removed dd in
                let pdf_path := path_div video_dir (safe_title ++ "_HD.pdf") in
                let '(fs, pdf) :=
                  if no_pdf then (store dd, None)
                  else let '(fs, b) := create_hd_pdf w (store dd) images_dir pdf_path pdf_dpi
                       in (fs, Some b) in
                let fs :=
                  if keep_video
                  then <[path_div video_dir (safe_title ++ ".mp4") := File video true true]> fs
                  else fs in
                let count := (length (ex_files ex) - duplicates)%nat in
                let rep :=
                  match github_output w with
                  | Some out =>
                      if (out =? "")%string then None
                      else Some (Report video_dir
                                        (if no_pdf then "" else pdf_path)
                                        (if transcript_success then transcript_path else "")
                                        count)
                  | None => None
                  end in
                Some (Run true (delete video_path fs) duplicates pdf rep
                          ([Extracting; Deduplicating]
                           ++ (if no_pdf then [] else [DocumentBuilding]) ++ [Done]))
              else
                Some (Run false (delete video_path (ex_disk ex)) 0 None None
                          [Extracting; Failed])
          end
      end
  end.

(** ** Concrete scenarios

    A ten-second talk sampled every four seconds: the frames at 0 and 8
    seconds show the same slide, byte for byte. *)

Definition bytes_of (s : string) : list byte := list_byte_of_string s.

Definition lecture : world := {|
  yt_dlp_info := fun _ => Some (VideoInfo "My Talk: part 1" 10 "someone");
  yt_dlp_download := fun _ => Downloaded (bytes_of "mp4 bytes") false;
  ffprobe := fun _ => ProbeDuration 10;
  ffmpeg := fun _ t _ => Some (bytes_of (if t =? 4 then "slide 2" else "slide 1"));
  img2pdf_convert := Some (fun _ => Some (bytes_of "pdf bytes"));
  pillow_save := fun _ => None;
  temp_dir := "/tmp/tmpab12cd";
  github_output := None
|}.

(** The frames of the talk as the extractor leaves them on disk, and the
    same disk with the last frame protected against deletion. *)
Definition slide_files : list string :=
  ["img/talk_0000s.png"; "img/talk_0004s.png"; "img/talk_0008s.png"]%string.

Definition slides : storage :=
  {[ "img/talk_0000s.png"%string := File (bytes_of "slide 1") true true;
     "img/talk_0004s.png"%string := File (bytes_of "slide 2") true true;
     "img/talk_0008s.png"%string := File (bytes_of "slide 1") true true ]}.

Definition locked_slides : storage :=
  <[ "img/talk_0008s.png"%string := File (bytes_of "slide 1") true false ]> slides.

(** The same disk with the second frame unreadable. *)
Definition damaged_slides : storage :=
  <[ "img/talk_0004s.png"%string := File (bytes_of "slide 2") false true ]> slides.

(** The talk with a capture that fails at 8 s. *)
Definition flaky_lecture : world := {|
  yt_dlp_info := yt_dlp_info lecture;
  yt_dlp_download := yt_dlp_download lecture;
  ffprobe := ffprobe lecture;
  ffmpeg := fun v t out => if t =? 8 then None else ffmpeg lecture v t out;
  img2pdf_convert := img2pdf_convert lecture;
  pillow_save := pillow_save lecture;
  temp_dir := temp_dir lecture;
  github_output := github_output lecture
|}.

(** The talk on a host where neither PDF library works. *)
Definition lecture_without_pdf : world := {|
  yt_dlp_info := yt_dlp_info lecture;
  yt_dlp_download := yt_dlp_download lecture;
  ffprobe := ffprobe lecture;
  ffmpeg := ffmpeg lecture;
  img2pdf_convert := Some (fun _ => None);
  pillow_save := fun _ => None;
  temp_dir := temp_dir lecture;
  github_output := Some "/tmp/github_output"%string
|}.

(** A video whose container reports a duration of zero. *)
Definition still : world := {|
  yt_dlp_info := fun _ => Some (VideoInfo "Still" 0 "someone");
  yt_dlp_download := fun _ => Downloaded (bytes_of "mp4 bytes") false;
  ffprobe := fun _ => ProbeDuration 0;
  ffmpeg := fun _ _ _ => Some (bytes_of "the only frame");
  img2pdf_convert := Some (fun _ => Some (bytes_of "pdf bytes"));
  pillow_save := fun _ => None;
  temp_dir := "/tmp/tmpab12cd";
  github_output := None
|}.

(** [P] holds of the [n] integers from [t] on. *)
Fixpoint all_from (P : Z → bool) (n : nat) (t : Z) : bool :=
  match n with
  | O => true
  | S n' => P t && all_from P n' (t + 1)
  end.

(** The four decimal digits of a number below 10000. *)
Definition four_digits (t : Z) : string :=
  String (digit (t / 1000)) (String (digit (t / 100 mod 10))
    (String (digit (t / 10 mod 10)) (String (digit (t mod 10)) ""))).

(** A talk of three hours, sampled every 9999 seconds: the frames at
    9999 s and 19998 s. *)
Definition long_talk_frames : storage :=
  {[ output_file_name "img" "talk" "highest" 9999 := File (bytes_of "slide 1") true true;
     output_file_name "img" "talk" "highest" 19998 := File (bytes_of "slide 2") true true ]}.

(** The number written in decimal at the start of a string, read from left
    to right onto [acc]. *)
Fixpoint read_decimal (s : string) (acc : Z) : Z :=
  match s with
  | String c s' =>
      let d := Z.of_nat (nat_of_ascii c) - 48 in
      if (0 <=? d) && (d <=? 9) then read_decimal s' (10 * acc + d) else acc
  | EmptyString => acc
  end.

(** ** [process_video] from its first line

    Before any work [process_video] prints a banner with
    [format_time(video_info['duration'])], outside any [try]: where
    [format_time] raises, the call raises.  [process_video] above is the
    function from the banner on; here the banner comes first.  [inl e] is
    the exception that leaves the call. *)
Definition process_video_with_banner (w : world) (fuel : nat) (fs : storage)
    (url : string) (interval : Z) (output_dir quality : string) (pdf_dpi : Z)
    (keep_video no_transcript no_pdf : bool) : option (exn + run) :=
  match yt_dlp_info w url with
  | None => Some (inr (Run false fs 0 None None [Failed]))
  | Some info =>
      match format_time (info_duration info) with
      | inl e => Some (inl e)
      | inr _ =>
          inr <$> process_video w fuel fs url interval output_dir quality pdf_dpi
                    keep_video no_transcript no_pdf
      end
  end.

(** A talk whose metadata give a duration no [timedelta] can hold. *)
Definition endless_stream : world := {|
  yt_dlp_info := fun _ => Some (VideoInfo "Stream" 86400000000000 "someone");
  yt_dlp_download := yt_dlp_download lecture;
  ffprobe := ffprobe lecture;
  ffmpeg := ffmpeg lecture;
  img2pdf_convert := img2pdf_convert lecture;
  pillow_save := pillow_save lecture;
  temp_dir := temp_dir lecture;
  github_output := github_output lecture
|}.

(** The talk with captions, on a host that collects the outputs. *)
Definition captioned_lecture : world := {|
  yt_dlp_info := yt_dlp_info lecture;
  yt_dlp_download := fun _ => Downloaded (bytes_of "mp4 bytes") true;
  ffprobe := ffprobe lecture;
  ffmpeg := ffmpeg lecture;
  img2pdf_convert := img2pdf_convert lecture;
  pillow_save := pillow_save lecture;
  temp_dir := temp_dir lecture;
  github_output := Some "/tmp/github_output"%string
|}.

(** ** [convert_srt_to_text]

    The subtitle file is read as text and treated line by line.  The model
    is for subtitle files in ASCII, where a byte is a character: [str.strip],
    [str.isdigit] and the class [\s] are given by their ASCII members, and
    decoding and encoding are the identity.  [textwrap.fill] is a parameter:
    its result is written out as it comes. *)

(** The characters [str.isspace] holds of, which are also those [\s]
    matches: tab, line feed, vertical tab, form feed, carriage return, the
    four separators 28 to 31 and the space. *)
Definition whitespace : list ascii :=
  ["009"; "010"; "011"; "012"; "013"; "028"; "029"; "030"; "031"; " "]%char.

(** [line.strip()] *)
Definition str_strip (line : list ascii) : list ascii := strip whitespace line.

(** [line.isdigit()] *)
Definition str_isdigit (line : list ascii) : bool :=
  match line with
  | [] => false
  | _ => forallb (fun c => (48 <=? nat_of_ascii c)%nat && (nat_of_ascii c <=? 57)%nat) line
  end.

Fixpoint starts_with (pat l : list ascii) : bool :=
  match pat, l with
  | [], _ => true
  | p :: pat', c :: l' => Ascii.eqb p c && starts_with pat' l'
  | _ :: _, [] => false
  end.

(** [pat in l] *)
Fixpoint contains (pat l : list ascii) : bool :=
  starts_with pat l ||
  match l with
  | [] => false
  | _ :: l' => contains pat l'
  end.

(** The number of characters before the first closing bracket, when no
    opening bracket comes before it. *)
Fixpoint find_close (l : list ascii) : option nat :=
  match l with
  | [] => None
  | c :: l' =>
      if Ascii.eqb c ">" then Some 0%nat
      else if Ascii.eqb c "<" then None
      else S <$> find_close l'
  end.

(** The number of characters the pattern [[^<]+?>] matches at the start of
    [l], if it matches: one character other than an opening bracket, then as
    few such characters as possible up to a closing bracket. *)
Definition tag_length (l : list ascii) : option nat :=
  match l with
  | c :: l' => if Ascii.eqb c "<" then None else (fun k => S (S k)) <$> find_close l'
  | [] => None
  end.

(** [re.sub('<[^<]+?>', '', line)]: from left to right, every match is
    dropped and the scan goes on behind it; [skip] counts the characters of
    the current match still to be dropped. *)
Fixpoint re_sub_tags (skip : nat) (l : list ascii) : list ascii :=
  match l with
  | [] => []
  | c :: l' =>
      match skip with
      | S k => re_sub_tags k l'
      | O =>
          if Ascii.eqb c "<" then
            match tag_length l' with
            | Some n => re_sub_tags n l'
            | None => c :: re_sub_tags 0 l'
            end
          else c :: re_sub_tags 0 l'
      end
  end.

(** [re.sub(r'\s+', ' ', text)]; [in_run] tells that the character before
    was whitespace. *)
Fixpoint re_sub_spaces (in_run : bool) (l : list ascii) : list ascii :=
  match l with
  | [] => []
  | c :: l' =>
      if mem_ascii c whitespace then
        if in_run then re_sub_spaces true l' else " "%char :: re_sub_spaces true l'
      else c :: re_sub_spaces false l'
  end.

(** [f.readlines()] of a file opened in text mode: a line ends at a line
    feed, at a carriage return or at the two in a row, and ends in a line
    feed whichever it was; [cur] is the line read so far, last character
    first. *)
Fixpoint readlines_go (cur : list ascii) (s : list ascii) : list (list ascii) :=
  match s with
  | [] => match cur with [] => [] | _ => [rev cur] end
  | c :: s' =>
      if Ascii.eqb c "010" then rev ("010"%char :: cur) :: readlines_go [] s'
      else if Ascii.eqb c "013" then
        rev ("010"%char :: cur) ::
        match s' with
        | c' :: s'' => if Ascii.eqb c' "010" then readlines_go [] s'' else readlines_go [] s'
        | [] => []
        end
      else readlines_go (c :: cur) s'
  end.

Definition readlines (s : list ascii) : list (list ascii) := readlines_go [] s.

(** [' '.join(ls)] *)
Fixpoint join_space (ls : list (list ascii)) : list ascii :=
  match ls with
  | [] => []
  | l :: ls' =>
      match ls' with
      | [] => l
      | _ => l ++ " "%char :: join_space ls'
      end
  end.

(** [not l] for a list or a string *)
Definition is_empty {A : Type} (l : list A) : bool :=
  match l with
  | [] => true
  | _ => false
  end.

Record srt_state := SrtState {
  transcript_lines : list (list ascii);
  current_text : list (list ascii)
}.

(** The body of [for line in lines]. *)
Definition srt_step (st : srt_state) (line : list ascii) : srt_state :=
  let line := str_strip line in
  if negb (is_empty line) && negb (str_isdigit line)
     && negb (contains ["-"; "-"; ">"]%char line)
  then SrtState (transcript_lines st) (current_text st ++ [re_sub_tags 0 line])
  else if is_empty line && negb (is_empty (current_text st))
  then SrtState (transcript_lines st ++ [join_space (current_text st)]) []
  else st.

(** [full_text] as it is handed to [textwrap.fill]. *)
Definition srt_full_text (lines : list (list ascii)) : list ascii :=
  let st := fold_left srt_step lines (SrtState [] []) in
  let transcript_lines :=
    if is_empty (current_text st) then transcript_lines st
    else transcript_lines st ++ [join_space (current_text st)] in
  re_sub_spaces false (join_space transcript_lines).

(** The two lines written before the text. *)
Definition transcript_header : list ascii :=
  list_ascii_of_string "VIDEO TRANSCRIPT" ++ ["010"%char]
  ++ repeat "="%char 50 ++ ["010"; "010"]%char.

Definition decode_text (bs : list byte) : list ascii := map ascii_of_byte bs.
Definition encode_text (l : list ascii) : list byte := map byte_of_ascii l.

(** Text in ASCII, as bytes and as characters. *)
Definition ascii_bytes (bs : list byte) : Prop :=
  Forall (fun b => (Byte.to_nat b < 128)%nat) bs.
Definition ascii_text (l : list ascii) : Prop :=
  Forall (fun c => (nat_of_ascii c < 128)%nat) l.

(** What becomes of writing given bytes to a file opened with mode ['w']:
    all of them are written; or [open] raises and the storage is as before;
    or a [write] raises after the file has been opened, which leaves a file
    holding what had been written until then. *)
Inductive write_result :=
  | Written
  | OpenRaises
  | WriteRaises (written : list byte).

(** [convert_srt_to_text].  [text_file] is [None] where the caller passes
    [None], and [open(None, 'w')] raises; the whole body is in a [try], so
    the function returns [False] where reading, opening or writing raises.
    [write_text path content] tells how writing [content] to [path] goes. *)
Definition convert_srt_to_text (textwrap_fill : list ascii → list ascii)
    (write_text : string → list byte → write_result) (fs : storage)
    (srt_file : string) (text_file : option string) : storage * bool :=
  match fs !! srt_file with
  | Some f =>
      if readable f then
        match text_file with
        | Some path =>
            let full_text := srt_full_text (readlines (decode_text (data f))) in
            let wrapped_text := textwrap_fill full_text in
            let content := encode_text (transcript_header ++ wrapped_text) in
            match write_text path content with
            | Written => (<[path := File content true true]> fs, true)
            | OpenRaises => (fs, false)
            | WriteRaises written => (<[path := File written true true]> fs, false)
            end
        | None => (fs, false)
        end
      else (fs, false)
  | None => (fs, false)
  end.

(** ** [download_video_and_transcript]

    [os.path.dirname], [os.path.basename] and [os.path.splitext] of POSIX. *)

Fixpoint take_while {A : Type} (f : A → bool) (l : list A) : list A :=
  match l with
  | x :: l' => if f x then x :: take_while f l' else []
  | [] => []
  end.

Fixpoint drop_while {A : Type} (f : A → bool) (l : list A) : list A :=
  match l with
  | x :: l' => if f x then drop_while f l' else l
  | [] => []
  end.

(** [p[:i]] and [p[i:]] for [i = p.rfind(c) + 1]. *)
Definition rsplit_after (c : ascii) (p : list ascii) : list ascii * list ascii :=
  let other := fun x => negb (Ascii.eqb x c) in
  (rev (drop_while other (rev p)), rev (take_while other (rev p))).

Definition os_path_basename (p : string) : string :=
  string_of_list_ascii (snd (rsplit_after "/" (list_ascii_of_string p))).

Definition os_path_dirname (p : string) : string :=
  let head := fst (rsplit_after "/" (list_ascii_of_string p)) in
  string_of_list_ascii
    (if is_empty head || forallb (Ascii.eqb "/") head then head
     else rev (lstrip ["/"%char] (rev head))).

(** [os.path.splitext]: the extension starts at the last dot of the last
    component, unless only dots come before it there. *)
Definition os_path_splitext (p : string) : string * string :=
  let '(head, name) := rsplit_after "/" (list_ascii_of_string p) in
  let '(before, ext) := rsplit_after "." name in
  match rev before with
  | _ :: stem_rev =>
      if existsb (fun x => negb (Ascii.eqb x ".")) stem_rev
      then (string_of_list_ascii (head ++ rev stem_rev),
            string_of_list_ascii ("."%char :: ext))
      else (p, ""%string)
  | [] => (p, ""%string)
  end.

(** The subtitle files looked for, in this order. *)
Definition subtitle_patterns (video_base : string) : list string :=
  [video_base ++ ".en.srt"; video_base ++ ".en.vtt";
   video_base ++ ".srt"; video_base ++ ".vtt"]%string.

Definition subtitle_candidates (video_path : string) : list string :=
  let video_dir := os_path_dirname video_path in
  let video_base := fst (os_path_splitext (os_path_basename video_path)) in
  map (os_path_join video_dir) (subtitle_patterns video_base).

(** [os.path.exists] *)
Definition os_path_exists (fs : storage) (path : string) : bool :=
  bool_decide (is_Some (fs !! path)).

(** [download_video_and_transcript].  [yt_dlp] is the run of the downloader:
    the storage it leaves and whether it exited with success ([check=True]
    raises otherwise).  The result of [convert_srt_to_text] is not looked
    at. *)
Definition download_video_and_transcript
    (yt_dlp : string → string → storage → storage * bool)
    (textwrap_fill : list ascii → list ascii)
    (write_text : string → list byte → write_result) (fs : storage)
    (url video_path : string) (transcript_path : option string)
  : storage * (bool * bool) :=
  match yt_dlp url video_path fs with
  | (fs, false) => (fs, (false, false))
  | (fs, true) =>
      match List.find (os_path_exists fs) (subtitle_candidates video_path) with
      | Some potential_file =>
          (fst (convert_srt_to_text textwrap_fill write_text fs potential_file
                  transcript_path),
           (true, true))
      | None => (fs, (true, false))
      end
  end.

(** ** [Path(output_dir)]

    [str(Path(s))] on POSIX: the root is [/], or [//] when the path starts
    with exactly two slashes; empty components and components [.] are
    dropped, [..] is kept; a path without root and components is [.]. *)
Fixpoint split_on (c : ascii) (cur : list ascii) (l : list ascii) : list (list ascii) :=
  match l with
  | [] => [rev cur]
  | x :: l' =>
      if Ascii.eqb x c then rev cur :: split_on c [] l' else split_on c (x :: cur) l'
  end.

Fixpoint join_slash (parts : list (list ascii)) : list ascii :=
  match parts with
  | [] => []
  | part :: parts' =>
      match parts' with
      | [] => part
      | _ => part ++ "/"%char :: join_slash parts'
      end
  end.

Definition pathlib_root (l : list ascii) : list ascii :=
  match take_while (Ascii.eqb "/") l with
  | [] => []
  | [_; _] => ["/"; "/"]%char
  | _ => ["/"]%char
  end.

Definition is_dot (part : list ascii) : bool :=
  match part with
  | [c] => Ascii.eqb c "."
  | _ => false
  end.

Definition pathlib_str (s : string) : string :=
  let l := list_ascii_of_string s in
  let parts := List.filter (fun part => negb (is_empty part) && negb (is_dot part))
                           (split_on "/" [] l) in
  let root := pathlib_root l in
  string_of_list_ascii
    (if is_empty root && is_empty parts then ["."]%char else root ++ join_slash parts).

(** *** Vocabulary for the transcript *)

(** A line of the subtitle file that carries text: not blank, not a cue
    number, not a timing line. *)
Definition is_caption (line : list ascii) : bool :=
  let line := str_strip line in
  negb (is_empty line) && negb (str_isdigit line)
  && negb (contains ["-"; "-"; ">"]%char line).

(** The texts of the caption lines, stripped and without tags, in order. *)
Definition caption_texts (lines : list (list ascii)) : list (list ascii) :=
  map (fun line => re_sub_tags 0 (str_strip line)) (List.filter is_caption lines).

(** What [transcript_lines] is once the loop is over and the last group has
    been added. *)
Definition srt_groups (st : srt_state) : list (list ascii) :=
  if is_empty (current_text st) then transcript_lines st
  else transcript_lines st ++ [join_space (current_text st)].

(** A subtitle file of two cues, the second one with a tag. *)
Definition two_cues : list byte :=
  encode_text
    (list_ascii_of_string "1" ++ ["010"%char]
     ++ list_ascii_of_string "00:00:01,000 --> 00:00:02,000" ++ ["010"%char]
     ++ list_ascii_of_string "Good  morning" ++ ["010"; "010"]%char
     ++ list_ascii_of_string "2" ++ ["010"%char]
     ++ list_ascii_of_string "00:00:02,000 --> 00:00:04,000" ++ ["010"%char]
     ++ list_ascii_of_string "<i>everyone</i>" ++ ["010"%char]).

(** A downloader that writes the video and English captions next to it. *)
Definition yt_dlp_with_captions (url video_path : string) (fs : storage) : storage * bool :=
  (<["/tmp/tmpab12cd/video.en.srt"%string := File two_cues true true]>
     (<[video_path := File (bytes_of "mp4 bytes") true true]> fs), true).

(* ===================================================================== *)
(** * Part II: properties                                                 *)
(* ===================================================================== *)

(** ** SHA-256: the standard test vectors *)

Example sha256_constants :
  length SHA256.K = 64%nat ∧ hd 0 SHA256.K = 0x428a2f98 ∧ last SHA256.K = Some 0xc67178f2 ∧
  SHA256.ra SHA256.H0 = 0x6a09e667 ∧ SHA256.rh SHA256.H0 = 0x5be0cd19.
Proof. vm_compute. done. Qed.

Example sha256_abc :
  SHA256.sha256_hex (list_byte_of_string "abc")
  = "ba7816bf8f01cfea414140de5dae2223b00361a396177a9cb410ff61f20015ad"%string.
Proof. vm_compute. reflexivity. Qed.

Example sha256_empty :
  SHA256.sha256_hex []
  = "e3b0c44298fc1c149afbf4c8996fb92427ae41e4649b934ca495991b7852b855"%string.
Proof. vm_compute. reflexivity. Qed.

Example sha256_two_blocks :
  SHA256.sha256_hex
    (list_byte_of_string "abcdbcdecdefdefgefghfghighijhijkijkljklmklmnlmnomnopnopq")
  = "248d6a61d20638b8e5c026930c3e6039a33ce45964ff2167f6ecedd419db06c1"%string.
Proof. vm_compute. reflexivity. Qed.

(** A digest is 64 hexadecimal characters, so it is never the empty string:
    the test [if img_hash:] only ever rejects [None]. *)
Lemma hex32_cons (x : Z) : ∃ c s, SHA256.hex32 x = String c s.
Proof.
  eexists _, _. unfold SHA256.hex32. cbn [seq rev app fold_right]. reflexivity.
Qed.

Lemma sha256_hex_nonempty (bs : list byte) : SHA256.sha256_hex bs ≠ ""%string.
Proof.
  unfold SHA256.sha256_hex, SHA256.hexdigest.
  generalize (SHA256.digest (map (fun b => Z.of_N (Byte.to_N b)) bs)).
  intros r. destruct (hex32_cons (SHA256.ra r)) as (c & s & ->). discriminate.
Qed.

Lemma truthy_get_image_hash (fs : storage) (p : string) :
  truthy (get_image_hash fs p) = bool_decide (is_Some (get_image_hash fs p)).
Proof.
  unfold get_image_hash.
  destruct (fs !! p) as [f|]; [|done]. destruct (readable f); [|done].
  cbn [truthy]. rewrite bool_decide_eq_true_2 by eauto.
  destruct (String.eqb_spec (SHA256.sha256_hex (data f)) "") as [E|E]; [|done].
  by apply sha256_hex_nonempty in E.
Qed.

(** ** Formatting: values as Python prints them *)

Example format_04d_examples :
  map format_04d [0; 5; 9999; 10000; -1; -123; -1234; 123456]
  = ["0000"; "0005"; "9999"; "10000"; "-001"; "-123"; "-1234"; "123456"]%string.
Proof. vm_compute. reflexivity. Qed.

Example format_time_examples :
  map format_time [0; 59; 3600; 86399; 86400; 172800; 90061; -1; 86399999999999;
                   86400000000000; -86399999913600; -86399999913601]
  = [inr "0:00:00"; inr "0:00:59"; inr "1:00:00"; inr "23:59:59";
     inr "1 day, 0:00:00"; inr "2 days, 0:00:00"; inr "1 day, 1:01:01";
     inr "-1 day, 23:59:59"; inr "999999999 days, 23:59:59"; inl OverflowError;
     inr "-999999999 days, 0:00:00"; inl OverflowError]%string.
Proof. vm_compute. reflexivity. Qed.

Example os_path_join_examples :
  [os_path_join "a" "b"; os_path_join "a/" "b"; os_path_join "" "b";
   os_path_join "a" "/b"; os_path_join "a" ""]
  = ["a/b"; "a/b"; "b"; "/b"; "a/"]%string.
Proof. vm_compute. reflexivity. Qed.

(** ** File names: values as Python computes them *)

Example sanitize_filename_examples :
  [sanitize_filename "My Talk: part 1/2?" 100; sanitize_filename "  ..a b.c.. " 100;
   sanitize_filename "abcdef" 3; sanitize_filename "<>" 100]
  = ["My_Talk_part_12"; "a_b.c"; "abc"; ""]%string.
Proof. vm_compute. reflexivity. Qed.

Example path_suffix_examples :
  map path_suffix ["a.png"; "a.tar.gz"; ".png"; "a."; "a"; "a.b.JPG"]
  = [".png"; ".gz"; ""; ""; ""; ".JPG"]%string.
Proof. vm_compute. reflexivity. Qed.

(** ** The de-duplication pass, one iteration at a time *)

Lemma get_image_hash_Some (fs : storage) (p h : string) :
  get_image_hash fs p = Some h ↔
  ∃ f, fs !! p = Some f ∧ readable f = true ∧ h = SHA256.sha256_hex (data f).
Proof.
  unfold get_image_hash. split.
  - destruct (fs !! p) as [f|]; [|done].
    destruct (readable f) eqn:R; [|done]. intros [= <-]. eauto.
  - intros (f & -> & -> & ->). done.
Qed.

Lemma dedup_step_outcome (st : dedup_state) (p : string) :
  step_outcome st p (dedup_step st p).
Proof.
  unfold dedup_step. rewrite truthy_get_image_hash.
  destruct (get_image_hash (store st) p) as [h|] eqn:Hh;
    unfold keep, logged; cbn [store hashes duplicates_removed survivors trace].
  - rewrite bool_decide_eq_true_2 by eauto.
    case_bool_decide as Hin.
    + destruct (proj1 (get_image_hash_Some _ _ _) Hh) as (f & Hf & _ & _).
      unfold os_remove. rewrite Hf. destruct (deletable f) eqn:Hd.
      * by eapply StepRemoved.
      * by eapply StepUndeletable.
    + apply StepFirst; [done|]. by apply eq_None_not_Some.
  - rewrite bool_decide_eq_false_2 by (by intros [? ?]).
    by apply StepNoHash.
Qed.

Lemma dedup_loop_snoc (st : dedup_state) (l : list string) (x : string) :
  dedup_loop st (l ++ [x]) = dedup_step (dedup_loop st l) x.
Proof. unfold dedup_loop. by rewrite fold_left_app. Qed.

Lemma dedup_loop_cons (st : dedup_state) (l : list string) (x : string) :
  dedup_loop st (x :: l) = dedup_loop (dedup_step st x) l.
Proof. done. Qed.

(** Files are only ever deleted. *)
Lemma dedup_step_store_subseteq (st : dedup_state) (p : string) :
  store (dedup_step st p) ⊆ store st.
Proof.
  destruct (dedup_step_outcome st p); cbn [store]; try done.
  apply delete_subseteq.
Qed.

Lemma dedup_loop_store_subseteq (l : list string) (st : dedup_state) :
  store (dedup_loop st l) ⊆ store st.
Proof.
  revert st. induction l as [|x l IH]; intros st; [done|].
  rewrite dedup_loop_cons. etrans; [apply IH|apply dedup_step_store_subseteq].
Qed.

Lemma get_image_hash_weaken (fs1 fs2 : storage) (p h : string) :
  fs1 ⊆ fs2 → get_image_hash fs1 p = Some h → get_image_hash fs2 p = Some h.
Proof.
  intros Hsub (f & Hf & Hr & ->)%get_image_hash_Some.
  apply get_image_hash_Some. exists f. split_and!; try done.
  by eapply lookup_weaken.
Qed.

Lemma get_image_hash_ext (fs1 fs2 : storage) (p : string) :
  fs1 !! p = fs2 !! p → get_image_hash fs1 p = get_image_hash fs2 p.
Proof. unfold get_image_hash. by intros ->. Qed.

Lemma can_delete_iff (fs : storage) (p : string) :
  can_delete fs p ↔ ∃ f, fs !! p = Some f ∧ deletable f = true.
Proof.
  unfold can_delete, os_remove. split.
  - destruct (fs !! p) as [f|]; [|by intros [? ?]].
    destruct (deletable f) eqn:Hd; [eauto|by intros [? ?]].
  - intros (f & -> & ->). eauto.
Qed.

(** Every iteration either keeps its entry or counts one removal. *)
Lemma dedup_step_count (st : dedup_state) (p : string) :
  (length (survivors (dedup_step st p)) + duplicates_removed (dedup_step st p)
   = S (length (survivors st) + duplicates_removed st))%nat.
Proof.
  destruct (dedup_step_outcome st p);
    cbn [survivors duplicates_removed]; rewrite ?length_app; simpl; lia.
Qed.

Lemma dedup_loop_count (l : list string) (st : dedup_state) :
  (length (survivors (dedup_loop st l)) + duplicates_removed (dedup_loop st l)
   = length (survivors st) + duplicates_removed st + length l)%nat.
Proof.
  revert st. induction l as [|x l IH]; intros st.
  - simpl. lia.
  - rewrite dedup_loop_cons, IH, dedup_step_count. simpl. lia.
Qed.

(** The entries kept by the loop extend [survivors] by a sublist of the input. *)
Lemma dedup_loop_survivors (l : list string) (st : dedup_state) :
  ∃ ks, survivors (dedup_loop st l) = survivors st ++ ks ∧ sublist ks l.
Proof.
  revert st. induction l as [|x l IH]; intros st.
  - exists []. by rewrite app_nil_r.
  - rewrite dedup_loop_cons. destruct (IH (dedup_step st x)) as (ks & -> & Hks).
    destruct (dedup_step_outcome st x); cbn [survivors].
    1,2,4: exists (x :: ks); split; [by rewrite <- app_assoc | by constructor].
    exists ks. split; [done | by constructor].
Qed.

(** The early return for at most one artifact is an optimisation: the loop
    would have removed nothing either. *)
Lemma dedup_loop_short (fs : storage) (l : list string) :
  (length l ≤ 1)%nat →
  store (dedup_loop (dedup_init fs) l) = fs ∧
  survivors (dedup_loop (dedup_init fs) l) = l ∧
  duplicates_removed (dedup_loop (dedup_init fs) l) = 0%nat.
Proof.
  destruct l as [|x [|y l]]; simpl; intros Hlen; [done| |lia].
  change (fold_left dedup_step [x] (dedup_init fs)) with (dedup_step (dedup_init fs) x).
  destruct (dedup_step_outcome (dedup_init fs) x) as [?|?|h f ? [? Hin]|h f ? [? Hin]];
    try done; by rewrite lookup_empty in Hin.
Qed.

Lemma remove_duplicate_screenshots_loop (fs : storage) (l : list string) :
  let r := remove_duplicate_screenshots fs l in
  let st := dedup_loop (dedup_init fs) l in
  store r = store st ∧ survivors r = survivors st ∧
  duplicates_removed r = duplicates_removed st.
Proof.
  unfold remove_duplicate_screenshots. cbn zeta.
  destruct (Nat.leb_spec (length l) 1) as [Hle|Hgt]; [|done].
  destruct (dedup_loop_short fs l Hle) as (-> & -> & ->). done.
Qed.

(** ** First seen wins

    For an input without repeated paths the loop's decisions can be read off
    the storage as it was on entry: when the loop reaches an entry its file is
    still untouched, and [hashes] holds exactly the fingerprints of the
    entries before it. *)

Lemma dedup_step_store_other (st : dedup_state) (x q : string) :
  q ≠ x → store (dedup_step st x) !! q = store st !! q.
Proof.
  intros Hne. destruct (dedup_step_outcome st x); cbn [store]; try done.
  by rewrite lookup_delete_ne.
Qed.

Lemma first_seen_invariant (fs : storage) (l : list string) :
  NoDup l →
  let st := dedup_loop (dedup_init fs) l in
  (∀ q, q ∉ l → store st !! q = fs !! q) ∧
  (∀ h, is_Some (hashes st !! h) ↔ ∃ q, q ∈ l ∧ fingerprint fs q = Some h) ∧
  (∀ q, q ∈ survivors st → q ∈ l) ∧
  (∀ i p, l !! i = Some p →
     (repeats_earlier fs (take i l) p ∧ can_delete fs p →
        store st !! p = None ∧ p ∉ survivors st) ∧
     (¬ (repeats_earlier fs (take i l) p ∧ can_delete fs p) →
        store st !! p = fs !! p ∧ p ∈ survivors st)).
Proof.
  induction l as [|x l IH] using rev_ind; intros Hnd; cbn zeta.
  { split_and!; try done.
    intros h. split; [by intros [? ?]|]. by intros (? & ?%elem_of_nil & _). }
  apply NoDup_app in Hnd as (Hl & Hx & _).
  assert (x ∉ l) as Hxl by (intros Hin; apply (Hx x Hin); by left).
  destruct (IH Hl) as (Hstore & Hhashes & Hsurv & Hdec). clear IH Hx.
  rewrite dedup_loop_snoc. set (st := dedup_loop (dedup_init fs) l) in *.
  assert (store st !! x = fs !! x) as Hxs by auto.
  assert (get_image_hash (store st) x = fingerprint fs x) as Hfx
    by (by apply get_image_hash_ext).
  (* what the iteration on [x] decides, in terms of the storage on entry *)
  assert ((repeats_earlier fs l x ∧ can_delete fs x →
             store (dedup_step st x) !! x = None ∧ x ∉ survivors (dedup_step st x)) ∧
          (¬ (repeats_earlier fs l x ∧ can_delete fs x) →
             store (dedup_step st x) !! x = fs !! x ∧ x ∈ survivors (dedup_step st x)))
    as Hnew.
  { destruct (dedup_step_outcome st x) as [Hn|h Hh Hfresh|h f Hh Hin Hf Hd|h f Hh Hin Hf Hd];
      cbn [store survivors]; rewrite Hfx in *.
    - split; [intros [(q & h & _ & _ & Hp) _]; congruence|].
      intros _. split; [done|]. apply elem_of_app. right. by left.
    - split.
      + intros [(q & h' & Hq & Hqh & Hp) _]. assert (h' = h) as -> by congruence.
        assert (is_Some (hashes st !! h)) as [? ?] by (apply Hhashes; eauto). congruence.
      + intros _. split; [done|]. apply elem_of_app. right. by left.
    - split.
      + intros _. split; [by rewrite lookup_delete_eq|]. intros ?%Hsurv. done.
      + intros Hno. exfalso. apply Hno. split.
        * apply Hhashes in Hin as (q & Hq & Hqh). by exists q, h.
        * apply can_delete_iff. exists f. by rewrite <- Hxs.
    - split.
      + intros [_ (f' & Hf' & Hd')%can_delete_iff]. rewrite <- Hxs, Hf in Hf'. congruence.
      + intros _. split; [done|]. apply elem_of_app. right. by left. }
  split_and!.
  - intros q Hq. rewrite elem_of_app, list_elem_of_singleton in Hq.
    rewrite dedup_step_store_other by (intros ->; tauto). apply Hstore. tauto.
  - intros h.
    destruct (dedup_step_outcome st x) as [Hn|h' Hh Hfresh|h' f Hh Hin Hf Hd|h' f Hh Hin Hf Hd];
      cbn [hashes]; rewrite Hfx in *.
    + rewrite Hhashes. split; intros (q & Hq & Hqh).
      * exists q. split; [apply elem_of_app; by left|done].
      * apply elem_of_app in Hq as [Hq|Hq%list_elem_of_singleton]; [eauto|congruence].
    + rewrite lookup_insert. case_decide as Heq.
      * subst h'. split; [|by eauto]. intros _. exists x.
        split; [apply elem_of_app; right; by left|done].
      * rewrite Hhashes. split; intros (q & Hq & Hqh).
        -- exists q. split; [apply elem_of_app; by left|done].
        -- apply elem_of_app in Hq as [Hq|Hq%list_elem_of_singleton]; [eauto|congruence].
    + rewrite Hhashes. split; intros (q & Hq & Hqh).
      * exists q. split; [apply elem_of_app; by left|done].
      * apply elem_of_app in Hq as [Hq|Hq%list_elem_of_singleton]; [eauto|subst q].
        assert (h = h') as -> by congruence. by apply Hhashes.
    + rewrite Hhashes. split; intros (q & Hq & Hqh).
      * exists q. split; [apply elem_of_app; by left|done].
      * apply elem_of_app in Hq as [Hq|Hq%list_elem_of_singleton]; [eauto|subst q].
        assert (h = h') as -> by congruence. by apply Hhashes.
  - intros q Hq. apply elem_of_app.
    destruct (dedup_step_outcome st x); cbn [survivors] in Hq;
      try (apply elem_of_app in Hq as [Hq|Hq]); auto.
  - intros i p [[Hi Hp]|[-> <-]]%lookup_snoc_Some.
    + assert (p ≠ x) as Hpx by (intros ->; apply Hxl; by eapply list_elem_of_lookup_2).
      rewrite take_app_le by lia. rewrite dedup_step_store_other by done.
      destruct (Hdec i p Hp) as [Hrem Hkeep]. split.
      * intros HD. destruct (Hrem HD) as [Hs Hns]. split; [done|].
        destruct (dedup_step_outcome st x); cbn [survivors]; try done;
          rewrite elem_of_app, list_elem_of_singleton; tauto.
      * intros HD. destruct (Hkeep HD) as [Hs Hns]. split; [done|].
        destruct (dedup_step_outcome st x); cbn [survivors]; try done;
          rewrite elem_of_app; tauto.
    + rewrite take_app_length. exact Hnew.
Qed.

(** ** Kept or removed *)

Lemma dedup_step_cases (st : dedup_state) (x : string) :
  (removes st x ∧
   store (dedup_step st x) = delete x (store st) ∧
   hashes (dedup_step st x) = hashes st ∧
   duplicates_removed (dedup_step st x) = S (duplicates_removed st) ∧
   survivors (dedup_step st x) = survivors st)
  ∨
  (¬ removes st x ∧
   store (dedup_step st x) = store st ∧
   (∀ h, is_Some (hashes (dedup_step st x) !! h) ↔
         is_Some (hashes st !! h) ∨ get_image_hash (store st) x = Some h) ∧
   duplicates_removed (dedup_step st x) = duplicates_removed st ∧
   survivors (dedup_step st x) = survivors st ++ [x]).
Proof.
  destruct (dedup_step_outcome st x) as [Hn|h Hh Hfresh|h f Hh Hin Hf Hd|h f Hh Hin Hf Hd];
    cbn [store hashes duplicates_removed survivors].
  - right. split_and!; try done.
    + intros (h & f & ? & _); congruence.
    + intros h. split; [tauto|]. intros [?|?]; [done|congruence].
  - right. split_and!; try done.
    + intros (h' & f & ? & [? ?] & _). congruence.
    + intros h'. rewrite lookup_insert. case_decide as Heq.
      * subst h'. split; eauto.
      * split; [tauto|]. intros [?|?]; [done|congruence].
  - left. split_and!; try done. by exists h, f.
  - right. split_and!; try done.
    + intros (h' & f' & _ & _ & ? & ?). congruence.
    + intros h'. split; [tauto|]. intros [?|?]; [done|congruence].
Qed.

Lemma removes_weaken (st st2 : dedup_state) (x : string) :
  store st2 ⊆ store st →
  (∀ h, is_Some (hashes st2 !! h) → is_Some (hashes st !! h)) →
  removes st2 x → removes st x.
Proof.
  intros Hsub Hh (h & f & Hx & Hin & Hf & Hd). exists h, f. split_and!; auto.
  - by eapply get_image_hash_weaken.
  - by eapply lookup_weaken.
Qed.

(** ** Running the pass again

    [st] is a state of a first run that still has [l] to process, [st2] a
    state of a second run over the survivors of the first, on the storage
    the first run left behind.  The second run removes nothing. *)
Lemma rerun_keeps_everything (l : list string) :
  ∀ (st st2 : dedup_state) (ks : list string),
    survivors (dedup_loop st l) = survivors st ++ ks →
    store st2 = store (dedup_loop st l) →
    (∀ h, is_Some (hashes st2 !! h) → is_Some (hashes st !! h)) →
    store (dedup_loop st2 ks) = store st2 ∧
    duplicates_removed (dedup_loop st2 ks) = duplicates_removed st2 ∧
    survivors (dedup_loop st2 ks) = survivors st2 ++ ks.
Proof.
  induction l as [|x l IH]; intros st st2 ks Hks Hstore Hsub.
  - simpl in Hks. rewrite <- (app_nil_r (survivors st)) in Hks at 1.
    apply app_inv_head in Hks as <-. by rewrite app_nil_r.
  - rewrite dedup_loop_cons in Hks, Hstore.
    destruct (dedup_loop_survivors l (dedup_step st x)) as (ks' & Hks' & _).
    assert (store st2 ⊆ store st) as Hle.
    { rewrite Hstore. etrans; [apply dedup_loop_store_subseteq|].
      apply dedup_step_store_subseteq. }
    destruct (dedup_step_cases st x) as [(_ & _ & Hh1 & _ & Hs1)|(Hkeep & _ & Hh1 & _ & Hs1)].
    + apply (IH (dedup_step st x)); [by rewrite Hks, Hs1|done|].
      intros h. rewrite Hh1. apply Hsub.
    + rewrite Hks', Hs1, <- app_assoc in Hks. apply app_inv_head in Hks as <-.
      change ([x] ++ ks') with (x :: ks'). rewrite dedup_loop_cons.
      destruct (dedup_step_cases st2 x) as [(Hrem & _)|(_ & Hst2 & Hh2 & Hn2 & Hs2)].
      { destruct Hkeep. by eapply removes_weaken. }
      destruct (IH (dedup_step st x) (dedup_step st2 x) ks') as (-> & -> & ->).
      * by rewrite Hks', Hs1.
      * by rewrite Hst2.
      * intros h [Hin|Hx]%Hh2; apply Hh1; [left; auto|right].
        by eapply get_image_hash_weaken.
      * by rewrite Hs2, <- app_assoc.
Qed.

(** ** An artifact that cannot be fingerprinted *)

Lemma unreadable_stays (fs fs' : storage) (p : string) :
  fingerprint fs p = None → fs' ⊆ fs → get_image_hash fs' p = None.
Proof.
  intros Hnone Hsub. destruct (get_image_hash fs' p) as [h|] eqn:Hh; [|done].
  apply (get_image_hash_weaken _ _ _ _ Hsub) in Hh.
  unfold fingerprint in Hnone. congruence.
Qed.

Lemma unreadable_never_deleted (fs : storage) (p : string) (l : list string) :
  fingerprint fs p = None →
  ∀ st, store st ⊆ fs → store st !! p = fs !! p →
        store (dedup_loop st l) !! p = fs !! p.
Proof.
  intros Hnone. induction l as [|x l IH]; intros st Hsub Hp; [done|].
  rewrite dedup_loop_cons. apply IH.
  - etrans; [apply dedup_step_store_subseteq|done].
  - destruct (decide (p = x)) as [<-|Hne].
    + destruct (dedup_step_cases st p) as [((h & f & Hh & _) & _)|(_ & -> & _)]; [|done].
      rewrite (unreadable_stays fs _ p Hnone Hsub) in Hh. done.
    + by rewrite dedup_step_store_other.
Qed.

Lemma dedup_step_same_core (st st' : dedup_state) (x : string) :
  same_core st st' →
  same_core (dedup_step st x) (dedup_step st' x) ∧
  ∃ d, survivors (dedup_step st x) = survivors st ++ d ∧
       survivors (dedup_step st' x) = survivors st' ++ d.
Proof.
  destruct st as [fs1 h1 n1 s1 t1], st' as [fs2 h2 n2 s2 t2].
  intros (Hs & Hh & Hn). simpl in Hs, Hh, Hn. subst fs2 h2 n2.
  unfold dedup_step, keep, logged, same_core. simpl.
  destruct (truthy (get_image_hash fs1 x)); [|by (split; [|exists [x]])].
  destruct (get_image_hash fs1 x) as [h|]; [|by (split; [|exists [x]])].
  case_bool_decide; [|by (split; [|exists [x]])].
  destruct (os_remove fs1 x); simpl; [|by (split; [|exists [x]])].
  split; [done|]. exists []. by rewrite !app_nil_r.
Qed.

Lemma dedup_loop_same_core (l : list string) (st st' : dedup_state) :
  same_core st st' →
  same_core (dedup_loop st l) (dedup_loop st' l) ∧
  ∃ ks, survivors (dedup_loop st l) = survivors st ++ ks ∧
        survivors (dedup_loop st' l) = survivors st' ++ ks.
Proof.
  revert st st'. induction l as [|x l IH]; intros st st' Hc.
  - split; [done|]. exists []. by rewrite !app_nil_r.
  - rewrite !dedup_loop_cons.
    destruct (dedup_step_same_core st st' x Hc) as (Hc' & d & Hd & Hd').
    destruct (IH _ _ Hc') as (Hc'' & ks & Hks & Hks'). split; [done|].
    exists (d ++ ks). by rewrite Hks, Hks', Hd, Hd', <- !app_assoc.
Qed.

Lemma dedup_loop_hash_reads (l : list string) (st : dedup_state) :
  hash_reads (trace (dedup_loop st l)) = hash_reads (trace st) ++ l.
Proof.
  revert st. induction l as [|x l IH]; intros st.
  - by rewrite app_nil_r.
  - rewrite dedup_loop_cons, IH. unfold hash_reads.
    destruct (dedup_step_outcome st x); cbn [trace];
      rewrite ?omap_app; simpl; by rewrite <- ?app_assoc; simpl; rewrite ?app_nil_r.
Qed.

(** With two artifacts or more every entry is fingerprinted, once, in order. *)
Lemma remove_duplicate_screenshots_hashes_all (fs : storage) (l : list string) :
  (2 ≤ length l)%nat →
  hash_reads (trace (remove_duplicate_screenshots fs l)) = l.
Proof.
  intros Hlen. unfold remove_duplicate_screenshots.
  destruct (Nat.leb_spec (length l) 1); [lia|]. by rewrite dedup_loop_hash_reads.
Qed.

(** Two distinct files with the same bytes, the later one deletable. *)
Lemma byte_identical_pair (fs : storage) (a b : string) (fa fb : file) :
  a ≠ b →
  fs !! a = Some fa → fs !! b = Some fb →
  readable fa = true → readable fb = true → data fa = data fb →
  deletable fb = true →
  let r := remove_duplicate_screenshots fs [a; b] in
  store r = delete b fs ∧ survivors r = [a] ∧ duplicates_removed r = 1%nat.
Proof.
  intros Hab Ha Hb Hra Hrb Hdata Hdel. cbn zeta.
  unfold remove_duplicate_screenshots. simpl.
  change (dedup_loop (dedup_init fs) [a; b])
    with (dedup_step (dedup_step (dedup_init fs) a) b).
  set (st1 := dedup_step (dedup_init fs) a).
  assert (get_image_hash fs a = Some (SHA256.sha256_hex (data fa))) as Hha
    by (apply get_image_hash_Some; eauto).
  assert (get_image_hash fs b = Some (SHA256.sha256_hex (data fa))) as Hhb
    by (apply get_image_hash_Some; exists fb; by rewrite Hdata).
  destruct (dedup_step_cases (dedup_init fs) a)
    as [((h & f & _ & [? Hin] & _) & _)|(_ & Hs1 & Hh1 & Hn1 & Hv1)].
  { simpl in Hin. by rewrite lookup_empty in Hin. }
  fold st1 in Hs1, Hh1, Hn1, Hv1. simpl in Hs1, Hh1, Hn1, Hv1.
  destruct (dedup_step_cases st1 b) as [(_ & -> & _ & -> & ->)|(Hkeep & _)].
  - by rewrite Hs1, Hn1, Hv1.
  - destruct Hkeep. exists (SHA256.sha256_hex (data fa)), fb. rewrite Hs1.
    split_and!; try done. apply Hh1. by right.
Qed.

(** ** The de-duplication pass: the claims *)

(** The result of the pass in terms of the loop, for inputs without repeated
    paths. *)
Lemma first_seen_wins (fs : storage) (l : list string) :
  NoDup l →
  let r := remove_duplicate_screenshots fs l in
  sublist (survivors r) l ∧
  (∀ q, q ∉ l → store r !! q = fs !! q) ∧
  (∀ i p, l !! i = Some p →
     (repeats_earlier fs (take i l) p ∧ can_delete fs p →
        store r !! p = None ∧ p ∉ survivors r) ∧
     (¬ (repeats_earlier fs (take i l) p ∧ can_delete fs p) →
        store r !! p = fs !! p ∧ p ∈ survivors r)).
Proof.
  intros Hnd. cbn zeta.
  destruct (remove_duplicate_screenshots_loop fs l) as (-> & -> & _).
  destruct (first_seen_invariant fs l Hnd) as (Hother & _ & _ & Hdec).
  split_and!; try done.
  destruct (dedup_loop_survivors l (dedup_init fs)) as (ks & -> & Hks). done.
Qed.

(** For an input without repeated paths whose files all exist, the
    survivors are exactly the entries still on storage after the pass. *)
Lemma survivors_are_the_files_left (fs : storage) (l : list string) (p : string) :
  NoDup l → p ∈ l → is_Some (fs !! p) →
  let r := remove_duplicate_screenshots fs l in
  p ∈ survivors r ↔ is_Some (store r !! p).
Proof.
  intros Hnd Hp Hfile. cbn zeta.
  destruct (first_seen_wins fs l Hnd) as (_ & _ & Hdec).
  apply list_elem_of_lookup in Hp as (i & Hi).
  destruct (Hdec i p Hi) as [Hrem Hkeep]. split.
  - intros Hin. destruct Hkeep as [-> _]; [|done].
    intros HD. by destruct (Hrem HD).
  - intros Hfile'. apply Hkeep. intros HD. destruct (Hrem HD) as [Hnone _].
    rewrite Hnone in Hfile'. by destruct Hfile'.
Qed.

(** A sublist of a list without repetition is determined by its elements. *)
Lemma sublist_filter_eq {A : Type} (f : A → bool) (k l : list A) :
  sublist k l → NoDup l → (∀ x, x ∈ l → x ∈ k ↔ f x = true) → k = List.filter f l.
Proof.
  induction 1 as [|x k l Hsub IH|x k l Hsub IH]; intros Hnd Hiff; [done|..];
    apply NoDup_cons in Hnd as [Hx Hnd]; simpl.
  - assert (f x = true) as -> by (apply Hiff; by left).
    f_equal. apply IH; [done|]. intros y Hy. rewrite <- Hiff by (by right).
    rewrite elem_of_cons. split; [auto|]. intros [->|?]; done.
  - assert (f x = false) as ->.
    { apply not_true_is_false. intros Hfx. apply Hiff in Hfx; [|by left].
      apply Hx. by eapply elem_of_sublist. }
    apply IH; [done|]. intros y Hy. apply Hiff. by right.
Qed.

(** The artifacts kept by the pass are the listed files still on storage. *)
Lemma survivors_filter (fs : storage) (l : list string) :
  NoDup l → (∀ p, p ∈ l → is_Some (fs !! p)) →
  let r := remove_duplicate_screenshots fs l in
  survivors r = List.filter (fun p => bool_decide (is_Some (store r !! p))) l.
Proof.
  intros Hnd Hfiles. cbn zeta.
  destruct (first_seen_wins fs l Hnd) as (Hsub & _).
  apply sublist_filter_eq; [done|done|].
  intros p Hp. rewrite bool_decide_eq_true.
  by apply survivors_are_the_files_left; auto.
Qed.

(** Every removal counted is a file gone from storage. *)
Lemma dedup_step_size (st : dedup_state) (p : string) :
  (size (store (dedup_step st p)) + duplicates_removed (dedup_step st p)
   = size (store st) + duplicates_removed st)%nat.
Proof.
  destruct (dedup_step_outcome st p) as [?|?|h f ? ? Hf ?|?];
    cbn [store duplicates_removed]; try done.
  rewrite map_size_delete_Some by eauto.
  assert (size (store st) ≠ 0%nat) as Hne.
  { intros Hz%map_size_empty_inv. rewrite Hz, lookup_empty in Hf. done. }
  lia.
Qed.

Lemma dedup_loop_size (l : list string) (st : dedup_state) :
  (size (store (dedup_loop st l)) + duplicates_removed (dedup_loop st l)
   = size (store st) + duplicates_removed st)%nat.
Proof.
  revert st. induction l as [|x l IH]; intros st; [done|].
  by rewrite dedup_loop_cons, IH, dedup_step_size.
Qed.

(** C1 (amended).  For every input sequence of distinct artifacts the pass
    keeps the first artifact bearing each fingerprint, keeps every artifact
    without a fingerprint, and deletes from storage every later artifact
    whose fingerprint equals an earlier one, provided the deletion succeeds;
    an artifact whose deletion fails stays where it is and is not counted:
    the count returned is the number of files that have gone from storage,
    and with the survivors it makes up the length of the input.  Files that
    are not in the input are not touched, and the survivors are a subsequence
    of the input.  In particular, of two byte-identical images of which the
    later can be deleted, exactly the later one is removed. *)
Theorem first_occurrence_wins (fs : storage) (l : list string) :
  NoDup l →
  let r := remove_duplicate_screenshots fs l in
  sublist (survivors r) l ∧
  (∀ q, q ∉ l → store r !! q = fs !! q) ∧
  (∀ i p, l !! i = Some p →
     (repeats_earlier fs (take i l) p ∧ can_delete fs p →
        store r !! p = None ∧ p ∉ survivors r) ∧
     (¬ (repeats_earlier fs (take i l) p ∧ can_delete fs p) →
        store r !! p = fs !! p ∧ p ∈ survivors r)) ∧
  size fs = (size (store r) + duplicates_removed r)%nat ∧
  (length (survivors r) + duplicates_removed r = length l)%nat ∧
  (∀ a b fa fb,
     l = [a; b] → fs !! a = Some fa → fs !! b = Some fb →
     readable fa = true → readable fb = true → data fa = data fb →
     deletable fb = true →
     store r = delete b fs ∧ survivors r = [a] ∧ duplicates_removed r = 1%nat).
Proof.
  intros Hnd. cbn zeta.
  destruct (first_seen_wins fs l Hnd) as (Hsub & Hother & Hdec).
  split_and!; try done.
  - destruct (remove_duplicate_screenshots_loop fs l) as (-> & _ & ->).
    by rewrite dedup_loop_size.
  - destruct (remove_duplicate_screenshots_loop fs l) as (_ & -> & ->).
    rewrite dedup_loop_count. simpl. lia.
  - intros a b fa fb -> Ha Hb Hra Hrb Hdata Hdel.
    apply (byte_identical_pair fs a b fa fb); try done.
    apply NoDup_cons in Hnd as [Hab _]. intros ->. apply Hab. by left.
Qed.


(** C6.  An artifact whose fingerprint cannot be computed does not stop the
    pass: it is a survivor, its file is left as it was, and the artifacts
    around it are treated exactly as if it were not in the input (same
    removals, same storage afterwards, same survivors around it). *)
Theorem unreadable_artifact_is_kept (fs : storage) (l1 l2 : list string) (p : string) :
  fingerprint fs p = None →
  let r := remove_duplicate_screenshots fs (l1 ++ p :: l2) in
  let r' := remove_duplicate_screenshots fs (l1 ++ l2) in
  p ∈ survivors r ∧
  store r !! p = fs !! p ∧
  store r = store r' ∧
  duplicates_removed r = duplicates_removed r' ∧
  ∃ s1 s2, survivors r = s1 ++ p :: s2 ∧ survivors r' = s1 ++ s2.
Proof.
  intros Hnone. cbn zeta.
  destruct (remove_duplicate_screenshots_loop fs (l1 ++ p :: l2)) as (-> & -> & ->).
  destruct (remove_duplicate_screenshots_loop fs (l1 ++ l2)) as (-> & -> & ->).
  unfold dedup_loop. rewrite !fold_left_app. cbn [fold_left].
  fold (dedup_loop (dedup_init fs) l1). set (st := dedup_loop (dedup_init fs) l1).
  fold (dedup_loop (dedup_step st p) l2). fold (dedup_loop st l2).
  assert (store st ⊆ fs) as Hsub by apply (dedup_loop_store_subseteq l1 (dedup_init fs)).
  assert (same_core (dedup_step st p) st ∧
          survivors (dedup_step st p) = survivors st ++ [p]) as [Hcore Hsurv].
  { destruct (dedup_step_cases st p)
      as [((h & f & Hh & _) & _)|(_ & Hs & Hh & Hn & Hv)].
    - by rewrite (unreadable_stays fs _ p Hnone Hsub) in Hh.
    - split; [|done]. split_and!; try done. apply map_eq. intros h.
      apply option_eq. intros v. destruct (dedup_step_outcome st p); cbn [hashes]; try done.
      rewrite (unreadable_stays fs _ p Hnone Hsub) in *. done. }
  destruct (dedup_loop_same_core l2 _ _ Hcore) as ((Hs & _ & Hn) & ks & Hk & Hk').
  assert (survivors (dedup_loop (dedup_step st p) l2) = survivors st ++ p :: ks) as Hfull.
  { by rewrite Hk, Hsurv, <- app_assoc. }
  split_and!; try done.
  - rewrite Hfull. apply elem_of_app. right. by left.
  - rewrite Hs. apply (unreadable_never_deleted fs p l2 Hnone st Hsub).
    apply (unreadable_never_deleted fs p l1 Hnone (dedup_init fs)); done.
  - exists (survivors st), ks. by rewrite Hfull, Hk'.
Qed.

(** C7.  Running the pass on the survivors of a first run, on the storage
    that run left behind, removes nothing (and keeps the same survivors and
    storage); and on fewer than two artifacts the pass returns 0 without
    reading any file. *)
Theorem dedup_idempotent (fs : storage) (l : list string) :
  let r1 := remove_duplicate_screenshots fs l in
  let r2 := remove_duplicate_screenshots (store r1) (survivors r1) in
  (duplicates_removed r2 = 0%nat ∧ survivors r2 = survivors r1 ∧ store r2 = store r1) ∧
  ((length l < 2)%nat →
     duplicates_removed r1 = 0%nat ∧ trace r1 = [] ∧ hash_reads (trace r1) = [] ∧
     store r1 = fs ∧ survivors r1 = l).
Proof.
  cbn zeta. split.
  - destruct (remove_duplicate_screenshots_loop
                (store (remove_duplicate_screenshots fs l))
                (survivors (remove_duplicate_screenshots fs l))) as (-> & -> & ->).
    destruct (remove_duplicate_screenshots_loop fs l) as (-> & -> & _).
    destruct (dedup_loop_survivors l (dedup_init fs)) as (ks & Hks & _).
    destruct (rerun_keeps_everything l (dedup_init fs)
                (dedup_init (store (dedup_loop (dedup_init fs) l))) ks)
      as (Hs & Hn & Hv); [done|done| |].
    + simpl. intros h [? Hh]. by rewrite lookup_empty in Hh.
    + simpl in Hks. rewrite Hks. by rewrite Hs, Hn, Hv.
  - intros Hlen. unfold remove_duplicate_screenshots.
    destruct (Nat.leb_spec (length l) 1); [done|lia].
Qed.

Lemma slide_files_NoDup : NoDup slide_files.
Proof. compute_done. Qed.

(** C1 on the frames of the talk: the frame at 8 s repeats the one at 0 s
    and is deleted, the other two stay. *)
Lemma first_occurrence_wins_witness :
  NoDup slide_files ∧
  store (remove_duplicate_screenshots slides slide_files) = delete "img/talk_0008s.png"%string slides ∧
  survivors (remove_duplicate_screenshots slides slide_files)
  = ["img/talk_0000s.png"; "img/talk_0004s.png"]%string ∧
  duplicates_removed (remove_duplicate_screenshots slides slide_files) = 1%nat ∧
  sublist (survivors (remove_duplicate_screenshots slides slide_files)) slide_files ∧
  size slides = (size (store (remove_duplicate_screenshots slides slide_files))
                 + duplicates_removed (remove_duplicate_screenshots slides slide_files))%nat.
Proof.
  split; [exact slide_files_NoDup|].
  split; [vm_compute; reflexivity|]. split; [vm_compute; reflexivity|].
  split; [vm_compute; reflexivity|].
  destruct (first_occurrence_wins slides slide_files slide_files_NoDup)
    as (Hsub & _ & _ & Hsize & _).
  split; [exact Hsub|exact Hsize].
Defined.

(** C1 as first stated fails: the frame at 8 s is byte-identical to the one
    at 0 s, but its deletion fails, so it is neither removed nor counted. *)
Lemma undeletable_duplicate_stays :
  fingerprint locked_slides "img/talk_0000s.png"
  = fingerprint locked_slides "img/talk_0008s.png" ∧
  fingerprint locked_slides "img/talk_0008s.png"
  = Some "759c20c6f098cbe27caaebca41198c4fa3ea65b05a2e04fdcdcbc68256c14ac9"%string ∧
  duplicates_removed (remove_duplicate_screenshots locked_slides slide_files) = 0%nat ∧
  store (remove_duplicate_screenshots locked_slides slide_files) !! "img/talk_0008s.png"%string
  = Some (File (bytes_of "slide 1") true false) ∧
  survivors (remove_duplicate_screenshots locked_slides slide_files) = slide_files.
Proof. split_and!; vm_compute; reflexivity. Qed.



Lemma unreadable_artifact_is_kept_witness :
  fingerprint damaged_slides "img/talk_0004s.png" = None ∧
  "img/talk_0004s.png"%string
    ∈ survivors (remove_duplicate_screenshots damaged_slides slide_files) ∧
  duplicates_removed (remove_duplicate_screenshots damaged_slides slide_files) = 1%nat.
Proof.
  assert (fingerprint damaged_slides "img/talk_0004s.png" = None) as H
    by (vm_compute; reflexivity).
  split; [exact H|]. split; [|vm_compute; reflexivity].
  exact (proj1 (unreadable_artifact_is_kept damaged_slides
                  ["img/talk_0000s.png"%string] ["img/talk_0008s.png"%string]
                  "img/talk_0004s.png" H)).
Defined.

Lemma dedup_idempotent_witness :
  duplicates_removed
    (remove_duplicate_screenshots
       (store (remove_duplicate_screenshots slides slide_files))
       (survivors (remove_duplicate_screenshots slides slide_files))) = 0%nat ∧
  (length ["img/talk_0000s.png"%string] < 2)%nat ∧
  trace (remove_duplicate_screenshots slides ["img/talk_0000s.png"%string]) = [].
Proof.
  split; [exact (proj1 (proj1 (dedup_idempotent slides slide_files)))|].
  assert (length ["img/talk_0000s.png"%string] < 2)%nat as H by (simpl; lia).
  split; [exact H|].
  exact (proj1 (proj2 (proj2 (dedup_idempotent slides ["img/talk_0000s.png"%string]) H))).
Defined.

(** The frames of the talk are really de-duplicated: the first run removes
    one file and reads all three. *)
Example dedup_slides :
  duplicates_removed (remove_duplicate_screenshots slides slide_files) = 1%nat ∧
  hash_reads (trace (remove_duplicate_screenshots slides slide_files)) = slide_files.
Proof. split; vm_compute; reflexivity. Qed.

(** ** The loop condition and the size of the grid *)

(** An integer is at most a rational exactly when it is at most its floor. *)
Lemma guard_floor (t : Z) (d : Q) :
  Qle_bool (inject_Z t) d = (t <=? Qfloor d).
Proof.
  destruct (Z.leb_spec t (Qfloor d)) as [Hle|Hgt].
  - apply Qle_bool_iff. eapply Qle_trans; [|apply Qfloor_le].
    by rewrite <- Zle_Qle.
  - apply not_true_is_false. intros Hq%Qle_bool_iff.
    apply Qfloor_resp_le in Hq. rewrite Qfloor_Z in Hq. lia.
Qed.

Lemma Qfloor_div_pos (d : Q) (i : Z) :
  0 < i → Qfloor (d / inject_Z i) = Qfloor d / i.
Proof.
  intros Hi. destruct d as [n m], i as [|p|p]; try lia.
  unfold Qdiv, Qinv, Qmult, inject_Z, Qfloor. cbn [Qnum Qden].
  rewrite Z.mul_1_r, Pos2Z.inj_mul. symmetry.
  apply Z.div_div; lia.
Qed.

Lemma grid_size_floor (d : Q) (i : Z) :
  0 < i → grid_size d i = Z.to_nat (Qfloor d / i + 1).
Proof. intros Hi. unfold grid_size. by rewrite Qfloor_div_pos. Qed.

Lemma Qfloor_nonneg (d : Q) : (0 <= d)%Q → 0 ≤ Qfloor d.
Proof. intros Hd%Qfloor_resp_le. exact Hd. Qed.

Section sampling_facts.
Context {St : Type}.
Variable duration : Q.
Variable interval : Z.
Variable body : Z → St → St * option exn.

Local Abbreviation loop := (sample_loop duration interval body).
Local Abbreviation over := (run_over body).

(** For a positive interval the loop is the body run over the multiples
    of the interval up to the duration. *)
Lemma sample_loop_run (m : nat) :
  ∀ (j fuel : nat) (s : St),
    0 < interval →
    (∀ k : nat, (j ≤ k < j + m)%nat → Z.of_nat k * interval ≤ Qfloor duration) →
    Qfloor duration < Z.of_nat (j + m) * interval →
    (m < fuel)%nat →
    loop fuel (Z.of_nat j * interval) s
    = over (map (fun k => Z.of_nat k * interval) (seq j m)) s.
Proof.
  induction m as [|m IH]; intros j fuel s Hi Hin Hout Hfuel;
    destruct fuel as [|fuel]; try lia; cbn [sample_loop]; rewrite guard_floor.
  - rewrite Nat.add_0_r in Hout. destruct (Z.leb_spec (Z.of_nat j * interval) (Qfloor duration)); [lia|done].
  - destruct (Z.leb_spec (Z.of_nat j * interval) (Qfloor duration)) as [_|Hgt].
    2: { specialize (Hin j). lia. }
    cbn [seq map run_over]. destruct (body _ s) as [s' [e|]]; [done|].
    replace (Z.of_nat j * interval + interval) with (Z.of_nat (S j) * interval) by lia.
    apply IH; try done; try lia.
    intros k Hk. apply Hin. lia.
Qed.

Lemma sample_loop_multiples (fuel : nat) (s : St) :
  0 < interval → (0 <= duration)%Q →
  (grid_size duration interval < fuel)%nat →
  loop fuel 0 s = over (multiples interval (grid_size duration interval)) s.
Proof.
  intros Hi Hd Hfuel. apply Qfloor_nonneg in Hd.
  rewrite grid_size_floor in * by done.
  assert (0 ≤ Qfloor duration / interval) by (apply Z.div_pos; lia).
  assert (interval * (Qfloor duration / interval) ≤ Qfloor duration)
    by (apply Z.mul_div_le; lia).
  assert (Qfloor duration < interval * Z.succ (Qfloor duration / interval))
    by (apply Z.mul_succ_div_gt; lia).
  apply (sample_loop_run _ 0%nat); try done.
  - intros k Hk. nia.
  - nia.
Qed.

(** A negative duration: the loop is not entered. *)
Lemma sample_loop_negative (fuel : nat) (s : St) :
  (duration < 0)%Q → loop (S fuel) 0 s = (s, Exit).
Proof.
  intros Hd. cbn [sample_loop]. rewrite guard_floor.
  destruct (Z.leb_spec 0 (Qfloor duration)) as [Hle|]; [|done].
  exfalso. apply (Qlt_not_le _ _ Hd). eapply Qle_trans; [|apply Qfloor_le].
  by rewrite <- (Zle_Qle 0).
Qed.

(** An interval that does not advance: the condition never fails, so the
    loop is only ever left through an exception. *)
Lemma sample_loop_stuck (fuel : nat) :
  ∀ (t : Z) (s : St),
    interval ≤ 0 → (0 <= duration)%Q → t ≤ 0 →
    snd (loop fuel t s) ≠ Exit.
Proof.
  induction fuel as [|fuel IH]; intros t s Hi Hd Ht; cbn [sample_loop]; [done|].
  rewrite guard_floor. apply Qfloor_nonneg in Hd as Hf.
  destruct (Z.leb_spec t (Qfloor duration)); [|lia].
  destruct (body t s) as [s' [e|]]; [done|]. apply IH; try done. lia.
Qed.

Lemma run_over_app (ts1 ts2 : list Z) (s : St) :
  over (ts1 ++ ts2) s
  = match over ts1 s with
    | (s', Exit) => over ts2 s'
    | r => r
    end.
Proof.
  revert s. induction ts1 as [|t ts1 IH]; intros s; cbn [app run_over]; [done|].
  destruct (body t s) as [s' [e|]]; [done|]. apply IH.
Qed.
End sampling_facts.

(** ** The time grid *)

Lemma run_over_collect (ts acc : list Z) :
  run_over (fun t ts => (ts ++ [t], None)) ts acc = (acc ++ ts, Exit).
Proof.
  revert acc. induction ts as [|t ts IH]; intros acc; cbn [run_over].
  - by rewrite app_nil_r.
  - rewrite IH. by rewrite <- app_assoc.
Qed.

Lemma time_grid_multiples (duration : Q) (interval : Z) (fuel : nat) :
  0 < interval → (0 <= duration)%Q →
  (grid_size duration interval < fuel)%nat →
  time_grid fuel duration interval
  = Some (multiples interval (grid_size duration interval)).
Proof.
  intros Hi Hd Hfuel. unfold time_grid.
  by rewrite sample_loop_multiples, run_over_collect.
Qed.

Lemma multiples_lookup (interval : Z) (n i : nat) (t : Z) :
  multiples interval n !! i = Some t ↔ (i < n)%nat ∧ t = Z.of_nat i * interval.
Proof.
  unfold multiples. rewrite list_lookup_fmap, fmap_Some. split.
  - intros (k & [-> ?]%lookup_seq & ->). done.
  - intros [Hi ->]. exists i. split; [|done]. by apply lookup_seq.
Qed.

Lemma multiples_length (interval : Z) (n : nat) : length (multiples interval n) = n.
Proof. unfold multiples. by rewrite length_map, length_seq. Qed.

Lemma multiples_S (interval : Z) (n : nat) :
  multiples interval (S n) = multiples interval n ++ [Z.of_nat n * interval].
Proof. unfold multiples. by rewrite seq_S, map_app. Qed.

Lemma le_floor_le (t : Z) (d : Q) : t ≤ Qfloor d → (inject_Z t <= d)%Q.
Proof.
  intros Hle. apply Qle_bool_iff. rewrite guard_floor. by apply Z.leb_le.
Qed.

(** ** One capture *)

Section capture_facts.
Variable w : world.
Variables video_path output_dir title_prefix quality : string.
Variable duration : Q.

Local Abbreviation body := (capture w video_path output_dir title_prefix quality duration).
Local Abbreviation raises := (capture_exn w video_path output_dir title_prefix quality duration).
Local Abbreviation file_of := (output_file_name output_dir title_prefix quality).

Lemma capture_raises (t : Z) (st : extract_state) :
  snd (body t st) = raises t.
Proof.
  unfold capture_exn, capture.
  destruct (ffmpeg w video_path t _); [|done].
  destruct (Qeq_bool duration 0); [done|]. by destruct (format_time t).
Qed.

Lemma capture_captures (t : Z) (st : extract_state) :
  captures (fst (body t st)) = captures st ++ [t].
Proof.
  unfold capture. destruct (ffmpeg w video_path t _); [|done].
  destruct (Qeq_bool duration 0); [done|]. by destruct (format_time t).
Qed.

Lemma capture_exn_failed (t : Z) :
  ffmpeg w video_path t (file_of t) = None → raises t = Some CalledProcessError.
Proof. unfold capture_exn, capture. by intros ->. Qed.

Lemma capture_exn_None (t : Z) :
  raises t = None ↔
  is_Some (ffmpeg w video_path t (file_of t)) ∧ Qeq_bool duration 0 = false ∧
  is_Some (sum_rect (fun _ => option string) (fun _ => None) Some (format_time t)).
Proof.
  unfold capture_exn, capture.
  destruct (ffmpeg w video_path t _); [|split; [done|by intros [[? ?] _]]].
  destruct (Qeq_bool duration 0); [split; [done|by intros (_ & ? & _)]|].
  destruct (format_time t); simpl; [split; [done|by intros (_ & _ & [? ?])]|].
  split; [eauto|done].
Qed.

(** A capture that does not raise: one more frame on disk, counted and
    listed. *)
Lemma capture_ok (t : Z) (st : extract_state) :
  raises t = None →
  ∃ image, ffmpeg w video_path t (file_of t) = Some image ∧
    body t st
    = (ExtractState (<[file_of t := File image true true]> (disk st))
                    (S (screenshots_taken st)) (screenshot_files st ++ [file_of t])
                    (captures st ++ [t]), None).
Proof.
  unfold capture_exn, capture.
  destruct (ffmpeg w video_path t _) as [image|]; [|done].
  destruct (Qeq_bool duration 0); [done|]. destruct (format_time t); [done|].
  intros _. by exists image.
Qed.

(** Where a run over a list of timestamps stops: after [k] captures, all
    but possibly the last of which went through. *)
Lemma run_over_capture (ts : list Z) :
  ∀ st : extract_state,
    ∃ k : nat,
      (k ≤ length ts)%nat ∧
      captures (fst (run_over body ts st)) = captures st ++ take k ts ∧
      (∀ i t, (S i < k)%nat → ts !! i = Some t → raises t = None) ∧
      match snd (run_over body ts st) with
      | Exit => k = length ts ∧ ∀ t, t ∈ ts → raises t = None
      | Raise e => ∃ t, (0 < k)%nat ∧ ts !! (k - 1)%nat = Some t ∧ raises t = Some e
      | Fuel => False
      end.
Proof.
  induction ts as [|t ts IH]; intros st; cbn [run_over].
  - exists 0%nat. simpl. split_and!; try done; try lia.
    + by rewrite app_nil_r.
    + intros t0 Ht0. inversion Ht0.
  - pose proof (capture_raises t st) as Hr. pose proof (capture_captures t st) as Hc.
    destruct (body t st) as [st' [e|]]; cbn [fst snd] in *.
    + exists 1%nat. simpl. rewrite take_0. split_and!; try done; try lia.
      exists t. split_and!; [lia|done|done].
    + destruct (IH st') as (k & Hk & Hcap & Hpre & Hend). exists (S k).
      split_and!.
      * simpl. lia.
      * rewrite Hcap, Hc. by rewrite <- app_assoc.
      * intros [|i] t' Hi; simpl; [by intros [= <-]|]. apply Hpre. lia.
      * destruct (snd (run_over body ts st')) as [|e|]; [| |done].
        -- destruct Hend as [-> Hall]. split; [done|].
           intros t' [->|?]%elem_of_cons; auto.
        -- destruct Hend as (t' & Hk0 & Ht' & He). exists t'. split_and!; [lia| |done].
           replace (S k - 1)%nat with (S (k - 1)) by lia. done.
Qed.

Lemma run_over_capture_all (ts : list Z) :
  (∀ t, t ∈ ts → raises t = None) →
  ∀ st : extract_state,
    snd (run_over body ts st) = Exit ∧
    screenshots_taken (fst (run_over body ts st))
      = (screenshots_taken st + length ts)%nat ∧
    screenshot_files (fst (run_over body ts st))
      = screenshot_files st ++ map file_of ts ∧
    captures (fst (run_over body ts st)) = captures st ++ ts.
Proof.
  induction ts as [|t ts IH]; intros Hall st; cbn [run_over].
  - simpl. rewrite !app_nil_r. split_and!; try done; lia.
  - destruct (capture_ok t st) as (image & _ & ->); [apply Hall; by left|].
    destruct (IH (fun t' Ht' => Hall t' (list_elem_of_further _ _ _ Ht'))
                 (ExtractState (<[file_of t := File image true true]> (disk st))
                    (S (screenshots_taken st)) (screenshot_files st ++ [file_of t])
                    (captures st ++ [t]))) as (-> & -> & -> & ->).
    cbn [screenshots_taken screenshot_files captures map length].
    rewrite <- !app_assoc. split_and!; try done. lia.
Qed.
End capture_facts.

(** ** The extraction as a whole *)

Section extraction_facts.
Variable w : world.
Variable fs : storage.
Variables video_path output_dir title_prefix quality : string.

Local Abbreviation extract :=
  (fun fuel interval =>
     extract_high_quality_screenshots w fuel fs video_path output_dir interval
                                      title_prefix quality).
Local Abbreviation raises := (capture_exn w video_path output_dir title_prefix quality).
Local Abbreviation file_of := (output_file_name output_dir title_prefix quality).

(** Every capture on the grid goes through: the call returns the number of
    grid points and their files, in order. *)
Lemma extract_all (duration : Q) (interval : Z) (fuel : nat) :
  ffprobe w video_path = ProbeDuration duration →
  0 < interval → (0 <= duration)%Q →
  (∀ t, t ∈ multiples interval (grid_size duration interval) →
        raises duration t = None) →
  (grid_size duration interval < fuel)%nat →
  ∃ r, extract fuel interval = Some r ∧
       ex_count r = grid_size duration interval ∧
       ex_files r = map file_of (multiples interval (grid_size duration interval)) ∧
       ex_captures r = multiples interval (grid_size duration interval) ∧
       ex_caught r = None.
Proof.
  intros Hprobe Hi Hd Hall Hfuel. unfold extract_high_quality_screenshots.
  rewrite Hprobe, sample_loop_multiples by done.
  destruct (run_over_capture_all w video_path output_dir title_prefix quality duration
              _ Hall (ExtractState fs 0 [] [])) as (Hexit & Hn & Hfiles & Hcap).
  destruct (run_over _ _ _) as [st e]. cbn [fst snd] in *. subst e.
  eexists. split; [done|]. cbn [ex_count ex_files ex_captures ex_caught].
  rewrite Hn, Hfiles, Hcap, multiples_length. done.
Qed.

(** The captures of a run extend those made before it. *)
Lemma sample_loop_captures (duration : Q) (interval : Z) (fuel : nat) :
  ∀ (t : Z) (st : extract_state),
    ∃ l, captures (fst (sample_loop duration interval
                          (capture w video_path output_dir title_prefix quality duration)
                          fuel t st)) = captures st ++ l.
Proof.
  induction fuel as [|fuel IH]; intros t st; cbn [sample_loop].
  - exists []. by rewrite app_nil_r.
  - destruct (Qle_bool _ _); [|exists []; by rewrite app_nil_r].
    pose proof (capture_captures w video_path output_dir title_prefix quality
                  duration t st) as Hc.
    destruct (capture _ _ _ _ _ _ t st) as [st' [e|]]; cbn [fst] in *.
    + by exists [t].
    + destruct (IH (t + interval) st') as (l & ->). exists (t :: l).
      by rewrite Hc, <- app_assoc.
Qed.

(** Interval 0, every capture at 0 going through: the loop spends all the
    fuel it is given, capturing timestamp 0 once per iteration. *)
Lemma sample_loop_zero_interval (duration : Q) (fuel : nat) :
  raises duration 0 = None → (0 <= duration)%Q →
  ∀ st : extract_state,
    ∃ st', sample_loop duration 0
             (capture w video_path output_dir title_prefix quality duration)
             fuel 0 st = (st', Fuel) ∧
           captures st' = captures st ++ repeat 0 fuel ∧
           screenshots_taken st' = (screenshots_taken st + fuel)%nat.
Proof.
  intros Hok Hd. induction fuel as [|fuel IH]; intros st; cbn [sample_loop].
  - exists st. simpl. rewrite app_nil_r. split_and!; try done; lia.
  - rewrite guard_floor. apply Qfloor_nonneg in Hd as Hf.
    destruct (Z.leb_spec 0 (Qfloor duration)); [|lia].
    destruct (capture_ok w video_path output_dir title_prefix quality duration 0 st Hok)
      as (image & _ & ->).
    change (0 + 0) with 0.
    destruct (IH (ExtractState (<[file_of 0 := File image true true]> (disk st))
                    (S (screenshots_taken st)) (screenshot_files st ++ [file_of 0])
                    (captures st ++ [0]))) as (st' & -> & Hc & Hn).
    exists st'. cbn [captures screenshots_taken] in Hc, Hn.
    split_and!; [done| |lia]. rewrite Hc, <- app_assoc. done.
Qed.
End extraction_facts.

(** The captures attempted by an extraction are an initial segment of the
    grid. *)
Lemma captures_prefix_of_grid (w : world) (fs : storage)
    (video_path output_dir title_prefix quality : string)
    (duration : Q) (interval : Z) (fuel : nat) (r : extraction) :
  ffprobe w video_path = ProbeDuration duration →
  0 < interval → (0 <= duration)%Q →
  (grid_size duration interval < fuel)%nat →
  extract_high_quality_screenshots w fuel fs video_path output_dir interval
    title_prefix quality = Some r →
  ∃ k, ex_captures r = take k (multiples interval (grid_size duration interval)).
Proof.
  intros Hprobe Hi Hd Hfuel. unfold extract_high_quality_screenshots.
  rewrite Hprobe, sample_loop_multiples by done.
  destruct (run_over_capture w video_path output_dir title_prefix quality duration
              (multiples interval (grid_size duration interval))
              (ExtractState fs 0 [] [])) as (k & _ & Hcap & _).
  destruct (run_over _ _ _) as [st [|e|]]; cbn [fst captures app] in Hcap;
    intros [= <-]; by exists k.
Qed.

(** ** The range of [format_time] *)

Lemma format_time_overflow (t : Z) :
  t < -86399999913600 → format_time t = inl OverflowError.
Proof.
  intros Ht. unfold format_time. cbv zeta.
  destruct (Z.ltb_spec 999999999 (Z.abs (t / 86400))) as [_|Hle]; [done|].
  exfalso. assert (t / 86400 < -999999999); [|lia].
  apply Z.div_lt_upper_bound; lia.
Qed.

Lemma format_time_in_range (t : Z) :
  -86399999913600 ≤ t ≤ 86399999999999 → ∃ s, format_time t = inr s.
Proof.
  intros Ht. unfold format_time. cbv zeta.
  destruct (Z.ltb_spec 999999999 (Z.abs (t / 86400))) as [Hgt|_]; [|eauto].
  exfalso.
  assert (-999999999 ≤ t / 86400) by (apply Z.div_le_lower_bound; lia).
  assert (t / 86400 < 1000000000) by (apply Z.div_lt_upper_bound; lia).
  lia.
Qed.

(** ** The time grid: the claim *)

(** C4.  For every duration [D >= 0] and every interval [I > 0] the loop
    visits exactly the timestamps [0, I, 2 I, ...]: with more fuel than there
    are grid points it stops and has produced [floor (D / I) + 1] timestamps,
    strictly ascending, the first one 0 and the last one at most [D]; a
    duration of 0 gives the single timestamp 0.  These are the timestamps at
    which the extractor captures a frame when no iteration raises. *)
Theorem time_grid_correct (duration : Q) (interval : Z) :
  (0 <= duration)%Q → 0 < interval →
  ∃ ts : list Z,
    (∀ fuel, (grid_size duration interval < fuel)%nat →
             time_grid fuel duration interval = Some ts) ∧
    ts = multiples interval (Z.to_nat (Qfloor (duration / inject_Z interval) + 1)) ∧
    Z.of_nat (length ts) = Qfloor (duration / inject_Z interval) + 1 ∧
    (∀ i j a b, (i < j)%nat → ts !! i = Some a → ts !! j = Some b → a < b) ∧
    head ts = Some 0 ∧
    (∃ t, last ts = Some t ∧ (inject_Z t <= duration)%Q) ∧
    ((duration == 0)%Q → ts = [0]) ∧
    (∀ w fs video_path output_dir title_prefix quality fuel,
       ffprobe w video_path = ProbeDuration duration →
       (∀ t, t ∈ ts →
             capture_exn w video_path output_dir title_prefix quality duration t = None) →
       (grid_size duration interval < fuel)%nat →
       ∃ r, extract_high_quality_screenshots w fuel fs video_path output_dir interval
              title_prefix quality = Some r ∧
            ex_captures r = ts ∧ ex_count r = length ts).
Proof.
  intros Hd Hi. exists (multiples interval (grid_size duration interval)).
  pose proof (Qfloor_nonneg _ Hd) as Hf.
  assert (0 ≤ Qfloor duration / interval) as Hq by (apply Z.div_pos; lia).
  assert (grid_size duration interval = S (Z.to_nat (Qfloor duration / interval))) as Hn.
  { rewrite grid_size_floor by done. lia. }
  split_and!.
  - intros fuel Hfuel. by apply time_grid_multiples.
  - done.
  - rewrite multiples_length, Hn, Qfloor_div_pos by done. lia.
  - intros i j a b Hij [_ ->]%multiples_lookup [_ ->]%multiples_lookup. nia.
  - by rewrite Hn.
  - rewrite Hn, multiples_S, last_snoc. eexists. split; [done|].
    apply le_floor_le. rewrite Z2Nat.id by done.
    pose proof (Z.mul_div_le (Qfloor duration) interval Hi). lia.
  - intros Hz. rewrite Hn. replace (Qfloor duration) with 0.
    + by rewrite Z.div_0_l by lia.
    + symmetry. rewrite Hz. done.
  - intros w fs video_path output_dir title_prefix quality fuel Hprobe Hall Hfuel.
    destruct (extract_all w fs video_path output_dir title_prefix quality
                duration interval fuel Hprobe Hi Hd Hall Hfuel)
      as (r & Hr & Hcount & _ & Hcap & _).
    exists r. rewrite multiples_length. done.
Qed.

(** ** The extraction: the claims *)

(** C10.  A duration of zero: the capture at timestamp 0 is attempted and
    nothing else; the call returns count 0 and an empty list; and when that
    capture goes through, its frame is on disk and the exception caught is
    the division by zero of the progress computation.  The interval plays no
    role. *)
Theorem zero_duration_reports_nothing (w : world) (fs : storage)
    (video_path output_dir title_prefix quality : string)
    (duration : Q) (interval : Z) (fuel : nat) :
  ffprobe w video_path = ProbeDuration duration →
  (duration == 0)%Q →
  (0 < fuel)%nat →
  ∃ r, extract_high_quality_screenshots w fuel fs video_path output_dir interval
         title_prefix quality = Some r ∧
       ex_count r = 0%nat ∧ ex_files r = [] ∧ ex_captures r = [0] ∧
       ∀ image,
         ffmpeg w video_path 0 (output_file_name output_dir title_prefix quality 0)
         = Some image →
         ex_caught r = Some ZeroDivisionError ∧
         ex_disk r = <[output_file_name output_dir title_prefix quality 0
                       := File image true true]> fs.
Proof.
  intros Hprobe Hz Hfuel. unfold extract_high_quality_screenshots. rewrite Hprobe.
  destruct fuel as [|fuel]; [lia|]. cbn [sample_loop]. rewrite guard_floor.
  assert (Qfloor duration = 0) as -> by (by rewrite Hz).
  change (0 <=? 0) with true. cbv iota. unfold capture.
  assert (Qeq_bool duration 0 = true) as -> by (by apply Qeq_bool_iff).
  cbn [disk screenshots_taken screenshot_files captures].
  destruct (ffmpeg w video_path 0 _) as [image|].
  - eexists. split; [done|]. cbn. split_and!; try done. by intros ? [= <-].
  - eexists. split; [done|]. cbn. split_and!; try done.
Qed.

(** A negative interval walks the timestamp down until [format_time] can no
    longer render it: the loop is left through an exception before the fuel
    is spent. *)
Lemma sample_loop_negative_interval (w : world)
    (video_path output_dir title_prefix quality : string)
    (duration : Q) (interval : Z) (fuel : nat) :
  interval < 0 → (0 <= duration)%Q →
  ∀ (t : Z) (st : extract_state),
    t ≤ 0 → t + 86399999913600 < Z.of_nat fuel * - interval →
    ∃ st' e, sample_loop duration interval
               (capture w video_path output_dir title_prefix quality duration)
               (S fuel) t st = (st', Raise e).
Proof.
  intros Hi Hd. apply Qfloor_nonneg in Hd as Hf.
  induction fuel as [|fuel IH]; intros t st Ht Hbound; cbn [sample_loop];
    rewrite guard_floor; (destruct (Z.leb_spec t (Qfloor duration)); [|lia]);
    pose proof (capture_raises w video_path output_dir title_prefix quality duration t st) as Hr;
    destruct (capture _ _ _ _ _ _ t st) as [st' [e|]]; cbn [snd] in Hr; eauto.
  - symmetry in Hr. apply capture_exn_None in Hr as (_ & _ & [? Hfmt]).
    rewrite format_time_overflow in Hfmt by lia. done.
  - apply IH; lia.
Qed.

(** C3 (amended).  An interval of zero or less is not rejected: there is no
    validation, and no error of that kind exists.  For a duration of at
    least 0 the capture at timestamp 0 is attempted first and the loop can
    only be left through an exception, so the call never yields a frame: if
    it returns, it returns count 0 and an empty list.  It does return when
    the interval is negative (at the latest when the timestamp leaves the
    range of [timedelta]) or when the iteration at timestamp 0 raises; with
    interval 0 and an iteration at timestamp 0 that goes through it never
    returns. *)
Theorem nonpositive_interval_never_yields (w : world) (fs : storage)
    (video_path output_dir title_prefix quality : string) (interval : Z) :
  interval ≤ 0 →
  (∀ fuel,
     match extract_high_quality_screenshots w fuel fs video_path output_dir interval
             title_prefix quality with
     | None => True
     | Some r =>
         ex_count r = 0%nat ∧ ex_files r = [] ∧
         ∀ d, ffprobe w video_path = ProbeDuration d → (0 <= d)%Q →
              head (ex_captures r) = Some 0 ∧ is_Some (ex_caught r)
     end) ∧
  (interval < 0 ∨
   (∀ d, ffprobe w video_path = ProbeDuration d → (0 <= d)%Q →
         capture_exn w video_path output_dir title_prefix quality d 0 ≠ None) →
   ∃ fuel, is_Some (extract_high_quality_screenshots w fuel fs video_path output_dir
                      interval title_prefix quality)) ∧
  (interval = 0 →
   ∀ d, ffprobe w video_path = ProbeDuration d → (0 <= d)%Q →
        capture_exn w video_path output_dir title_prefix quality d 0 = None →
        ∀ fuel, extract_high_quality_screenshots w fuel fs video_path output_dir
                  interval title_prefix quality = None).
Proof.
  intros Hi. unfold extract_high_quality_screenshots. split_and!.
  - intros fuel. destruct (ffprobe w video_path) as [e|d] eqn:Hprobe.
    { split_and!; try done. }
    destruct (Qlt_le_dec d 0) as [Hneg|Hd].
    { destruct fuel as [|fuel]; [done|]. rewrite sample_loop_negative by done.
      split_and!; try done. intros d' [= <-] Hd'. by apply Qlt_not_le in Hneg. }
    pose proof (sample_loop_stuck d interval
                  (capture w video_path output_dir title_prefix quality d)
                  fuel 0 (ExtractState fs 0 [] []) Hi Hd (Z.le_refl 0)) as Hstuck.
    destruct fuel as [|fuel]; [done|]. cbn [sample_loop] in *.
    rewrite guard_floor in *. apply Qfloor_nonneg in Hd as Hf.
    destruct (Z.leb_spec 0 (Qfloor d)); [|lia].
    pose proof (capture_captures w video_path output_dir title_prefix quality d 0
                  (ExtractState fs 0 [] [])) as Hc.
    destruct (capture _ _ _ _ _ _ 0 _) as [st1 [e|]]; cbn [fst captures] in Hc.
    { split_and!; try done. intros _ _ _. cbn. by rewrite Hc. }
    destruct (sample_loop_captures w video_path output_dir title_prefix quality d
                interval fuel (0 + interval) st1) as (l & Hl).
    destruct (sample_loop _ _ _ fuel _ st1) as [st [|e|]]; cbn [fst snd] in *; try done.
    split_and!; try done. intros _ _ _. cbn. by rewrite Hl, Hc.
  - intros Hends. destruct (ffprobe w video_path) as [e|d] eqn:Hprobe; [by exists 0%nat|].
    destruct (Qlt_le_dec d 0) as [Hd|Hd].
    { exists 1%nat. by rewrite sample_loop_negative. }
    destruct Hends as [Hneg|Hraise].
    2: { exists 1%nat. cbn [sample_loop]. rewrite guard_floor.
         apply Qfloor_nonneg in Hd as Hf. destruct (Z.leb_spec 0 (Qfloor d)); [|lia].
         pose proof (capture_raises w video_path output_dir title_prefix quality d 0
                       (ExtractState fs 0 [] [])) as Hr.
         destruct (capture _ _ _ _ _ _ 0 _) as [st1 [e|]]; cbn [snd] in Hr; [done|].
         by destruct (Hraise d eq_refl Hd). }
    set (n := Z.to_nat (86399999913600 / - interval + 1)).
    exists (S n).
    destruct (sample_loop_negative_interval w video_path output_dir title_prefix quality
                d interval n Hneg Hd 0 (ExtractState fs 0 [] [])) as (st' & e & ->);
      [lia| |done].
    subst n. rewrite Z2Nat.id.
    + pose proof (Z.mul_succ_div_gt 86399999913600 (- interval)). lia.
    + assert (0 ≤ 86399999913600 / - interval) by (apply Z.div_pos; lia). lia.
  - intros -> d Hprobe Hd Hok fuel. rewrite Hprobe.
    destruct (sample_loop_zero_interval w video_path output_dir title_prefix quality
                d fuel Hok Hd (ExtractState fs 0 [] [])) as (st' & -> & _). done.
Qed.

Lemma time_grid_correct_witness :
  (0 <= 10)%Q ∧ 0 < 4 ∧
  ∃ ts, time_grid 5 10 4 = Some ts ∧ ts = [0; 4; 8] ∧ Z.of_nat (length ts) = 3.
Proof.
  assert (0 <= 10)%Q as Hd by (vm_compute; discriminate).
  assert (0 < 4) as Hi by lia.
  split; [exact Hd|]. split; [exact Hi|].
  destruct (time_grid_correct 10 4 Hd Hi) as (ts & Hrun & Hts & Hlen & _).
  exists ts. split; [apply Hrun; vm_compute; lia|]. split; [exact Hts|exact Hlen].
Defined.

(** C2 as first stated fails: the captures at 0 s and 4 s go through and
    their frames are on disk, the capture at 8 s fails, and the extraction
    reports no frame at all; the orchestrator then fails. *)
Lemma one_failed_capture_loses_all :
  is_Some (ffmpeg flaky_lecture "video.mp4" 0 "img/talk_0000s.png") ∧
  is_Some (ffmpeg flaky_lecture "video.mp4" 4 "img/talk_0004s.png") ∧
  extract_high_quality_screenshots flaky_lecture 10 ∅ "video.mp4" "img" 4 "talk" "highest"
  = Some (Extraction
            {[ "img/talk_0000s.png"%string := File (bytes_of "slide 1") true true;
               "img/talk_0004s.png"%string := File (bytes_of "slide 2") true true ]}
            0 [] [0; 4; 8] (Some CalledProcessError)) ∧
  succeeded <$> process_video flaky_lecture 10 ∅ "https://youtu.be/talk" 4 "out"
                  "highest" 600 false false false = Some false.
Proof. split_and!; try (vm_compute; eauto; fail). Qed.

Lemma zero_duration_reports_nothing_witness :
  ffprobe still "video.mp4" = ProbeDuration 0 ∧
  ∃ r, extract_high_quality_screenshots still 5 ∅ "video.mp4" "img" 4 "still" "highest"
       = Some r ∧
       ex_count r = 0%nat ∧ ex_files r = [] ∧ ex_captures r = [0] ∧
       ex_caught r = Some ZeroDivisionError ∧
       ex_disk r !! "img/still_0000s.png"%string
       = Some (File (bytes_of "the only frame") true true).
Proof.
  split; [reflexivity|].
  destruct (zero_duration_reports_nothing still ∅ "video.mp4" "img" "still" "highest"
              0 4 5) as (r & Hr & Hn & Hf & Hc & Himg).
  - reflexivity.
  - reflexivity.
  - lia.
  - exists r. destruct (Himg (bytes_of "the only frame") eq_refl) as [He Hdisk].
    split_and!; try done. rewrite Hdisk. vm_compute. reflexivity.
Defined.

Lemma nonpositive_interval_never_yields_witness :
  0 ≤ 0 ∧
  extract_high_quality_screenshots lecture 1000 ∅ "video.mp4" "img" 0 "talk" "highest"
  = None.
Proof.
  assert (0 ≤ 0) as H by lia. split; [exact H|].
  apply (proj2 (proj2 (nonpositive_interval_never_yields lecture ∅ "video.mp4" "img"
                         "talk" "highest" 0 H)) eq_refl 10%Q).
  - reflexivity.
  - vm_compute; discriminate.
  - vm_compute; reflexivity.
Defined.

(** C3 as first stated fails: with interval 0 on the ten-second talk the
    loop is entered; after three iterations the frame at timestamp 0 has
    been captured three times, nothing has been raised and the call has not
    returned. *)
Lemma zero_interval_is_not_rejected :
  sample_loop 10 0 (capture lecture "video.mp4" "img" "talk" "highest" 10) 3 0
              (ExtractState ∅ 0 [] [])
  = (ExtractState {[ "img/talk_0000s.png"%string := File (bytes_of "slide 1") true true ]}
                  3 ["img/talk_0000s.png"; "img/talk_0000s.png"; "img/talk_0000s.png"]%string
                  [0; 0; 0], Fuel) ∧
  extract_high_quality_screenshots lecture 3 ∅ "video.mp4" "img" 0 "talk" "highest" = None.
Proof. split; vm_compute; reflexivity. Qed.

(** ** File names and the order of the frames *)

Lemma string_app_assoc (a b c : string) : ((a ++ b) ++ c = a ++ (b ++ c))%string.
Proof.
  induction a as [|x a IH]; [reflexivity|].
  change (String x ((a ++ b) ++ c) = String x (a ++ (b ++ c)))%string. by rewrite IH.
Qed.

Lemma compare_app_prefix (p a b : string) :
  ((p ++ a) ?= (p ++ b))%string = (a ?= b)%string.
Proof.
  induction p as [|c p IH]; [reflexivity|].
  change ((String c (p ++ a) ?= String c (p ++ b))%string = (a ?= b)%string).
  cbn [String.compare]. unfold Ascii.compare. by rewrite N.compare_refl.
Qed.

(** All the frames of one extraction have the same name up to the
    timestamp. *)
Lemma output_file_name_shape (output_dir title_prefix quality : string) :
  ∃ pre ext : string, ∀ t,
    output_file_name output_dir title_prefix quality t
    = (pre ++ format_04d t ++ "s" ++ ext)%string.
Proof.
  assert (∀ x, is_absolute (title_prefix ++ "_" ++ x) = is_absolute (title_prefix ++ "_"))
    as Habs by (intros x; by destruct title_prefix).
  exists (os_path_join output_dir (title_prefix ++ "_")),
         (if (quality =? "highest")%string then ".png" else ".jpg")%string.
  intros t. unfold output_file_name, os_path_join.
  destruct (quality =? "highest")%string; rewrite Habs;
    destruct (is_absolute _); [|destruct (_ || _)| |destruct (_ || _)];
    by rewrite ?string_app_assoc.
Qed.

Lemma all_from_spec (P : Z → bool) (n : nat) :
  ∀ t, all_from P n t = true → ∀ k, t ≤ k < t + Z.of_nat n → P k = true.
Proof.
  induction n as [|n IH]; intros t Hall k Hk; [lia|].
  cbn [all_from] in Hall. apply andb_true_iff in Hall as [Ht Hrest].
  destruct (decide (k = t)) as [->|Hne]; [done|].
  apply (IH (t + 1)); [done|lia].
Qed.

Lemma format_04d_small_check :
  all_from (fun t => (format_04d t =? four_digits t)%string) (Z.to_nat 10000) 0 = true.
Proof. vm_compute. reflexivity. Qed.

Lemma format_04d_small (t : Z) :
  0 ≤ t < 10000 → format_04d t = four_digits t.
Proof.
  intros Ht. apply String.eqb_eq.
  apply (all_from_spec _ _ _ format_04d_small_check). lia.
Qed.

Lemma digit_compare (a b : Z) :
  0 ≤ a ≤ 9 → 0 ≤ b ≤ 9 → Ascii.compare (digit a) (digit b) = (a ?= b).
Proof.
  intros Ha Hb.
  assert (a = 0 ∨ a = 1 ∨ a = 2 ∨ a = 3 ∨ a = 4 ∨ a = 5 ∨ a = 6 ∨ a = 7 ∨ a = 8 ∨ a = 9)
    as Hca by lia.
  assert (b = 0 ∨ b = 1 ∨ b = 2 ∨ b = 3 ∨ b = 4 ∨ b = 5 ∨ b = 6 ∨ b = 7 ∨ b = 8 ∨ b = 9)
    as Hcb by lia.
  destruct_or!; subst; reflexivity.
Qed.

Lemma four_digits_compare (t1 t2 : Z) (s1 s2 : string) :
  0 ≤ t1 < 10000 → 0 ≤ t2 < 10000 → t1 < t2 →
  ((four_digits t1 ++ s1) ?= (four_digits t2 ++ s2))%string = Lt.
Proof.
  intros H1 H2 Hlt. unfold four_digits.
  cbv beta iota delta [String.append]. cbn [String.compare].
  rewrite !digit_compare by (Z.div_mod_to_equations; lia).
  destruct (Z.compare_spec (t1 / 1000) (t2 / 1000)); [|done|Z.div_mod_to_equations; lia].
  destruct (Z.compare_spec (t1 / 100 mod 10) (t2 / 100 mod 10));
    [|done|Z.div_mod_to_equations; lia].
  destruct (Z.compare_spec (t1 / 10 mod 10) (t2 / 10 mod 10));
    [|done|Z.div_mod_to_equations; lia].
  destruct (Z.compare_spec (t1 mod 10) (t2 mod 10));
    [|done|Z.div_mod_to_equations; lia].
  Z.div_mod_to_equations; lia.
Qed.

(** Below 10000 seconds the names sort like the timestamps. *)
Lemma short_video_names_in_order (output_dir title_prefix quality : string) (t1 t2 : Z) :
  0 ≤ t1 → t1 < t2 → t2 < 10000 →
  (output_file_name output_dir title_prefix quality t1
   ?= output_file_name output_dir title_prefix quality t2)%string = Lt.
Proof.
  intros H1 Hlt H2.
  destruct (output_file_name_shape output_dir title_prefix quality) as (pre & ext & Hname).
  rewrite !Hname, compare_app_prefix, !format_04d_small by lia.
  apply four_digits_compare; lia.
Qed.

(** C8, at the input where it fails.  From 10000 seconds on the timestamp
    takes five digits: the frame at 10000 s is named before the frame at
    9999 s in the order of strings, whatever the directory, the prefix and
    the quality, so [sorted] in [create_hd_pdf] puts a later frame first. *)
Theorem long_video_names_out_of_order (output_dir title_prefix quality : string) :
  (output_file_name output_dir title_prefix quality 10000
   ?= output_file_name output_dir title_prefix quality 9999)%string = Lt.
Proof.
  destruct (output_file_name_shape output_dir title_prefix quality) as (pre & ext & Hname).
  rewrite !Hname, compare_app_prefix. vm_compute. reflexivity.
Qed.

(** The pages of the document for the three-hour talk: the frame at
    19998 s comes before the frame at 9999 s. *)
Example long_talk_pages :
  image_files long_talk_frames "img"
  = ["img/talk_19998s.png"; "img/talk_9999s.png"]%string.
Proof. vm_compute. reflexivity. Qed.

(** ** File names determine their timestamp

    Reading back the digits of a name gives the timestamp, so an extraction
    never writes two frames to one file, and the list it returns has no
    repeated path. *)

Lemma digit_value (d : Z) : 0 ≤ d ≤ 9 → Z.of_nat (nat_of_ascii (digit d)) - 48 = d.
Proof.
  intros Hd.
  assert (d = 0 ∨ d = 1 ∨ d = 2 ∨ d = 3 ∨ d = 4 ∨ d = 5 ∨ d = 6 ∨ d = 7 ∨ d = 8 ∨ d = 9)
    as Hc by lia.
  destruct_or!; subst; reflexivity.
Qed.

Lemma read_decimal_digit (d : Z) (s : string) (acc : Z) :
  0 ≤ d ≤ 9 → read_decimal (String (digit d) s) acc = read_decimal s (10 * acc + d).
Proof.
  intros Hd. cbn [read_decimal]. rewrite digit_value by done.
  destruct (Z.leb_spec 0 d), (Z.leb_spec d 9); try lia. done.
Qed.

Lemma decimal_digits_app (fuel : nat) :
  ∀ (n : Z) (acc rest : string),
    (decimal_digits fuel n acc ++ rest)%string = decimal_digits fuel n (acc ++ rest).
Proof.
  induction fuel as [|fuel IH]; intros n acc rest; cbn [decimal_digits]; [done|].
  destruct (n <? 10); [done|]. by rewrite IH.
Qed.

Lemma read_decimal_digits (fuel : nat) :
  ∀ (n : Z) (acc : string),
    0 ≤ n < 10 ^ Z.of_nat fuel →
    read_decimal (decimal_digits fuel n acc) 0 = read_decimal acc n.
Proof.
  induction fuel as [|fuel IH]; intros n acc Hn; cbn [decimal_digits].
  - change (10 ^ Z.of_nat 0) with 1 in Hn. by replace n with 0 by lia.
  - rewrite Nat2Z.inj_succ, Z.pow_succ_r in Hn by lia.
    destruct (Z.ltb_spec n 10).
    + rewrite Z.mod_small, read_decimal_digit by lia. f_equal; lia.
    + rewrite IH by (Z.div_mod_to_equations; lia).
      rewrite read_decimal_digit by (Z.div_mod_to_equations; lia).
      f_equal; Z.div_mod_to_equations; lia.
Qed.

Lemma read_decimal_zeros (k : nat) (s : string) :
  read_decimal (zeros k ++ s) 0 = read_decimal s 0.
Proof. induction k as [|k IH]; [done|]. exact IH. Qed.

Lemma decimal_fuel (n : Z) : 0 ≤ n → n < 10 ^ Z.of_nat (S (Z.to_nat (Z.log2 n))).
Proof.
  intros Hn. rewrite Nat2Z.inj_succ, Z2Nat.id by apply Z.log2_nonneg.
  destruct (decide (n = 0)) as [->|Hne]; [done|].
  eapply Z.lt_le_trans; [apply Z.log2_spec; lia|].
  apply Z.pow_le_mono_l. pose proof (Z.log2_nonneg n). lia.
Qed.

(** The timestamp can be read back from [f"{t:04d}"] followed by anything
    that is not a digit. *)
Lemma read_format_04d (t : Z) (c : ascii) (rest : string) :
  0 ≤ t →
  (Z.of_nat (nat_of_ascii c) - 48 <? 0) || (9 <? Z.of_nat (nat_of_ascii c) - 48) = true →
  read_decimal (format_04d t ++ String c rest) 0 = t.
Proof.
  intros Ht Hc. unfold format_04d, zfill.
  destruct (Z.ltb_spec t 0); [lia|]. rewrite Z.abs_eq by done.
  change (("" ++ ?x)%string) with x.
  rewrite string_app_assoc, read_decimal_zeros. unfold decimal.
  rewrite decimal_digits_app, read_decimal_digits by (split; [done|by apply decimal_fuel]).
  change ("" ++ String c rest)%string with (String c rest). cbn [read_decimal].
  apply orb_true_iff in Hc as [Hc|Hc]; apply Z.ltb_lt in Hc.
  - destruct (Z.leb_spec 0 (Z.of_nat (nat_of_ascii c) - 48)); [lia|done].
  - destruct (Z.leb_spec 0 (Z.of_nat (nat_of_ascii c) - 48)),
             (Z.leb_spec (Z.of_nat (nat_of_ascii c) - 48) 9); try lia; done.
Qed.

Lemma output_file_name_inj (output_dir title_prefix quality : string) (t1 t2 : Z) :
  0 ≤ t1 → 0 ≤ t2 →
  output_file_name output_dir title_prefix quality t1
  = output_file_name output_dir title_prefix quality t2 →
  t1 = t2.
Proof.
  intros H1 H2.
  destruct (output_file_name_shape output_dir title_prefix quality) as (pre & ext & Hname).
  rewrite !Hname. intros Heq%(inj (String.app pre)).
  rewrite <- (read_format_04d t1 "s" ext), <- (read_format_04d t2 "s" ext) by done.
  change (String "s" ext) with ("s" ++ ext)%string. by rewrite Heq.
Qed.

Lemma multiples_NoDup (interval : Z) (n : nat) : 0 < interval → NoDup (multiples interval n).
Proof.
  intros Hi. apply NoDup_alt. intros i j t [_ ->]%multiples_lookup [_ Heq]%multiples_lookup.
  nia.
Qed.

(** More fuel does not change a run that ended. *)
Lemma sample_loop_more_fuel {St : Type} (duration : Q) (interval : Z)
    (body : Z → St → St * option exn) (fuel : nat) :
  ∀ (t : Z) (s : St) (fuel' : nat),
    snd (sample_loop duration interval body fuel t s) ≠ Fuel →
    (fuel ≤ fuel')%nat →
    sample_loop duration interval body fuel' t s
    = sample_loop duration interval body fuel t s.
Proof.
  induction fuel as [|fuel IH]; intros t s fuel' Hend Hle; [done|].
  destruct fuel' as [|fuel']; [lia|]. cbn [sample_loop] in *.
  destruct (Qle_bool _ _); [|done].
  destruct (body t s) as [s' [e|]]; [done|]. apply IH; [done|lia].
Qed.

(** The list an extraction returns has no repeated path. *)
Lemma extract_files_NoDup (w : world) (fuel : nat) (fs : storage)
    (video_path output_dir : string) (interval : Z) (title_prefix quality : string)
    (r : extraction) :
  extract_high_quality_screenshots w fuel fs video_path output_dir interval
    title_prefix quality = Some r →
  NoDup (ex_files r).
Proof.
  unfold extract_high_quality_screenshots.
  destruct (ffprobe w video_path) as [e|d]; [intros [= <-]; constructor|].
  set (body := capture w video_path output_dir title_prefix quality d).
  set (st0 := ExtractState fs 0 [] []).
  destruct (sample_loop d interval body fuel 0 st0) as [st [|e|]] eqn:Hrun;
    intros [= <-]; cbn [ex_files]; [|constructor].
  destruct (Qlt_le_dec d 0) as [Hneg|Hd].
  { destruct fuel as [|fuel]; [done|].
    rewrite sample_loop_negative in Hrun by done. injection Hrun as <-. constructor. }
  destruct (Z.le_gt_cases interval 0) as [Hi|Hi].
  { pose proof (sample_loop_stuck d interval body fuel 0 st0 Hi Hd (Z.le_refl 0)) as Hs.
    by rewrite Hrun in Hs. }
  assert (sample_loop d interval body (fuel `max` S (grid_size d interval)) 0 st0
          = (st, Exit)) as Hbig.
  { rewrite <- Hrun. apply sample_loop_more_fuel; [by rewrite Hrun|lia]. }
  rewrite sample_loop_multiples in Hbig by (done || lia).
  destruct (run_over_capture w video_path output_dir title_prefix quality d
              (multiples interval (grid_size d interval)) st0) as (k & _ & _ & _ & Hend).
  fold body in Hend. rewrite Hbig in Hend. destruct Hend as [_ Hall].
  destruct (run_over_capture_all w video_path output_dir title_prefix quality d
              _ Hall st0) as (_ & _ & Hfiles & _).
  fold body in Hfiles. rewrite Hbig in Hfiles. cbn [fst] in Hfiles. rewrite Hfiles.
  apply NoDup_fmap_2_strong; [|by apply multiples_NoDup].
  intros t1 t2 (i & [_ ->]%multiples_lookup)%list_elem_of_lookup
               (j & [_ ->]%multiples_lookup)%list_elem_of_lookup Heq.
  apply output_file_name_inj in Heq; [done|nia|nia].
Qed.

(** So in the pipeline the de-duplication pass always sees distinct
    artifacts, and first seen wins among the frames of an extraction. *)
Lemma first_seen_wins_in_pipeline (w : world) (fuel : nat) (fs : storage)
    (video_path output_dir : string) (interval : Z) (title_prefix quality : string)
    (ex : extraction) :
  extract_high_quality_screenshots w fuel fs video_path output_dir interval
    title_prefix quality = Some ex →
  let r := remove_duplicate_screenshots (ex_disk ex) (ex_files ex) in
  sublist (survivors r) (ex_files ex) ∧
  ∀ i p, ex_files ex !! i = Some p →
    (repeats_earlier (ex_disk ex) (take i (ex_files ex)) p ∧ can_delete (ex_disk ex) p →
       store r !! p = None ∧ p ∉ survivors r) ∧
    (¬ (repeats_earlier (ex_disk ex) (take i (ex_files ex)) p ∧ can_delete (ex_disk ex) p) →
       store r !! p = ex_disk ex !! p ∧ p ∈ survivors r).
Proof.
  intros Hex. cbn zeta.
  destruct (first_seen_wins (ex_disk ex) (ex_files ex)
              (extract_files_NoDup _ _ _ _ _ _ _ _ _ Hex)) as (Hsub & _ & Hdec).
  done.
Qed.

(** ** The orchestrator *)

(** Without a frame the run fails before de-duplication and document
    building. *)
Lemma process_video_without_frames (w : world) (fuel : nat) (fs : storage)
    (url : string) (interval : Z) (output_dir quality : string) (pdf_dpi : Z)
    (keep_video no_transcript no_pdf : bool)
    (info : video_info) (video : list byte) (transcript : bool) (ex : extraction) :
  yt_dlp_info w url = Some info →
  yt_dlp_download w url = Downloaded video transcript →
  let safe_title := sanitize_filename (title info) 100 in
  let video_path := os_path_join (temp_dir w) "video.mp4" in
  let images_dir := path_div (path_div output_dir safe_title) "images" in
  extract_high_quality_screenshots w fuel (<[video_path := File video true true]> fs)
    video_path images_dir interval safe_title quality = Some ex →
  ex_count ex = 0%nat →
  ∃ r, process_video w fuel fs url interval output_dir quality pdf_dpi
         keep_video no_transcript no_pdf = Some r ∧
       succeeded r = false ∧ stages r = [Extracting; Failed].
Proof.
  intros Hinfo Hdl safe_title video_path images_dir Hex Hcount.
  unfold process_video. rewrite Hinfo, Hdl. fold safe_title video_path images_dir.
  rewrite Hex, Hcount. simpl. eauto.
Qed.

(** C9.  Whenever the extraction produced at least one artifact, the run
    goes on through de-duplication (and document building unless disabled)
    to [Done] and returns success, whatever the document builder answers:
    its result is recorded and otherwise ignored. *)
Theorem document_failure_is_not_fatal (w : world) (fuel : nat) (fs : storage)
    (url : string) (interval : Z) (output_dir quality : string) (pdf_dpi : Z)
    (keep_video no_transcript no_pdf : bool)
    (info : video_info) (video : list byte) (transcript : bool) (ex : extraction) :
  yt_dlp_info w url = Some info →
  yt_dlp_download w url = Downloaded video transcript →
  let safe_title := sanitize_filename (title info) 100 in
  let video_path := os_path_join (temp_dir w) "video.mp4" in
  let video_dir := path_div output_dir safe_title in
  let images_dir := path_div video_dir "images" in
  extract_high_quality_screenshots w fuel (<[video_path := File video true true]> fs)
    video_path images_dir interval safe_title quality = Some ex →
  (0 < ex_count ex)%nat →
  ∃ r, process_video w fuel fs url interval output_dir quality pdf_dpi
         keep_video no_transcript no_pdf = Some r ∧
       succeeded r = true ∧
       last (stages r) = Some Done ∧
       (no_pdf = false →
          DocumentBuilding ∈ stages r ∧
          run_pdf r
          = Some (snd (create_hd_pdf w
                         (store (remove_duplicate_screenshots (ex_disk ex) (ex_files ex)))
                         images_dir (path_div video_dir (safe_title ++ "_HD.pdf"))
                         pdf_dpi))).
Proof.
  intros Hinfo Hdl safe_title video_path video_dir images_dir Hex Hcount.
  unfold process_video. rewrite Hinfo, Hdl.
  fold safe_title video_path video_dir images_dir. rewrite Hex.
  destruct (Nat.ltb_spec 0 (ex_count ex)) as [_|]; [|lia].
  destruct no_pdf.
  - eexists. split; [done|]. cbn. split_and!; done.
  - destruct (create_hd_pdf _ _ _ _ _) as [fs' b] eqn:Hpdf.
    eexists. split; [done|]. cbn. split_and!; try done.
    intros _. split; [|done]. set_solver.
Qed.

Lemma document_failure_is_not_fatal_witness :
  ∃ r, process_video lecture_without_pdf 10 ∅ "https://youtu.be/talk" 4 "out"
         "highest" 600 false false false = Some r ∧
       succeeded r = true ∧ last (stages r) = Some Done ∧
       run_pdf r = Some false.
Proof.
  destruct (document_failure_is_not_fatal lecture_without_pdf 10 ∅
              "https://youtu.be/talk" 4 "out" "highest" 600 false false false
              (VideoInfo "My Talk: part 1" 10 "someone") (bytes_of "mp4 bytes") false
              (Extraction
                 {[ "/tmp/tmpab12cd/video.mp4"%string := File (bytes_of "mp4 bytes") true true;
                    "out/My_Talk_part_1/images/My_Talk_part_1_0000s.png"%string
                      := File (bytes_of "slide 1") true true;
                    "out/My_Talk_part_1/images/My_Talk_part_1_0004s.png"%string
                      := File (bytes_of "slide 2") true true;
                    "out/My_Talk_part_1/images/My_Talk_part_1_0008s.png"%string
                      := File (bytes_of "slide 1") true true ]}
                 3 ["out/My_Talk_part_1/images/My_Talk_part_1_0000s.png";
                    "out/My_Talk_part_1/images/My_Talk_part_1_0004s.png";
                    "out/My_Talk_part_1/images/My_Talk_part_1_0008s.png"]%string
                 [0; 4; 8] None))
    as (r & Hr & Hok & Hdone & Hpdf).
  - reflexivity.
  - reflexivity.
  - vm_compute. reflexivity.
  - cbn [ex_count]. lia.
  - exists r. split; [exact Hr|]. split; [exact Hok|]. split; [exact Hdone|].
    destruct (Hpdf eq_refl) as [_ ->]. vm_compute. reflexivity.
Defined.

(** ** A failed capture, from the extractor to the orchestrator *)

(** The frames of a grid have names of their own. *)
Lemma grid_files_NoDup (output_dir title_prefix quality : string) (interval : Z) (n : nat) :
  0 < interval →
  NoDup (map (output_file_name output_dir title_prefix quality) (multiples interval n)).
Proof.
  intros Hi. apply NoDup_fmap_2_strong; [|by apply multiples_NoDup].
  intros t1 t2 (i & [_ ->]%multiples_lookup)%list_elem_of_lookup
               (j & [_ ->]%multiples_lookup)%list_elem_of_lookup Heq.
  apply output_file_name_inj in Heq; [done|nia|nia].
Qed.

(** Past the banner, the call is [process_video]. *)
Lemma process_video_with_banner_ok (w : world) (fuel : nat) (fs : storage)
    (url : string) (interval : Z) (output_dir quality : string) (pdf_dpi : Z)
    (keep_video no_transcript no_pdf : bool) (info : video_info) (banner : string) :
  yt_dlp_info w url = Some info →
  format_time (info_duration info) = inr banner →
  process_video_with_banner w fuel fs url interval output_dir quality pdf_dpi
    keep_video no_transcript no_pdf
  = inr <$> process_video w fuel fs url interval output_dir quality pdf_dpi
              keep_video no_transcript no_pdf.
Proof. unfold process_video_with_banner. by intros -> ->. Qed.

Section attempted_captures.
Variable w : world.
Variables video_path output_dir title_prefix quality : string.
Variable duration : Q.

Local Abbreviation body := (capture w video_path output_dir title_prefix quality duration).
Local Abbreviation file_of := (output_file_name output_dir title_prefix quality).

(** One iteration touches no file but its own. *)
Lemma capture_other (t : Z) (st : extract_state) (p : string) :
  p ≠ file_of t → disk (fst (body t st)) !! p = disk st !! p.
Proof.
  intros Hp. unfold capture. cbv zeta.
  destruct (ffmpeg w video_path t _); [|done].
  destruct (Qeq_bool duration 0); [cbn [fst disk]; by rewrite lookup_insert_ne|].
  destruct (format_time t); cbn [fst disk]; by rewrite lookup_insert_ne.
Qed.

(** The frame ffmpeg gives is on disk after the iteration, whether the
    iteration then raises or not. *)
Lemma capture_writes (t : Z) (st : extract_state) (image : list byte) :
  ffmpeg w video_path t (file_of t) = Some image →
  disk (fst (body t st)) !! file_of t = Some (File image true true).
Proof.
  intros Himg. unfold capture. cbv zeta. rewrite Himg.
  destruct (Qeq_bool duration 0); [cbn [fst disk]; by rewrite lookup_insert_eq|].
  destruct (format_time t); cbn [fst disk]; by rewrite lookup_insert_eq.
Qed.

(** Whatever way a run over timestamps with distinct file names ends, every
    capture attempted for which ffmpeg gave a frame has left that frame on
    disk, and no file bearing another name has changed. *)
Lemma run_over_attempted (ts : list Z) :
  NoDup (map file_of ts) →
  ∀ st : extract_state,
    ∃ k : nat,
      captures (fst (run_over body ts st)) = captures st ++ take k ts ∧
      (∀ p, p ∉ map file_of ts → disk (fst (run_over body ts st)) !! p = disk st !! p) ∧
      (∀ i t image, (i < k)%nat → ts !! i = Some t →
         ffmpeg w video_path t (file_of t) = Some image →
         disk (fst (run_over body ts st)) !! file_of t = Some (File image true true)).
Proof.
  induction ts as [|t ts IH]; intros Hnd st; cbn [run_over map].
  { exists 0%nat. cbn [fst take]. rewrite app_nil_r. split_and!; [done|done|].
    intros; lia. }
  apply NoDup_cons in Hnd as [Hfresh Hnd].
  pose proof (capture_captures w video_path output_dir title_prefix quality duration t st)
    as Hc.
  pose proof (capture_other t st) as Ho.
  pose proof (capture_writes t st) as Hw.
  destruct (body t st) as [st1 [e|]]; cbn [fst] in *.
  - exists 1%nat. split_and!.
    + by rewrite Hc.
    + intros p [Hne _]%not_elem_of_cons. by apply Ho.
    + intros [|i] t' image Hi; [|lia]. cbn. intros [= <-]. apply Hw.
  - destruct (IH Hnd st1) as (k & Hcap & Hother & Hframes). exists (S k). split_and!.
    + rewrite Hcap, Hc. cbn [take]. by rewrite <- app_assoc.
    + intros p [Hne Hp]%not_elem_of_cons. rewrite Hother by done. by apply Ho.
    + intros [|i] t' image Hi; cbn.
      * intros [= <-] Himg. rewrite Hother by done. by apply Hw.
      * intros Ht' Himg. apply (Hframes i); [lia|done|done].
Qed.
End attempted_captures.

(** A capture on the grid fails: what the extraction returns and leaves. *)
Lemma failed_capture_extraction (w : world) (fs : storage)
    (video_path output_dir title_prefix quality : string)
    (duration : Q) (interval t : Z) (fuel : nat) :
  ffprobe w video_path = ProbeDuration duration →
  0 < interval → (0 <= duration)%Q →
  t ∈ multiples interval (grid_size duration interval) →
  ffmpeg w video_path t (output_file_name output_dir title_prefix quality t) = None →
  (grid_size duration interval < fuel)%nat →
  ∃ r, extract_high_quality_screenshots w fuel fs video_path output_dir interval
         title_prefix quality = Some r ∧
       ex_count r = 0%nat ∧ ex_files r = [] ∧ is_Some (ex_caught r) ∧
       (∀ t', t' ∈ ex_captures r → t' ≤ t) ∧
       (∀ t' image, t' ∈ ex_captures r →
          ffmpeg w video_path t' (output_file_name output_dir title_prefix quality t')
          = Some image →
          ex_disk r !! output_file_name output_dir title_prefix quality t'
          = Some (File image true true)).
Proof.
  intros Hprobe Hi Hd Ht Hfail Hfuel. unfold extract_high_quality_screenshots.
  rewrite Hprobe, sample_loop_multiples by done.
  apply (capture_exn_failed w video_path output_dir title_prefix quality duration) in Hfail.
  destruct (run_over_capture w video_path output_dir title_prefix quality duration
              (multiples interval (grid_size duration interval))
              (ExtractState fs 0 [] [])) as (k & Hk & Hcap & Hpre & Hend).
  destruct (run_over_attempted w video_path output_dir title_prefix quality duration
              (multiples interval (grid_size duration interval))
              (grid_files_NoDup output_dir title_prefix quality interval _ Hi)
              (ExtractState fs 0 [] []))
    as (k' & Hcap' & _ & Hframes).
  destruct (run_over _ _ _) as [st [|e|]]; cbn [fst snd] in *.
  - destruct Hend as [_ Hall]. rewrite (Hall t Ht) in Hfail. done.
  - eexists. split; [done|]. cbn [ex_count ex_files ex_caught ex_captures ex_disk].
    split_and!; try done.
    + intros t' Ht'. rewrite Hcap in Ht'. simpl in Ht'.
      apply elem_of_take in Ht' as (i & Hi' & Hik).
      apply list_elem_of_lookup in Ht as (j & Hj).
      destruct (decide (j < i)%nat) as [Hji|Hij].
      * rewrite (Hpre j t) in Hfail; [done|lia|done].
      * apply multiples_lookup in Hi' as [_ ->]. apply multiples_lookup in Hj as [_ ->]. nia.
    + intros t' image Ht' Himg. rewrite Hcap' in Ht'. simpl in Ht'.
      apply elem_of_take in Ht' as (i & Hi' & Hik). by apply (Hframes i).
  - done.
Qed.

(** C2 (amended).  A capture that fails is not skipped: the extraction
    stops at the first iteration that raises, no later timestamp is
    attempted, and the call returns count 0 and an empty list whatever has
    been captured before; every frame ffmpeg gave before stays on disk.  So
    the extractor reports zero frames whenever a capture on the grid fails,
    not only when no frame was produced, and the orchestrator, when this is
    the extraction of its run, returns [False] from [Extracting]: there is
    no error type of its own, the zero count is the report. *)
Theorem failed_capture_aborts (w : world) (fs : storage)
    (video_path output_dir title_prefix quality : string)
    (duration : Q) (interval t : Z) (fuel : nat) :
  ffprobe w video_path = ProbeDuration duration →
  0 < interval → (0 <= duration)%Q →
  t ∈ multiples interval (grid_size duration interval) →
  ffmpeg w video_path t (output_file_name output_dir title_prefix quality t) = None →
  (grid_size duration interval < fuel)%nat →
  ∃ r, extract_high_quality_screenshots w fuel fs video_path output_dir interval
         title_prefix quality = Some r ∧
       ex_count r = 0%nat ∧ ex_files r = [] ∧ is_Some (ex_caught r) ∧
       (∀ t', t' ∈ ex_captures r → t' ≤ t) ∧
       (∀ t' image, t' ∈ ex_captures r →
          ffmpeg w video_path t' (output_file_name output_dir title_prefix quality t')
          = Some image →
          ex_disk r !! output_file_name output_dir title_prefix quality t'
          = Some (File image true true)) ∧
       (∀ (fs0 : storage) (url output_dir0 : string) (pdf_dpi : Z)
          (keep_video no_transcript no_pdf : bool)
          (info : video_info) (banner : string) (video : list byte) (transcript : bool),
          yt_dlp_info w url = Some info →
          format_time (info_duration info) = inr banner →
          yt_dlp_download w url = Downloaded video transcript →
          video_path = os_path_join (temp_dir w) "video.mp4" →
          title_prefix = sanitize_filename (title info) 100 →
          output_dir = path_div (path_div output_dir0 title_prefix) "images" →
          fs = <[video_path := File video true true]> fs0 →
          ∃ run, process_video_with_banner w fuel fs0 url interval output_dir0 quality
                   pdf_dpi keep_video no_transcript no_pdf = Some (inr run) ∧
                 succeeded run = false ∧ stages run = [Extracting; Failed]).
Proof.
  intros Hprobe Hi Hd Ht Hfail Hfuel.
  destruct (failed_capture_extraction w fs video_path output_dir title_prefix quality
              duration interval t fuel Hprobe Hi Hd Ht Hfail Hfuel)
    as (r & Hr & Hcount & Hfiles & Hcaught & Hle & Hdisk).
  exists r. split_and!; try done.
  intros fs0 url output_dir0 pdf_dpi keep_video no_transcript no_pdf info banner video
    transcript Hinfo Hbanner Hdl Hv Hp Ho Hfs. subst video_path title_prefix output_dir fs.
  rewrite (process_video_with_banner_ok w fuel fs0 url interval output_dir0 quality
             pdf_dpi keep_video no_transcript no_pdf info banner Hinfo Hbanner).
  destruct (process_video_without_frames w fuel fs0 url interval output_dir0 quality
              pdf_dpi keep_video no_transcript no_pdf info video transcript r
              Hinfo Hdl Hr Hcount) as (run & Hrun & Hfalse & Hstages).
  exists run. rewrite Hrun. done.
Qed.

(** C2 on the talk whose capture at 8 s fails, as the orchestrator runs the
    extraction: nothing is reported, the frame captured at 4 s is on disk,
    and the run fails. *)
Lemma failed_capture_aborts_witness :
  8 ∈ multiples 4 (grid_size 10 4) ∧
  ffmpeg flaky_lecture "/tmp/tmpab12cd/video.mp4" 8
    (output_file_name "out/My_Talk_part_1/images" "My_Talk_part_1" "highest" 8) = None ∧
  ∃ r, extract_high_quality_screenshots flaky_lecture 10
         (<["/tmp/tmpab12cd/video.mp4"%string := File (bytes_of "mp4 bytes") true true]> ∅)
         "/tmp/tmpab12cd/video.mp4" "out/My_Talk_part_1/images" 4
         "My_Talk_part_1" "highest" = Some r ∧
       ex_count r = 0%nat ∧ ex_files r = [] ∧ is_Some (ex_caught r) ∧
       (∀ t', t' ∈ ex_captures r → t' ≤ 8) ∧
       ex_captures r = [0; 4; 8] ∧
       ex_disk r !! "out/My_Talk_part_1/images/My_Talk_part_1_0004s.png"%string
       = Some (File (bytes_of "slide 2") true true) ∧
       ∃ run, process_video_with_banner flaky_lecture 10 ∅ "https://youtu.be/talk" 4 "out"
                "highest" 600 false false false = Some (inr run) ∧
              succeeded run = false ∧ stages run = [Extracting; Failed].
Proof.
  assert (8 ∈ multiples 4 (grid_size 10 4)) as Hin.
  { change (multiples 4 (grid_size 10 4)) with [0; 4; 8]. set_solver. }
  split; [exact Hin|]. split; [reflexivity|].
  destruct (failed_capture_aborts flaky_lecture
              (<["/tmp/tmpab12cd/video.mp4"%string := File (bytes_of "mp4 bytes") true true]> ∅)
              "/tmp/tmpab12cd/video.mp4" "out/My_Talk_part_1/images" "My_Talk_part_1"
              "highest" 10 4 8 10)
    as (r & Hr & Hcount & Hfiles & Hcaught & Hle & Hdisk & Hrun).
  - reflexivity.
  - lia.
  - vm_compute; discriminate.
  - exact Hin.
  - reflexivity.
  - vm_compute; lia.
  - assert (ex_captures r = [0; 4; 8]) as Hc.
    { revert Hr. vm_compute. intros [= <-]. reflexivity. }
    exists r. split; [exact Hr|]. split; [exact Hcount|]. split; [exact Hfiles|].
    split; [exact Hcaught|]. split; [exact Hle|]. split; [exact Hc|]. split.
    + apply (Hdisk 4 (bytes_of "slide 2")); [|reflexivity].
      rewrite Hc. apply list_elem_of_lookup. by exists 1%nat.
    + apply (Hrun ∅ "https://youtu.be/talk" "out" 600 false false false
               (VideoInfo "My Talk: part 1" 10 "someone") "0:00:10"
               (bytes_of "mp4 bytes") false).
      * reflexivity.
      * vm_compute. reflexivity.
      * reflexivity.
      * vm_compute. reflexivity.
      * vm_compute. reflexivity.
      * vm_compute. reflexivity.
      * reflexivity.
Defined.

(** ** The scenario of the specification

    Duration 10, interval 4: timestamps 0, 4 and 8; the frames at 0 and 8
    are byte-identical; two survivors, one removal, and the removed file is
    gone from storage; the run succeeds with a document. *)
Example lecture_end_to_end :
  (λ r, (succeeded r, run_removed r, run_pdf r, stages r,
         fst <$> map_to_list (run_disk r)))
    <$> process_video lecture 10 ∅ "https://youtu.be/talk" 4 "out" "highest" 600
          false false false
  = Some (true, 1%nat, Some true, [Extracting; Deduplicating; DocumentBuilding; Done],
          ["out/My_Talk_part_1/My_Talk_part_1_HD.pdf";
           "out/My_Talk_part_1/images/My_Talk_part_1_0004s.png";
           "out/My_Talk_part_1/images/My_Talk_part_1_0000s.png"]%string).
Proof. vm_compute. reflexivity. Qed.

(* ===================================================================== *)
(** * Part III: further properties of the code *)

(** ** [remove_duplicate_screenshots]: what happens to the storage *)

Lemma dedup_loop_store_other (l : list string) (st : dedup_state) (q : string) :
  q ∉ l → store (dedup_loop st l) !! q = store st !! q.
Proof.
  revert st. induction l as [|x l IH]; intros st Hq; [done|].
  apply not_elem_of_cons in Hq as [Hne Hq].
  rewrite dedup_loop_cons, IH by done. by apply dedup_step_store_other.
Qed.

(** X1. Whatever the storage and the list given, the pass only deletes: the
    storage afterwards is a part of the storage before, a file that the list
    does not name is left as it was, and the integer returned is exactly the
    number of files that have disappeared. *)
Theorem removed_count_is_files_deleted (fs : storage) (l : list string) :
  let r := remove_duplicate_screenshots fs l in
  store r ⊆ fs ∧
  (∀ q, q ∉ l → store r !! q = fs !! q) ∧
  size fs = (size (store r) + duplicates_removed r)%nat.
Proof.
  cbn zeta. destruct (remove_duplicate_screenshots_loop fs l) as (-> & _ & ->).
  split_and!.
  - apply (dedup_loop_store_subseteq l (dedup_init fs)).
  - intros q Hq. by rewrite dedup_loop_store_other.
  - by rewrite dedup_loop_size.
Qed.

(** A fingerprint once recorded stays recorded. *)
Lemma dedup_step_hashes_mono (st : dedup_state) (p h : string) :
  is_Some (hashes st !! h) → is_Some (hashes (dedup_step st p) !! h).
Proof.
  intros Hh. destruct (dedup_step_outcome st p) as [?|h' ? ?|?|?]; cbn [hashes]; try done.
  rewrite lookup_insert. by case_decide.
Qed.

Lemma dedup_loop_hashes_mono (l : list string) (st : dedup_state) (h : string) :
  is_Some (hashes st !! h) → is_Some (hashes (dedup_loop st l) !! h).
Proof.
  revert st. induction l as [|x l IH]; intros st Hh; [done|].
  rewrite dedup_loop_cons. by apply IH, dedup_step_hashes_mono.
Qed.

Lemma dedup_loop_gone (l : list string) (st : dedup_state) (p : string) :
  store st !! p = None → store (dedup_loop st l) !! p = None.
Proof.
  intros Hp. eapply lookup_weaken_None; [exact Hp|apply dedup_loop_store_subseteq].
Qed.

(** After the iteration on a readable, deletable file either the file is gone
    or its fingerprint is recorded. *)
Lemma dedup_step_gone_or_recorded (st : dedup_state) (a : string) (f : file) :
  store st !! a = Some f → readable f = true →
  store (dedup_step st a) !! a = None ∨
  is_Some (hashes (dedup_step st a) !! SHA256.sha256_hex (data f)).
Proof.
  intros Hf Hr.
  assert (get_image_hash (store st) a = Some (SHA256.sha256_hex (data f))) as Hh
    by (apply get_image_hash_Some; eauto).
  destruct (dedup_step_outcome st a) as [Hn|h Hh' ?|h f' Hh' ? ? ?|h f' Hh' Hin ? ?];
    cbn [store hashes]; rewrite Hh in *.
  - done.
  - injection Hh' as <-. right. by rewrite lookup_insert_eq.
  - left. by rewrite lookup_delete_eq.
  - injection Hh' as <-. by right.
Qed.

(** X2. The list is not checked for repeated paths.  When a path is given
    twice and its file can be read and deleted, the second occurrence is
    taken for a duplicate of the first and the file is deleted: the frame is
    lost, even when no other file had its content. *)
Theorem repeated_path_is_deleted (fs : storage) (l1 l2 l3 : list string)
    (a : string) (f : file) :
  fs !! a = Some f → readable f = true → deletable f = true →
  store (remove_duplicate_screenshots fs (l1 ++ a :: l2 ++ a :: l3)) !! a = None.
Proof.
  intros Hf Hr Hd.
  destruct (remove_duplicate_screenshots_loop fs (l1 ++ a :: l2 ++ a :: l3)) as (-> & _).
  unfold dedup_loop. rewrite fold_left_app. cbn [fold_left].
  rewrite fold_left_app. cbn [fold_left].
  fold (dedup_loop (dedup_init fs) l1). set (st1 := dedup_loop (dedup_init fs) l1).
  fold (dedup_loop (dedup_step st1 a) l2). set (st2 := dedup_loop (dedup_step st1 a) l2).
  fold (dedup_loop (dedup_step st2 a) l3).
  apply dedup_loop_gone.
  assert (store st1 ⊆ fs) as Hsub1 by apply (dedup_loop_store_subseteq l1 (dedup_init fs)).
  assert (store st2 ⊆ store (dedup_step st1 a)) as Hsub2 by apply dedup_loop_store_subseteq.
  pose proof (dedup_step_store_subseteq st1 a) as Hsub3.
  destruct (store st2 !! a) as [f2|] eqn:H2;
    [|eapply lookup_weaken_None; [exact H2|apply dedup_step_store_subseteq]].
  assert (store (dedup_step st1 a) !! a = Some f2) as H1' by (by eapply lookup_weaken).
  assert (store st1 !! a = Some f2) as H1 by (by eapply lookup_weaken).
  assert (f2 = f) as ->.
  { eapply lookup_weaken in H1; [|exact Hsub1]. congruence. }
  destruct (dedup_step_gone_or_recorded st1 a f H1 Hr) as [Hgone|Hrec]; [congruence|].
  apply (dedup_loop_hashes_mono l2) in Hrec. fold st2 in Hrec.
  destruct (dedup_step_cases st2 a) as [(_ & -> & _)|(Hno & _)];
    [by rewrite lookup_delete_eq|].
  exfalso. apply Hno. exists (SHA256.sha256_hex (data f)), f.
  split_and!; try done. apply get_image_hash_Some. eauto.
Qed.

Lemma repeated_path_is_deleted_witness :
  store (remove_duplicate_screenshots slides
           ([] ++ "img/talk_0004s.png" :: [] ++ "img/talk_0004s.png" :: []))
    !! "img/talk_0004s.png" = None.
Proof.
  apply (repeated_path_is_deleted slides [] [] [] "img/talk_0004s.png"
           (File (bytes_of "slide 2") true true)); reflexivity.
Defined.

(** ** [remove_duplicate_screenshots]: what is left afterwards

    The properties below are for a list without repeated paths in which every
    file that has a fingerprint can be deleted, which is the situation after a
    successful extraction. *)

Lemma later_twin_removed (fs : storage) (l : list string) (i j : nat) (p q h : string) :
  NoDup l →
  (∀ x, x ∈ l → is_Some (fingerprint fs x) → can_delete fs x) →
  l !! i = Some p → l !! j = Some q → (i < j)%nat →
  fingerprint fs p = Some h → fingerprint fs q = Some h →
  store (remove_duplicate_screenshots fs l) !! q = None.
Proof.
  intros Hnd Hdel Hi Hj Hij Hp Hq.
  destruct (first_seen_wins fs l Hnd) as (_ & _ & Hdec).
  destruct (Hdec j q Hj) as [Hrem _]. apply Hrem. split.
  - exists p, h. split_and!; try done. apply elem_of_take. eauto.
  - apply Hdel; [by eapply list_elem_of_lookup_2|]. rewrite Hq. eauto.
Qed.

(** X3. After the pass no two of the listed files that are still on storage
    have the same fingerprint. *)
Theorem files_left_have_distinct_fingerprints (fs : storage) (l : list string) :
  NoDup l →
  (∀ x, x ∈ l → is_Some (fingerprint fs x) → can_delete fs x) →
  let r := remove_duplicate_screenshots fs l in
  ∀ p q h, p ∈ l → q ∈ l → p ≠ q →
    get_image_hash (store r) p = Some h → get_image_hash (store r) q ≠ Some h.
Proof.
  intros Hnd Hdel r p q h Hp Hq Hne Hph Hqh.
  assert (store r ⊆ fs) as Hsub.
  { unfold r. destruct (remove_duplicate_screenshots_loop fs l) as (-> & _).
    apply (dedup_loop_store_subseteq l (dedup_init fs)). }
  pose proof (get_image_hash_weaken _ _ _ _ Hsub Hph) as Hp0.
  pose proof (get_image_hash_weaken _ _ _ _ Hsub Hqh) as Hq0.
  apply get_image_hash_Some in Hph as (fp & Hfp & _).
  apply get_image_hash_Some in Hqh as (fq & Hfq & _).
  apply list_elem_of_lookup in Hp as (i & Hi).
  apply list_elem_of_lookup in Hq as (j & Hj).
  destruct (Nat.lt_total i j) as [Hlt|[->|Hlt]].
  - pose proof (later_twin_removed fs l i j p q h Hnd Hdel Hi Hj Hlt Hp0 Hq0) as Hgone.
    fold r in Hgone. congruence.
  - congruence.
  - pose proof (later_twin_removed fs l j i q p h Hnd Hdel Hj Hi Hlt Hq0 Hp0) as Hgone.
    fold r in Hgone. congruence.
Qed.

Lemma slides_all_deletable :
  ∀ x, x ∈ slide_files → is_Some (fingerprint slides x) → can_delete slides x.
Proof.
  intros x Hx _. unfold slide_files in Hx.
  repeat (apply elem_of_cons in Hx as [->|Hx]); [..|by apply elem_of_nil in Hx];
    apply can_delete_iff; eexists; split; vm_compute; reflexivity.
Qed.

Lemma files_left_have_distinct_fingerprints_witness :
  get_image_hash (store (remove_duplicate_screenshots slides slide_files))
    "img/talk_0000s.png"
  = Some "759c20c6f098cbe27caaebca41198c4fa3ea65b05a2e04fdcdcbc68256c14ac9"%string ∧
  get_image_hash (store (remove_duplicate_screenshots slides slide_files))
    "img/talk_0004s.png"
  ≠ Some "759c20c6f098cbe27caaebca41198c4fa3ea65b05a2e04fdcdcbc68256c14ac9"%string.
Proof.
  split; [vm_compute; reflexivity|].
  apply (files_left_have_distinct_fingerprints slides slide_files
           slide_files_NoDup slides_all_deletable
           "img/talk_0000s.png" "img/talk_0004s.png").
  - compute_done.
  - compute_done.
  - compute_done.
  - vm_compute. reflexivity.
Defined.

(** The number of removals and the number of fingerprints recorded add up
    to the number of entries that have a fingerprint. *)
Lemma dedup_loop_count_hashes (fs : storage) (l : list string) :
  NoDup l →
  (∀ x, x ∈ l → is_Some (fingerprint fs x) → can_delete fs x) →
  let st := dedup_loop (dedup_init fs) l in
  (duplicates_removed st + size (hashes st) = length (omap (fingerprint fs) l))%nat.
Proof.
  induction l as [|x l IH] using rev_ind; intros Hnd Hdel; cbn zeta; [done|].
  pose proof Hnd as Hnd'. apply NoDup_app in Hnd' as (Hl & Hx & _).
  assert (x ∉ l) as Hxl by (intros Hin; apply (Hx x Hin); by left).
  assert (∀ y, y ∈ l → is_Some (fingerprint fs y) → can_delete fs y) as Hdel'.
  { intros y Hy. apply Hdel, elem_of_app. by left. }
  specialize (IH Hl Hdel'). cbn zeta in IH.
  destruct (first_seen_invariant fs l Hl) as (Hstore & _).
  rewrite dedup_loop_snoc, omap_app, length_app.
  set (st := dedup_loop (dedup_init fs) l) in *.
  assert (get_image_hash (store st) x = fingerprint fs x) as Hfx
    by (apply get_image_hash_ext; auto).
  destruct (dedup_step_outcome st x) as [Hn|h Hh Hfresh|h f Hh Hin Hf Hd|h f Hh Hin Hf Hd];
    cbn [hashes duplicates_removed]; rewrite Hfx in *; cbn [omap list_omap]; rewrite ?Hn, ?Hh;
    cbn [length].
  - lia.
  - rewrite map_size_insert_None by done. lia.
  - lia.
  - exfalso.
    assert (can_delete fs x) as (f' & Hf' & Hd')%can_delete_iff.
    { apply Hdel; [apply elem_of_app; right; by left|]. rewrite Hh. eauto. }
    rewrite <- Hstore in Hf' by done. fold st in Hf'. congruence.
Qed.

(** X4. The integer returned is the number of entries that have a fingerprint
    less the number of distinct fingerprints among them. *)
Theorem removed_count_closed_form (fs : storage) (l : list string) :
  NoDup l →
  (∀ x, x ∈ l → is_Some (fingerprint fs x) → can_delete fs x) →
  let fps := omap (fingerprint fs) l in
  (duplicates_removed (remove_duplicate_screenshots fs l)
   + size (list_to_set fps : gset string) = length fps)%nat.
Proof.
  intros Hnd Hdel. cbn zeta.
  destruct (remove_duplicate_screenshots_loop fs l) as (_ & _ & ->).
  rewrite <- (dedup_loop_count_hashes fs l Hnd Hdel). f_equal.
  destruct (first_seen_invariant fs l Hnd) as (_ & Hhashes & _).
  rewrite <- size_dom. f_equal. apply set_eq. intros h.
  rewrite elem_of_list_to_set, elem_of_dom, Hhashes, list_elem_of_omap. done.
Qed.

Lemma removed_count_closed_form_witness :
  length (omap (fingerprint slides) slide_files) = 3%nat ∧
  size (list_to_set (omap (fingerprint slides) slide_files) : gset string) = 2%nat ∧
  (duplicates_removed (remove_duplicate_screenshots slides slide_files)
   + size (list_to_set (omap (fingerprint slides) slide_files) : gset string)
   = length (omap (fingerprint slides) slide_files))%nat.
Proof.
  split; [vm_compute; reflexivity|]. split; [vm_compute; reflexivity|].
  exact (removed_count_closed_form slides slide_files slide_files_NoDup slides_all_deletable).
Defined.

(** X5. With two artifacts or more the pass reads every listed file for
    its fingerprint, each entry once and in the order of the list; this
    includes the entries it then deletes. *)
Theorem every_entry_is_fingerprinted_once (fs : storage) (l : list string) :
  (2 ≤ length l)%nat →
  hash_reads (trace (remove_duplicate_screenshots fs l)) = l.
Proof. apply remove_duplicate_screenshots_hashes_all. Qed.

Lemma every_entry_is_fingerprinted_once_witness :
  hash_reads (trace (remove_duplicate_screenshots slides slide_files)) = slide_files.
Proof. apply every_entry_is_fingerprinted_once. simpl. lia. Defined.

(** ** [extract_high_quality_screenshots]: the frames on disk *)

Section frames_on_disk.
Variable w : world.
Variables video_path output_dir title_prefix quality : string.
Variable duration : Q.

Local Abbreviation body := (capture w video_path output_dir title_prefix quality duration).
Local Abbreviation raises := (capture_exn w video_path output_dir title_prefix quality duration).
Local Abbreviation file_of := (output_file_name output_dir title_prefix quality).

(** One iteration writes at most the file of its timestamp, as a readable
    and deletable file, and keeps the count and the list in step. *)
Lemma capture_frame (t : Z) (st : extract_state) :
  let st' := fst (body t st) in
  (∀ p, p ≠ file_of t → disk st' !! p = disk st !! p) ∧
  (disk st' !! file_of t = disk st !! file_of t ∨
   ∃ image, disk st' !! file_of t = Some (File image true true)) ∧
  (screenshots_taken st = length (screenshot_files st) →
   screenshots_taken st' = length (screenshot_files st')) ∧
  (∀ p, p ∈ screenshot_files st' → p ∈ screenshot_files st ∨
        p = file_of t ∧ ∃ image, disk st' !! p = Some (File image true true)).
Proof.
  cbn zeta. unfold capture.
  destruct (ffmpeg w video_path t _) as [image|]; cbn [fst disk screenshot_files screenshots_taken].
  2: { split_and!; auto. }
  assert (∀ x : extract_state * option exn,
            x = (ExtractState (<[file_of t := File image true true]> (disk st))
                   (S (screenshots_taken st)) (screenshot_files st ++ [file_of t])
                   (captures st ++ [t]), snd x) →
            (∀ p, p ≠ file_of t → disk (fst x) !! p = disk st !! p) ∧
            (disk (fst x) !! file_of t = disk st !! file_of t ∨
             ∃ image, disk (fst x) !! file_of t = Some (File image true true)) ∧
            (screenshots_taken st = length (screenshot_files st) →
             screenshots_taken (fst x) = length (screenshot_files (fst x))) ∧
            (∀ p, p ∈ screenshot_files (fst x) → p ∈ screenshot_files st ∨
               p = file_of t ∧ ∃ image, disk (fst x) !! p = Some (File image true true)))
    as Hgen.
  { intros x ->. cbn [fst disk screenshots_taken screenshot_files]. split_and!.
    - intros p Hp. by rewrite lookup_insert_ne.
    - right. exists image. by rewrite lookup_insert_eq.
    - intros ->. rewrite length_app. simpl. lia.
    - intros p [Hp|Hp%list_elem_of_singleton]%elem_of_app; [by left|right].
      subst p. split; [done|]. exists image. by rewrite lookup_insert_eq. }
  apply Hgen. destruct (Qeq_bool duration 0); [done|]. by destruct (format_time t).
Qed.

(** What holds of the state all along the loop, whatever the interval and
    the fuel: the count is the length of the list, every listed file is on
    disk, and no file that was there at the start has gone. *)
Lemma sample_loop_frames (fs : storage) (interval : Z) (fuel : nat) :
  ∀ (t : Z) (st : extract_state),
    screenshots_taken st = length (screenshot_files st) →
    (∀ p, p ∈ screenshot_files st → ∃ image, disk st !! p = Some (File image true true)) →
    (∀ p, is_Some (fs !! p) → is_Some (disk st !! p)) →
    let st' := fst (sample_loop duration interval body fuel t st) in
    screenshots_taken st' = length (screenshot_files st') ∧
    (∀ p, p ∈ screenshot_files st' → ∃ image, disk st' !! p = Some (File image true true)) ∧
    (∀ p, is_Some (fs !! p) → is_Some (disk st' !! p)).
Proof.
  induction fuel as [|fuel IH]; intros t st Hn Hfiles Hkept; cbn zeta; cbn [sample_loop];
    [done|].
  destruct (Qle_bool _ _); [|done].
  destruct (capture_frame t st) as (Hother & Hself & Hcount & Hlist).
  assert (∀ p, (∃ image, disk st !! p = Some (File image true true)) →
               ∃ image, disk (fst (body t st)) !! p = Some (File image true true)) as Hstay.
  { intros p Hp. destruct (decide (p = file_of t)) as [->|Hne].
    - destruct Hself as [-> | ?]; done.
    - by rewrite Hother. }
  assert (∀ p, is_Some (fs !! p) → is_Some (disk (fst (body t st)) !! p)) as Hkept'.
  { intros p Hp%Hkept. destruct (decide (p = file_of t)) as [->|Hne].
    - destruct Hself as [-> | [? ->]]; [done|eauto].
    - by rewrite Hother. }
  assert (∀ p, p ∈ screenshot_files (fst (body t st)) →
               ∃ image, disk (fst (body t st)) !! p = Some (File image true true)) as Hfiles'.
  { intros p [Hp|[_ Hp]]%Hlist; [|done]. by apply Hstay, Hfiles. }
  destruct (body t st) as [st1 [e|]]; cbn [fst] in *; [auto|].
  apply IH; auto.
Qed.

(** A run over timestamps whose files are distinct and whose captures all go
    through leaves the frame of each of them on disk. *)
Lemma run_over_capture_disk (ts : list Z) :
  (∀ t, t ∈ ts → raises t = None) →
  NoDup (map file_of ts) →
  ∀ st : extract_state,
    (∀ p, p ∉ map file_of ts → disk (fst (run_over body ts st)) !! p = disk st !! p) ∧
    (∀ t, t ∈ ts →
       ∃ image, ffmpeg w video_path t (file_of t) = Some image ∧
                disk (fst (run_over body ts st)) !! file_of t = Some (File image true true)).
Proof.
  induction ts as [|t ts IH]; intros Hall Hnd st; cbn [run_over map].
  { split; [done|]. intros t Ht. inversion Ht. }
  apply NoDup_cons in Hnd as [Hfresh Hnd].
  destruct (capture_ok w video_path output_dir title_prefix quality duration t st)
    as (image & Himg & ->); [apply Hall; by left|].
  destruct (IH (fun t' Ht' => Hall t' (list_elem_of_further _ _ _ Ht')) Hnd
               (ExtractState (<[file_of t := File image true true]> (disk st))
                  (S (screenshots_taken st)) (screenshot_files st ++ [file_of t])
                  (captures st ++ [t]))) as [Hother Hthere].
  cbn [disk] in Hother. split.
  - intros p [Hne Hp]%not_elem_of_cons. rewrite Hother by done. by rewrite lookup_insert_ne.
  - intros t' [->|Ht']%elem_of_cons; [|by apply Hthere].
    exists image. split; [done|]. rewrite Hother by done. by rewrite lookup_insert_eq.
Qed.
End frames_on_disk.

(** Every capture on the grid goes through: what the call returns and what
    it leaves on disk. *)
Lemma extract_all_frames (w : world) (fs : storage)
    (video_path output_dir title_prefix quality : string)
    (duration : Q) (interval : Z) (fuel : nat) :
  ffprobe w video_path = ProbeDuration duration →
  0 < interval → (0 <= duration)%Q →
  (∀ t, t ∈ multiples interval (grid_size duration interval) →
        capture_exn w video_path output_dir title_prefix quality duration t = None) →
  (grid_size duration interval < fuel)%nat →
  let grid := multiples interval (grid_size duration interval) in
  let file_of := output_file_name output_dir title_prefix quality in
  ∃ r, extract_high_quality_screenshots w fuel fs video_path output_dir interval
         title_prefix quality = Some r ∧
       ex_count r = length grid ∧
       ex_files r = map file_of grid ∧
       (∀ t, t ∈ grid →
          ∃ image, ffmpeg w video_path t (file_of t) = Some image ∧
                   ex_disk r !! file_of t = Some (File image true true)) ∧
       (∀ p, p ∉ map file_of grid → ex_disk r !! p = fs !! p).
Proof.
  intros Hprobe Hi Hd Hall Hfuel grid file_of.
  unfold extract_high_quality_screenshots.
  rewrite Hprobe, sample_loop_multiples by done. fold grid.
  destruct (run_over_capture_all w video_path output_dir title_prefix quality duration
              grid Hall (ExtractState fs 0 [] [])) as (Hexit & Hn & Hfiles & _).
  destruct (run_over_capture_disk w video_path output_dir title_prefix quality duration
              grid Hall (grid_files_NoDup _ _ _ _ _ Hi) (ExtractState fs 0 [] []))
    as [Hother Hthere].
  destruct (run_over _ _ _) as [st e]. cbn [fst snd disk] in *. subst e.
  eexists. split; [done|]. cbn [ex_count ex_files ex_disk].
  rewrite Hn, Hfiles. done.
Qed.

(** X6. When every capture on the grid goes through, the call returns the
    number of grid points and their file names in the order of the grid, and
    afterwards the file named for each grid point holds the frame captured
    there; every other file is as it was before the call. *)
Theorem extraction_leaves_each_frame_on_disk (w : world) (fs : storage)
    (video_path output_dir title_prefix quality : string)
    (duration : Q) (interval : Z) (fuel : nat) :
  ffprobe w video_path = ProbeDuration duration →
  0 < interval → (0 <= duration)%Q →
  (∀ t, t ∈ multiples interval (grid_size duration interval) →
        capture_exn w video_path output_dir title_prefix quality duration t = None) →
  (grid_size duration interval < fuel)%nat →
  let grid := multiples interval (grid_size duration interval) in
  let file_of := output_file_name output_dir title_prefix quality in
  ∃ r, extract_high_quality_screenshots w fuel fs video_path output_dir interval
         title_prefix quality = Some r ∧
       ex_count r = length grid ∧
       ex_files r = map file_of grid ∧
       (∀ t, t ∈ grid →
          ∃ image, ffmpeg w video_path t (file_of t) = Some image ∧
                   ex_disk r !! file_of t = Some (File image true true)) ∧
       (∀ p, p ∉ map file_of grid → ex_disk r !! p = fs !! p).
Proof. apply extract_all_frames. Qed.

Lemma extraction_leaves_each_frame_on_disk_witness :
  ∃ r, extract_high_quality_screenshots lecture 10 ∅ "video.mp4" "img" 4 "talk" "highest"
       = Some r ∧
       ex_count r = 3%nat ∧
       ex_files r = ["img/talk_0000s.png"; "img/talk_0004s.png"; "img/talk_0008s.png"]%string ∧
       ex_disk r !! "img/talk_0004s.png"%string = Some (File (bytes_of "slide 2") true true).
Proof.
  destruct (extraction_leaves_each_frame_on_disk lecture ∅ "video.mp4" "img" "talk"
              "highest" 10 4 10) as (r & Hr & Hn & Hf & Hdisk & _).
  - reflexivity.
  - lia.
  - vm_compute; discriminate.
  - change (multiples 4 (grid_size 10 4)) with [0; 4; 8].
    intros t Ht. repeat (apply elem_of_cons in Ht as [->|Ht]); [..|by apply elem_of_nil in Ht];
      vm_compute; reflexivity.
  - vm_compute; lia.
  - exists r. split; [exact Hr|]. split; [exact Hn|]. split; [exact Hf|].
    destruct (Hdisk 4) as (image & Himg & Hfile).
    + change (multiples 4 (grid_size 10 4)) with [0; 4; 8]. set_solver.
    + injection Himg as <-. exact Hfile.
Defined.

Lemma extract_result_facts (w : world) (fuel : nat) (fs : storage)
    (video_path output_dir : string) (interval : Z) (title_prefix quality : string)
    (r : extraction) :
  extract_high_quality_screenshots w fuel fs video_path output_dir interval
    title_prefix quality = Some r →
  ex_count r = length (ex_files r) ∧
  NoDup (ex_files r) ∧
  (∀ p, p ∈ ex_files r → ∃ image, ex_disk r !! p = Some (File image true true)) ∧
  (∀ p, is_Some (fs !! p) → is_Some (ex_disk r !! p)).
Proof.
  intros Hr. split; [|split; [by eapply extract_files_NoDup|]];
    revert Hr; unfold extract_high_quality_screenshots;
    (destruct (ffprobe w video_path) as [e|d];
     [intros [= <-]; cbn; (done || (split; [by intros ? ?%elem_of_nil|done]))|]);
    destruct (sample_loop_frames w video_path output_dir title_prefix quality d fs interval
                fuel 0 (ExtractState fs 0 [] [])) as (Hn & Hfiles & Hkept);
    try done; try (by intros ? ?%elem_of_nil);
    destruct (sample_loop _ _ _ _ _ _) as [st [|e|]]; cbn [fst] in *;
    intros [= <-]; cbn [ex_count ex_files ex_disk]; try done;
    split; try done; by intros ? ?%elem_of_nil.
Qed.

(** X7. Whatever the tools answer and whatever the interval, a call that
    returns gives back a count equal to the length of its list and a list
    without repeated paths; and no file that was on disk before the call has
    gone. *)
Theorem extraction_result_is_consistent (w : world) (fuel : nat) (fs : storage)
    (video_path output_dir : string) (interval : Z) (title_prefix quality : string)
    (r : extraction) :
  extract_high_quality_screenshots w fuel fs video_path output_dir interval
    title_prefix quality = Some r →
  ex_count r = length (ex_files r) ∧
  NoDup (ex_files r) ∧
  (∀ p, is_Some (fs !! p) → is_Some (ex_disk r !! p)).
Proof.
  intros Hr. destruct (extract_result_facts _ _ _ _ _ _ _ _ _ Hr) as (Hn & Hnd & _ & Hkept).
  done.
Qed.

(** The talk, extracted next to a file of notes: three frames are listed,
    each once, and the notes are still there. *)
Lemma extraction_result_is_consistent_witness :
  ∃ r, extract_high_quality_screenshots lecture 10
         {[ "notes.txt"%string := File (bytes_of "my notes") true true ]}
         "video.mp4" "img" 4 "talk" "highest" = Some r ∧
       ex_files r = slide_files ∧ ex_count r = 3%nat ∧ NoDup (ex_files r) ∧
       is_Some (ex_disk r !! "notes.txt"%string).
Proof.
  assert (∃ r, extract_high_quality_screenshots lecture 10
                 {[ "notes.txt"%string := File (bytes_of "my notes") true true ]}
                 "video.mp4" "img" 4 "talk" "highest" = Some r ∧
               ex_files r = slide_files) as (r & Hr & Hfiles).
  { eexists. split; [vm_compute; reflexivity|reflexivity]. }
  destruct (extraction_result_is_consistent lecture 10
              {[ "notes.txt"%string := File (bytes_of "my notes") true true ]}
              "video.mp4" "img" 4 "talk" "highest" r Hr) as (Hn & Hnd & Hkept).
  exists r. split; [exact Hr|]. split; [exact Hfiles|]. split.
  - rewrite Hn, Hfiles. reflexivity.
  - split; [exact Hnd|]. apply Hkept. vm_compute. eauto.
Defined.

Lemma take_multiples (interval : Z) (j n : nat) :
  (j ≤ n)%nat → take j (multiples interval n) = multiples interval j.
Proof.
  intros Hj. unfold multiples.
  change (map ?f ?l) with (f <$> l). rewrite <- fmap_take, take_seq.
  by rewrite Nat.min_l.
Qed.

(** X8. The frames captured before a failure are not cleaned up.  When the
    capture at the [j]-th grid point is the first to raise, the tool has been
    run at the grid points up to that one and at no other, the call returns
    count 0 and an empty list, and the frames of the [j] grid points before
    it are on disk all the same. *)
Theorem frames_before_a_failure_stay_on_disk (w : world) (fs : storage)
    (video_path output_dir title_prefix quality : string)
    (duration : Q) (interval : Z) (fuel j : nat) (e : exn) :
  ffprobe w video_path = ProbeDuration duration →
  0 < interval → (0 <= duration)%Q →
  (j < grid_size duration interval)%nat →
  capture_exn w video_path output_dir title_prefix quality duration
    (Z.of_nat j * interval) = Some e →
  (∀ i, (i < j)%nat →
        capture_exn w video_path output_dir title_prefix quality duration
          (Z.of_nat i * interval) = None) →
  (grid_size duration interval < fuel)%nat →
  let file_of := output_file_name output_dir title_prefix quality in
  ∃ r, extract_high_quality_screenshots w fuel fs video_path output_dir interval
         title_prefix quality = Some r ∧
       ex_count r = 0%nat ∧ ex_files r = [] ∧ ex_caught r = Some e ∧
       ex_captures r = multiples interval (S j) ∧
       ∀ i, (i < j)%nat →
         ∃ image, ffmpeg w video_path (Z.of_nat i * interval)
                    (file_of (Z.of_nat i * interval)) = Some image ∧
                  ex_disk r !! file_of (Z.of_nat i * interval)
                  = Some (File image true true).
Proof.
  intros Hprobe Hi Hd Hj He Hbefore Hfuel file_of.
  unfold extract_high_quality_screenshots.
  rewrite Hprobe, sample_loop_multiples by done.
  set (n := grid_size duration interval) in *.
  assert (multiples interval n !! j = Some (Z.of_nat j * interval)) as Hat
    by (by apply multiples_lookup).
  rewrite <- (take_drop_middle _ _ _ Hat), take_multiples, run_over_app by lia.
  assert (∀ t, t ∈ multiples interval j →
               capture_exn w video_path output_dir title_prefix quality duration t = None)
    as Hall.
  { intros t (i & [Hij ->]%multiples_lookup)%list_elem_of_lookup. by apply Hbefore. }
  destruct (run_over_capture_all w video_path output_dir title_prefix quality duration
              _ Hall (ExtractState fs 0 [] [])) as (Hexit & _ & _ & Hcap).
  destruct (run_over_capture_disk w video_path output_dir title_prefix quality duration
              _ Hall (grid_files_NoDup _ _ _ _ _ Hi) (ExtractState fs 0 [] []))
    as [_ Hthere].
  destruct (run_over _ (multiples interval j) _) as [st1 end1]. cbn [fst snd] in *.
  subst end1. cbn [run_over captures app] in *.
  pose proof (capture_raises w video_path output_dir title_prefix quality duration
                (Z.of_nat j * interval) st1) as Hr.
  pose proof (capture_captures w video_path output_dir title_prefix quality duration
                (Z.of_nat j * interval) st1) as Hc.
  destruct (capture_frame w video_path output_dir title_prefix quality duration
              (Z.of_nat j * interval) st1) as (Hother & _).
  destruct (capture _ _ _ _ _ _ _ st1) as [st2 [e'|]]; cbn [fst snd] in *;
    rewrite He in Hr; [|done].
  injection Hr as ->. eexists. split; [done|]. cbn [ex_count ex_files ex_caught ex_captures ex_disk].
  split_and!; try done.
  - by rewrite Hc, Hcap, multiples_S.
  - intros i Hij. destruct (Hthere (Z.of_nat i * interval)) as (image & Himg & Hfile).
    { apply list_elem_of_lookup. exists i. by apply multiples_lookup. }
    exists image. split; [done|]. rewrite Hother; [done|].
    intros Heq. apply output_file_name_inj in Heq; nia.
Qed.

Lemma frames_before_a_failure_stay_on_disk_witness :
  ∃ r, extract_high_quality_screenshots flaky_lecture 10 ∅ "video.mp4" "img" 4 "talk"
         "highest" = Some r ∧
       ex_count r = 0%nat ∧ ex_files r = [] ∧ ex_captures r = [0; 4; 8] ∧
       ex_disk r !! "img/talk_0004s.png"%string = Some (File (bytes_of "slide 2") true true).
Proof.
  destruct (frames_before_a_failure_stay_on_disk flaky_lecture ∅ "video.mp4" "img" "talk"
              "highest" 10 4 10 2 CalledProcessError)
    as (r & Hr & Hn & Hf & _ & Hc & Hdisk).
  - reflexivity.
  - lia.
  - vm_compute; discriminate.
  - vm_compute; lia.
  - vm_compute; reflexivity.
  - intros [|[|i]] Hi; [vm_compute; reflexivity..|lia].
  - vm_compute; lia.
  - exists r. split; [exact Hr|]. split; [exact Hn|]. split; [exact Hf|].
    split; [exact Hc|].
    destruct (Hdisk 1%nat) as (image & Himg & Hfile); [lia|].
    injection Himg as <-. exact Hfile.
Defined.

(** ** [format_time] and the file names *)

Lemma format_time_overflow_above (t : Z) :
  86399999999999 < t → format_time t = inl OverflowError.
Proof.
  intros Ht. unfold format_time. cbv zeta.
  destruct (Z.ltb_spec 999999999 (Z.abs (t / 86400))) as [_|Hle]; [done|].
  exfalso. assert (1000000000 ≤ t / 86400); [|lia].
  apply Z.div_le_lower_bound; lia.
Qed.

(** X9. [format_time] raises exactly when the number of seconds is below
    -86399999913600 or above 86399999999999, and then it raises
    [OverflowError]; in between it returns a string. *)
Theorem format_time_raises_iff (t : Z) :
  (format_time t = inl OverflowError ↔ t < -86399999913600 ∨ 86399999999999 < t) ∧
  (∀ e, format_time t = inl e → e = OverflowError) ∧
  ((∃ s, format_time t = inr s) ↔ -86399999913600 ≤ t ≤ 86399999999999).
Proof.
  destruct (Z.lt_ge_cases t (-86399999913600)) as [Hlo|Hlo];
    [|destruct (Z.lt_ge_cases 86399999999999 t) as [Hhi|Hhi]].
  - rewrite format_time_overflow by done. split_and!.
    + split; auto.
    + by intros e [= <-].
    + split; [by intros [s ?]|lia].
  - rewrite format_time_overflow_above by done. split_and!.
    + split; auto.
    + by intros e [= <-].
    + split; [by intros [s ?]|lia].
  - destruct (format_time_in_range t) as [s ->]; [lia|]. split_and!.
    + split; [done|lia].
    + done.
    + split; [lia|eauto].
Qed.

(** X10. Two different timestamps, neither negative, never share a file
    name: no frame of an extraction overwrites another. *)
Theorem distinct_timestamps_get_distinct_files (output_dir title_prefix quality : string)
    (t1 t2 : Z) :
  0 ≤ t1 → 0 ≤ t2 → t1 ≠ t2 →
  output_file_name output_dir title_prefix quality t1
  ≠ output_file_name output_dir title_prefix quality t2.
Proof.
  intros H1 H2 Hne Heq. apply Hne. by eapply output_file_name_inj.
Qed.

Lemma distinct_timestamps_get_distinct_files_witness :
  output_file_name "img" "talk" "highest" 9999 ≠ output_file_name "img" "talk" "highest" 10000.
Proof. apply distinct_timestamps_get_distinct_files; lia. Defined.

(** ** [sanitize_filename] *)

Lemma lstrip_suffix (cs l : list ascii) : ∃ k, l = k ++ lstrip cs l.
Proof.
  induction l as [|c l [k IH]]; cbn [lstrip]; [by exists []|].
  destruct (mem_ascii c cs); [|by exists []].
  exists (c :: k). simpl. by rewrite <- IH.
Qed.

Lemma lstrip_head (cs l : list ascii) (c : ascii) :
  head (lstrip cs l) = Some c → mem_ascii c cs = false.
Proof.
  induction l as [|a l IH]; cbn [lstrip]; [done|].
  destruct (mem_ascii a cs) eqn:Ha; [done|]. by intros [= <-].
Qed.

Lemma lstrip_id (cs l : list ascii) :
  (∀ c, head l = Some c → mem_ascii c cs = false) → lstrip cs l = l.
Proof.
  destruct l as [|a l]; [done|]. intros H. cbn [lstrip]. by rewrite (H a).
Qed.

Lemma head_rev {A : Type} (l : list A) : head (rev l) = last l.
Proof. rewrite rev_alt. apply (head_reverse l). Qed.

(** [strip] keeps a middle part of the string that neither starts nor ends
    with a stripped character. *)
Lemma strip_middle (cs l : list ascii) :
  (∃ k1 k2, l = k1 ++ strip cs l ++ k2) ∧
  (∀ c, head (strip cs l) = Some c → mem_ascii c cs = false) ∧
  (∀ c, last (strip cs l) = Some c → mem_ascii c cs = false).
Proof.
  unfold strip. destruct (lstrip_suffix cs l) as [k1 H1].
  destruct (lstrip_suffix cs (rev (lstrip cs l))) as [k2 H2].
  assert (lstrip cs l = rev (lstrip cs (rev (lstrip cs l))) ++ rev k2) as Hm.
  { rewrite <- rev_app_distr, <- H2. by rewrite rev_involutive. }
  split_and!.
  - exists k1, (rev k2). by rewrite <- Hm.
  - intros c Hc. apply (lstrip_head cs l). rewrite Hm.
    destruct (rev (lstrip cs (rev (lstrip cs l)))); [done|]. done.
  - intros c Hc. apply (lstrip_head cs (rev (lstrip cs l))).
    rewrite <- (rev_involutive (lstrip cs (rev (lstrip cs l)))).
    by rewrite head_rev.
Qed.

Lemma strip_id (cs l : list ascii) :
  (∀ c, head l = Some c → mem_ascii c cs = false) →
  (∀ c, last l = Some c → mem_ascii c cs = false) →
  strip cs l = l.
Proof.
  intros Hh Hl. unfold strip. rewrite (lstrip_id cs l Hh).
  rewrite lstrip_id; [apply rev_involutive|].
  intros c Hc. apply Hl. by rewrite head_rev in Hc.
Qed.

Lemma mem_ascii_true (c : ascii) (cs : list ascii) : mem_ascii c cs = true ↔ c ∈ cs.
Proof.
  unfold mem_ascii. rewrite existsb_exists. split.
  - intros (x & Hx & ->%Ascii.eqb_eq). by apply list_elem_of_In.
  - intros Hc. exists c. split; [by apply list_elem_of_In|apply Ascii.eqb_refl].
Qed.

(** The four stages of [sanitize_filename] on lists of characters. *)
Lemma sanitize_filename_stages (filename : string) (max_length : nat) :
  ∃ l1 l2 l3 : list ascii,
    l1 = List.filter (fun c => negb (mem_ascii c invalid_chars)) (list_ascii_of_string filename) ∧
    l2 = strip ["."; " "]%char l1 ∧
    l3 = map (fun c => if Ascii.eqb c " " then "_"%char else c) l2 ∧
    list_ascii_of_string (sanitize_filename filename max_length)
    = (if (max_length <? length l3)%nat then firstn max_length l3 else l3) ∧
    (∀ c, c ∈ l3 → mem_ascii c invalid_chars = false ∧ c ≠ " "%char) ∧
    (∀ c, head l3 = Some c → c ≠ "."%char) ∧
    (∀ c, last l3 = Some c → c ≠ "."%char).
Proof.
  eexists _, _, _. split; [reflexivity|]. split; [reflexivity|]. split; [reflexivity|].
  set (l1 := List.filter _ _). set (l2 := strip _ l1). set (l3 := map _ l2).
  split; [unfold sanitize_filename; by rewrite list_ascii_of_string_of_list_ascii|].
  destruct (strip_middle ["."; " "]%char l1) as ((k1 & k2 & Hmid) & Hhead & Hlast).
  fold l2 in Hmid, Hhead, Hlast.
  assert (∀ c, c ∈ l2 → mem_ascii c invalid_chars = false) as Hvalid.
  { intros c Hc. assert (c ∈ l1) as Hc1.
    { rewrite Hmid, !elem_of_app. auto. }
    apply list_elem_of_In, filter_In in Hc1 as [_ Hc1]. by apply negb_true_iff. }
  split_and!.
  - intros c (a & -> & Ha)%list_elem_of_fmap.
    destruct (Ascii.eqb_spec a " ") as [->|Hne]; [done|]. auto.
  - intros c Hc. unfold l3 in Hc. destruct l2 as [|a l2']; [done|].
    injection Hc as <-. specialize (Hhead a eq_refl).
    destruct (Ascii.eqb_spec a " ") as [->|_]; [done|].
    intros ->. done.
  - intros c Hc. unfold l3 in Hc.
    change (map ?f l2) with (f <$> l2) in Hc. rewrite fmap_last in Hc.
    destruct (last l2) as [a|] eqn:Ha; [|done]. injection Hc as <-.
    specialize (Hlast a eq_refl).
    destruct (Ascii.eqb_spec a " ") as [->|_]; [done|].
    intros ->. done.
Qed.

(** X11. The name [sanitize_filename] returns has at most [max_length]
    characters, none of which is a space or one of the nine characters it
    removes, and it does not start with a dot. *)
Theorem sanitize_filename_is_safe (filename : string) (max_length : nat) :
  let s := list_ascii_of_string (sanitize_filename filename max_length) in
  (length s ≤ max_length)%nat ∧
  (∀ c, c ∈ s → (c ∉ invalid_chars) ∧ c ≠ " "%char) ∧
  head s ≠ Some "."%char.
Proof.
  cbn zeta.
  destruct (sanitize_filename_stages filename max_length)
    as (l1 & l2 & l3 & _ & _ & _ & -> & Hchars & Hhead & _).
  assert (∀ c, c ∈ l3 → (c ∉ invalid_chars) ∧ c ≠ " "%char) as Hchars'.
  { intros c [Hv Hs]%Hchars. split; [|done]. rewrite <- mem_ascii_true. by rewrite Hv. }
  destruct (Nat.ltb_spec max_length (length l3)) as [Hlong|Hshort].
  - split_and!.
    + rewrite length_firstn. lia.
    + intros c Hc. apply Hchars'. change (@firstn ascii) with (@take ascii) in Hc.
      apply elem_of_take in Hc as (i & Hi & _). by eapply list_elem_of_lookup_2.
    + destruct max_length as [|n]; [done|]. destruct l3 as [|a l3]; [done|].
      simpl. intros [= ->]. by apply (Hhead "."%char).
  - split_and!; [done|done|]. intros Hc. by apply (Hhead "."%char).
Qed.

(** X12. Sanitizing a sanitized name again changes nothing exactly when the
    name does not end in a dot.  A name shorter than [max_length] never ends
    in a dot: only the cut at [max_length], which comes after the stripping,
    can leave one. *)
Theorem sanitize_filename_idempotent_iff (filename : string) (max_length : nat) :
  let s := sanitize_filename filename max_length in
  (sanitize_filename s max_length = s ↔ last (list_ascii_of_string s) ≠ Some "."%char) ∧
  ((length (list_ascii_of_string s) < max_length)%nat →
   last (list_ascii_of_string s) ≠ Some "."%char).
Proof.
  cbn zeta.
  destruct (sanitize_filename_stages filename max_length)
    as (l1 & l2 & l3 & _ & _ & _ & Hs & Hchars & Hhead & Hlast).
  set (s := sanitize_filename filename max_length) in *.
  set (l := list_ascii_of_string s) in *.
  split.
  2: { intros Hshort Hdot. apply (Hlast "."%char); [|done]. rewrite <- Hdot, Hs.
       destruct (Nat.ltb_spec max_length (length l3)) as [Hcut|]; [|done].
       rewrite Hs in Hshort. destruct (Nat.ltb_spec max_length (length l3)); [|lia].
       rewrite length_firstn in Hshort. lia. }
  assert (length l ≤ max_length)%nat as Hlen.
  { rewrite Hs. destruct (Nat.ltb_spec max_length (length l3)); [|done].
    rewrite length_firstn. lia. }
  assert (∀ c, c ∈ l → mem_ascii c invalid_chars = false ∧ c ≠ " "%char) as Hl.
  { intros c. rewrite Hs. destruct (max_length <? length l3)%nat; [|by apply Hchars].
    change (@firstn ascii) with (@take ascii).
    intros (i & Hi & _)%elem_of_take. apply Hchars. by eapply list_elem_of_lookup_2. }
  assert (∀ c, head l = Some c → c ≠ "."%char) as Hlh.
  { intros c. rewrite Hs. destruct (max_length <? length l3)%nat; [|by apply Hhead].
    destruct max_length as [|n]; [done|]. destruct l3 as [|a l3']; [done|].
    simpl. intros [= <-]. by apply Hhead. }
  assert (List.filter (fun c => negb (mem_ascii c invalid_chars)) l = l) as Hfilter.
  { apply forallb_filter_id, forallb_forall. intros c Hc%list_elem_of_In.
    destruct (Hl c Hc) as [-> _]. done. }
  assert (∀ k : list ascii, (∀ c, c ∈ k → c ≠ " "%char) →
            map (fun c => if Ascii.eqb c " " then "_"%char else c) k = k) as Hmap.
  { intros k Hk. induction k as [|a k IH]; [done|]. simpl.
    destruct (Ascii.eqb_spec a " ") as [->|_].
    - exfalso. apply (Hk " "%char); [by left|done].
    - f_equal. apply IH. intros c Hc. apply Hk. by right. }
  assert (∀ c, head l = Some c → mem_ascii c ["."; " "]%char = false) as Hhd.
  { intros c Hc. assert (c ∈ l) as Hin by (destruct l; [done|injection Hc as <-; by left]).
    destruct (mem_ascii c ["."; " "]%char) eqn:Hm; [|done].
    apply mem_ascii_true in Hm.
    apply elem_of_cons in Hm as [->|Hm]; [by destruct (Hlh _ Hc)|].
    apply list_elem_of_singleton in Hm as ->. by destruct (Hl _ Hin) as [_ ?]. }
  split.
  - intros Hid Hdot.
    destruct (sanitize_filename_stages s max_length)
      as (m1 & m2 & m3 & -> & -> & -> & Hs2 & _ & _ & Hlast2).
    rewrite Hid in Hs2. fold l in Hs2, Hlast2. rewrite Hfilter in Hs2, Hlast2.
    destruct (Nat.ltb_spec max_length (length (map (fun c => if Ascii.eqb c " " then "_"%char else c)
                                                 (strip ["."; " "]%char l)))) as [Hlong|_].
    + assert (length (strip ["."; " "]%char l) ≤ length l)%nat; [|rewrite length_map in Hlong; lia].
      destruct (strip_middle ["."; " "]%char l) as ((k1 & k2 & Hmid) & _).
      rewrite Hmid at 2. rewrite !length_app. lia.
    + rewrite <- Hs2 in Hlast2. by apply (Hlast2 "."%char).
  - intros Hdot.
    assert (strip ["."; " "]%char l = l) as Hstrip.
    { apply strip_id; [done|]. intros c Hc.
      assert (c ∈ l) as Hin.
      { apply last_Some in Hc as [k ->]. apply elem_of_app. right. by left. }
      destruct (mem_ascii c ["."; " "]%char) eqn:Hm; [|done].
      apply mem_ascii_true in Hm.
      apply elem_of_cons in Hm as [->|Hm]; [done|].
      apply list_elem_of_singleton in Hm as ->. by destruct (Hl _ Hin) as [_ ?]. }
    unfold sanitize_filename at 1. fold l. rewrite Hfilter, Hstrip, Hmap.
    2: { intros c Hc. by destruct (Hl c Hc). }
    destruct (Nat.ltb_spec max_length (length l)); [lia|].
    unfold l. apply string_of_list_ascii_of_string.
Qed.

(** ** The document builders *)

Lemma is_image_child (dir p : string) :
  is_image dir p = true → is_Some (child_name dir p).
Proof. unfold is_image. destruct (child_name dir p); [eauto|done]. Qed.

Lemma elem_of_iterdir (fs : storage) (dir p : string) :
  p ∈ iterdir fs dir ↔ is_Some (fs !! p) ∧ is_Some (child_name dir p).
Proof.
  unfold iterdir. rewrite list_elem_of_In, filter_In, <- list_elem_of_In.
  rewrite bool_decide_eq_true.
  change (map fst (map_to_list fs)) with ((map_to_list fs).*1).
  rewrite list_elem_of_fmap. split.
  - intros [([q f] & -> & Hq%elem_of_map_to_list) Hc]. split; [|done]. simpl. eauto.
  - intros [[f Hf] Hc]. split; [|done]. exists (p, f). split; [done|].
    by apply elem_of_map_to_list.
Qed.

Lemma elem_of_image_files (fs : storage) (dir p : string) :
  p ∈ image_files fs dir ↔ is_Some (fs !! p) ∧ is_image dir p = true.
Proof.
  unfold image_files. rewrite merge_sort_Permutation.
  rewrite list_elem_of_In, filter_In, <- list_elem_of_In, elem_of_iterdir.
  split; [tauto|]. intros [Hf Hi]. split_and!; try done. by apply is_image_child.
Qed.

Lemma NoDup_List_filter {A : Type} (f : A → bool) (l : list A) :
  NoDup l → NoDup (List.filter f l).
Proof.
  induction 1 as [|x l Hx Hl IH]; simpl; [constructor|].
  destruct (f x); [|done]. constructor; [|done].
  rewrite list_elem_of_In, filter_In, <- list_elem_of_In. tauto.
Qed.

Lemma image_files_NoDup (fs : storage) (dir : string) : NoDup (image_files fs dir).
Proof.
  unfold image_files. rewrite merge_sort_Permutation.
  apply NoDup_List_filter. unfold iterdir. apply NoDup_List_filter.
  apply NoDup_fst_map_to_list.
Qed.

(** X13. The pages handed to the PDF library are exactly the files of the
    directory whose suffix, in lower case, is .png, .jpg or .jpeg; each of
    them once, in ascending order of their paths. *)
Theorem image_files_are_the_sorted_images (fs : storage) (images_dir : string) :
  Sorted String.le (image_files fs images_dir) ∧
  NoDup (image_files fs images_dir) ∧
  ∀ p, p ∈ image_files fs images_dir ↔ is_Some (fs !! p) ∧ is_image images_dir p = true.
Proof.
  split_and!.
  - apply (Sorted_merge_sort String.le).
  - apply image_files_NoDup.
  - apply elem_of_image_files.
Qed.

(** X14. Whatever the libraries answer, [create_hd_pdf] changes no file
    other than the output file; when it returns [True] there was at least
    one image and the output file holds a document; and without an image it
    returns [False] and leaves the storage as it was. *)
Theorem create_hd_pdf_writes_only_the_document (w : world) (fs : storage)
    (images_dir output_pdf : string) (dpi : Z) :
  let fs' := fst (create_hd_pdf w fs images_dir output_pdf dpi) in
  let ok := snd (create_hd_pdf w fs images_dir output_pdf dpi) in
  (∀ p, p ≠ output_pdf → fs' !! p = fs !! p) ∧
  (ok = true →
     image_files fs images_dir ≠ [] ∧ ∃ pdf, fs' !! output_pdf = Some (File pdf true true)) ∧
  (image_files fs images_dir = [] → fs' = fs ∧ ok = false).
Proof.
  cbn zeta. unfold create_hd_pdf, create_pdf_with_pillow.
  destruct (img2pdf_convert w) as [convert|];
    destruct (image_files fs images_dir) as [|img imgs] eqn:Himgs; cbn [fst snd];
    try (split_and!; by auto).
  - destruct (convert (img :: imgs)) as [pdf|]; cbn [fst snd]; split_and!; try done.
    + intros p Hp. by rewrite lookup_insert_ne.
    + intros _. split; [done|]. exists pdf. by rewrite lookup_insert_eq.
    + intros p Hp. by rewrite lookup_insert_ne.
  - destruct (pillow_save w (img :: imgs)) as [pdf|]; cbn [fst snd]; split_and!; try done.
    + intros p Hp. by rewrite lookup_insert_ne.
    + intros _. split; [done|]. exists pdf. by rewrite lookup_insert_eq.
Qed.

(** With img2pdf at hand the call is the conversion alone. *)
Lemma create_hd_pdf_img2pdf (w : world) (fs : storage) (images_dir output_pdf : string)
    (dpi : Z) (convert : list string → option (list byte)) :
  img2pdf_convert w = Some convert →
  create_hd_pdf w fs images_dir output_pdf dpi
  = match image_files fs images_dir with
    | [] => (fs, false)
    | imgs =>
        match convert imgs with
        | Some pdf => (<[output_pdf := File pdf true true]> fs, true)
        | None => (<[output_pdf := File [] true true]> fs, false)
        end
    end.
Proof. unfold create_hd_pdf. by intros ->. Qed.

(** X15. When img2pdf can be imported and there is no image, or the
    conversion of the images goes through, Pillow is not used and the
    resolution asked for plays no role: the result is the same for every
    [dpi] and for every behaviour of Pillow. *)
Theorem img2pdf_path_ignores_dpi_and_pillow (w : world) (fs : storage)
    (images_dir output_pdf : string) (dpi : Z)
    (convert : list string → option (list byte)) :
  img2pdf_convert w = Some convert →
  image_files fs images_dir = [] ∨ is_Some (convert (image_files fs images_dir)) →
  ∀ dpi' save,
    create_hd_pdf
      (World (yt_dlp_info w) (yt_dlp_download w) (ffprobe w) (ffmpeg w)
             (img2pdf_convert w) save (temp_dir w) (github_output w))
      fs images_dir output_pdf dpi'
    = create_hd_pdf w fs images_dir output_pdf dpi.
Proof.
  intros Hconv _ dpi' save. unfold create_hd_pdf. cbn [img2pdf_convert]. by rewrite Hconv.
Qed.

(** The slides of the talk: with a Pillow that would produce another
    document and another resolution, the document is that of img2pdf. *)
Lemma img2pdf_path_ignores_dpi_and_pillow_witness :
  is_Some (image_files slides "img" !! 0%nat) ∧
  create_hd_pdf
    (World (yt_dlp_info lecture) (yt_dlp_download lecture) (ffprobe lecture)
           (ffmpeg lecture) (img2pdf_convert lecture)
           (fun _ => Some (bytes_of "pillow bytes")) (temp_dir lecture)
           (github_output lecture))
    slides "img" "talk_HD.pdf" 72
  = (<["talk_HD.pdf"%string := File (bytes_of "pdf bytes") true true]> slides, true).
Proof.
  split; [vm_compute; eauto|].
  rewrite (img2pdf_path_ignores_dpi_and_pillow lecture slides "img" "talk_HD.pdf" 600
             (fun _ => Some (bytes_of "pdf bytes")) eq_refl).
  - rewrite (create_hd_pdf_img2pdf lecture slides "img" "talk_HD.pdf" 600
               (fun _ => Some (bytes_of "pdf bytes")) eq_refl).
    destruct (image_files slides "img") eqn:Himgs; [|reflexivity].
    vm_compute in Himgs. discriminate.
  - right. eauto.
Defined.

(** ** The orchestrator: how the stages compose *)

Section pipeline_helpers.
Variable w : world.
Variable fs : storage.
Variables video_path output_dir title_prefix quality : string.

Local Abbreviation extract :=
  (fun fuel interval =>
     extract_high_quality_screenshots w fuel fs video_path output_dir interval
                                      title_prefix quality).
Local Abbreviation file_of := (output_file_name output_dir title_prefix quality).

(** A capture on the grid that raises: the call returns count 0. *)
Lemma extract_failure_count (duration : Q) (interval t : Z) (fuel : nat) :
  ffprobe w video_path = ProbeDuration duration →
  0 < interval → (0 <= duration)%Q →
  t ∈ multiples interval (grid_size duration interval) →
  capture_exn w video_path output_dir title_prefix quality duration t ≠ None →
  (grid_size duration interval < fuel)%nat →
  ∃ r, extract fuel interval = Some r ∧ ex_count r = 0%nat.
Proof.
  intros Hprobe Hi Hd Ht Hfail Hfuel. unfold extract_high_quality_screenshots.
  rewrite Hprobe, sample_loop_multiples by done.
  destruct (run_over_capture w video_path output_dir title_prefix quality duration
              (multiples interval (grid_size duration interval))
              (ExtractState fs 0 [] [])) as (k & _ & _ & _ & Hend).
  destruct (run_over _ _ _) as [st [|e|]]; cbn [fst snd] in *; [|by eexists|done].
  destruct Hend as [_ Hall]. by destruct (Hfail (Hall t Ht)).
Qed.

(** A duration of zero: the call returns count 0. *)
Lemma extract_zero_duration_count (duration : Q) (interval : Z) (fuel : nat) :
  ffprobe w video_path = ProbeDuration duration →
  (duration == 0)%Q → (0 < fuel)%nat →
  ∃ r, extract fuel interval = Some r ∧ ex_count r = 0%nat.
Proof.
  intros Hprobe Hz Hfuel. unfold extract_high_quality_screenshots. rewrite Hprobe.
  destruct fuel as [|fuel]; [lia|]. cbn [sample_loop]. rewrite guard_floor.
  assert (Qfloor duration = 0) as -> by (by rewrite Hz).
  change (0 <=? 0) with true. cbv iota. unfold capture.
  assert (Qeq_bool duration 0 = true) as -> by (by apply Qeq_bool_iff).
  destruct (ffmpeg w video_path 0 _); by eexists.
Qed.

(** An interval of zero or less: a call that returns returns count 0. *)
Lemma extract_nonpositive_interval_count (interval : Z) (fuel : nat) (r : extraction) :
  interval ≤ 0 → extract fuel interval = Some r → ex_count r = 0%nat.
Proof.
  intros Hi. unfold extract_high_quality_screenshots.
  destruct (ffprobe w video_path) as [e|d]; [by intros [= <-]|].
  destruct (Qlt_le_dec d 0) as [Hneg|Hd].
  { destruct fuel as [|fuel]; [done|]. rewrite sample_loop_negative by done.
    by intros [= <-]. }
  pose proof (sample_loop_stuck d interval
                (capture w video_path output_dir title_prefix quality d)
                fuel 0 (ExtractState fs 0 [] []) Hi Hd (Z.le_refl 0)) as Hstuck.
  destruct (sample_loop _ _ _ _ _ _) as [st [|e|]]; cbn [snd] in Hstuck;
    [done|by intros [= <-]|done].
Qed.

(** Files that do not bear the name of a frame are not touched, whatever
    the interval and the fuel. *)
Lemma sample_loop_other (duration : Q) (interval : Z) (fuel : nat) (p : string) :
  (∀ t, p ≠ file_of t) →
  ∀ (t : Z) (st : extract_state),
    disk (fst (sample_loop duration interval
                 (capture w video_path output_dir title_prefix quality duration)
                 fuel t st)) !! p = disk st !! p.
Proof.
  intros Hp. induction fuel as [|fuel IH]; intros t st; cbn [sample_loop]; [done|].
  destruct (Qle_bool _ _); [|done].
  destruct (capture_frame w video_path output_dir title_prefix quality duration t st)
    as (Hother & _).
  specialize (Hother p (Hp t)).
  destruct (capture _ _ _ _ _ _ t st) as [st1 [e|]]; cbn [fst] in *; [done|].
  by rewrite IH.
Qed.

Lemma extract_other (interval : Z) (fuel : nat) (r : extraction) (p : string) :
  (∀ t, p ≠ file_of t) → extract fuel interval = Some r → ex_disk r !! p = fs !! p.
Proof.
  intros Hp. unfold extract_high_quality_screenshots.
  destruct (ffprobe w video_path) as [e|d]; [by intros [= <-]|].
  pose proof (sample_loop_other d interval fuel p Hp 0 (ExtractState fs 0 [] [])) as Hdisk.
  destruct (sample_loop _ _ _ _ _ _) as [st [|e|]]; cbn [fst disk] in Hdisk;
    [| |done]; by intros [= <-].
Qed.
End pipeline_helpers.

Lemma string_app_not_empty (s x : string) : x ≠ ""%string → (s ++ x =? "")%string = false.
Proof.
  intros Hx. apply String.eqb_neq. destruct s; [done|]. simpl. discriminate.
Qed.

Lemma path_div_app_inj (a s x y : string) :
  x ≠ ""%string → y ≠ ""%string → is_absolute x = false → is_absolute y = false →
  path_div a (s ++ x) = path_div a (s ++ y) → x = y.
Proof.
  intros Hx Hy Hax Hay. unfold path_div.
  rewrite !string_app_not_empty by done.
  destruct (a =? ".")%string; [by intros ?%(inj (String.app s))|].
  unfold os_path_join.
  assert (is_absolute (s ++ x) = is_absolute (s ++ y)) as ->.
  { destruct s as [|c s]; [|reflexivity].
    change (is_absolute x = is_absolute y). congruence. }
  destruct (is_absolute (s ++ y)); [by intros ?%(inj (String.app s))|].
  destruct ((a =? "")%string || ends_with_slash a).
  - intros ?%(inj (String.app a)). by apply (inj (String.app s)).
  - intros ?%(inj (String.app a))%(inj (String.app "/")). by apply (inj (String.app s)).
Qed.

(** The run of the orchestrator after an extraction without frames. *)
Lemma process_video_failed (w : world) (fuel : nat) (fs : storage)
    (url : string) (interval : Z) (output_dir quality : string) (pdf_dpi : Z)
    (keep_video no_transcript no_pdf : bool)
    (info : video_info) (video : list byte) (transcript : bool) (ex : extraction) :
  yt_dlp_info w url = Some info →
  yt_dlp_download w url = Downloaded video transcript →
  let safe_title := sanitize_filename (title info) 100 in
  let video_path := os_path_join (temp_dir w) "video.mp4" in
  let images_dir := path_div (path_div output_dir safe_title) "images" in
  extract_high_quality_screenshots w fuel (<[video_path := File video true true]> fs)
    video_path images_dir interval safe_title quality = Some ex →
  ex_count ex = 0%nat →
  process_video w fuel fs url interval output_dir quality pdf_dpi
    keep_video no_transcript no_pdf
  = Some (Run false (delete video_path (ex_disk ex)) 0 None None [Extracting; Failed]).
Proof.
  intros Hinfo Hdl safe_title video_path images_dir Hex Hcount.
  unfold process_video. rewrite Hinfo, Hdl. fold safe_title video_path images_dir.
  by rewrite Hex, Hcount.
Qed.

(** X16. One capture that fails fails the whole run: the orchestrator
    returns [False] from [Extracting], without de-duplication, document or
    report. *)
Theorem failed_capture_fails_the_run (w : world) (fuel : nat) (fs : storage)
    (url : string) (interval : Z) (output_dir quality : string) (pdf_dpi : Z)
    (keep_video no_transcript no_pdf : bool)
    (info : video_info) (banner : string) (video : list byte) (transcript : bool)
    (duration : Q) (t : Z) :
  yt_dlp_info w url = Some info →
  format_time (info_duration info) = inr banner →
  yt_dlp_download w url = Downloaded video transcript →
  let safe_title := sanitize_filename (title info) 100 in
  let video_path := os_path_join (temp_dir w) "video.mp4" in
  let images_dir := path_div (path_div output_dir safe_title) "images" in
  ffprobe w video_path = ProbeDuration duration →
  0 < interval → (0 <= duration)%Q →
  t ∈ multiples interval (grid_size duration interval) →
  ffmpeg w video_path t (output_file_name images_dir safe_title quality t) = None →
  (grid_size duration interval < fuel)%nat →
  ∃ r, process_video_with_banner w fuel fs url interval output_dir quality pdf_dpi
         keep_video no_transcript no_pdf = Some (inr r) ∧
       succeeded r = false ∧ stages r = [Extracting; Failed] ∧
       run_removed r = 0%nat ∧ run_pdf r = None ∧ run_report r = None.
Proof.
  intros Hinfo Hbanner Hdl safe_title video_path images_dir Hprobe Hi Hd Ht Hfail Hfuel.
  destruct (extract_failure_count w (<[video_path := File video true true]> fs)
              video_path images_dir safe_title quality duration interval t fuel)
    as (ex & Hex & Hcount); try done.
  { by rewrite (capture_exn_failed _ _ _ _ _ _ _ Hfail). }
  rewrite (process_video_with_banner_ok _ _ _ _ _ _ _ _ _ _ _ info banner) by done.
  rewrite (process_video_failed _ _ _ _ _ _ _ _ _ _ _ info video transcript ex) by done.
  eexists. split; [done|]. done.
Qed.

Lemma failed_capture_fails_the_run_witness :
  ∃ r, process_video_with_banner flaky_lecture 10 ∅ "https://youtu.be/talk" 4 "out"
         "highest" 600 false false false = Some (inr r) ∧
       succeeded r = false ∧ stages r = [Extracting; Failed] ∧
       run_removed r = 0%nat ∧ run_pdf r = None ∧ run_report r = None.
Proof.
  apply (failed_capture_fails_the_run flaky_lecture 10 ∅ "https://youtu.be/talk" 4 "out"
           "highest" 600 false false false (VideoInfo "My Talk: part 1" 10 "someone")
           "0:00:10" (bytes_of "mp4 bytes") false 10 8).
  - reflexivity.
  - vm_compute. reflexivity.
  - reflexivity.
  - reflexivity.
  - lia.
  - vm_compute; discriminate.
  - change (multiples 4 (grid_size 10 4)) with [0; 4; 8]. set_solver.
  - reflexivity.
  - vm_compute; lia.
Defined.

(** X17. A video whose container reports a duration of zero always fails
    the run, whatever the interval: the capture at timestamp 0 fails, or the
    progress display divides by zero, and either way the extraction reports
    no frame. *)
Theorem zero_duration_fails_the_run (w : world) (fuel : nat) (fs : storage)
    (url : string) (interval : Z) (output_dir quality : string) (pdf_dpi : Z)
    (keep_video no_transcript no_pdf : bool)
    (info : video_info) (banner : string) (video : list byte) (transcript : bool)
    (duration : Q) :
  yt_dlp_info w url = Some info →
  format_time (info_duration info) = inr banner →
  yt_dlp_download w url = Downloaded video transcript →
  ffprobe w (os_path_join (temp_dir w) "video.mp4") = ProbeDuration duration →
  (duration == 0)%Q →
  (0 < fuel)%nat →
  ∃ r, process_video_with_banner w fuel fs url interval output_dir quality pdf_dpi
         keep_video no_transcript no_pdf = Some (inr r) ∧
       succeeded r = false ∧ stages r = [Extracting; Failed].
Proof.
  intros Hinfo Hbanner Hdl Hprobe Hz Hfuel.
  destruct (extract_zero_duration_count w
              (<[os_path_join (temp_dir w) "video.mp4" := File video true true]> fs)
              (os_path_join (temp_dir w) "video.mp4")
              (path_div (path_div output_dir (sanitize_filename (title info) 100)) "images")
              (sanitize_filename (title info) 100) quality duration interval fuel)
    as (ex & Hex & Hcount); try done.
  rewrite (process_video_with_banner_ok _ _ _ _ _ _ _ _ _ _ _ info banner) by done.
  rewrite (process_video_failed _ _ _ _ _ _ _ _ _ _ _ info video transcript ex) by done.
  eexists. split; [done|]. done.
Qed.

Lemma zero_duration_fails_the_run_witness :
  ∃ r, process_video_with_banner still 5 ∅ "https://youtu.be/still" 4 "out"
         "highest" 600 false false false = Some (inr r) ∧
       succeeded r = false ∧ stages r = [Extracting; Failed].
Proof.
  apply (zero_duration_fails_the_run still 5 ∅ "https://youtu.be/still" 4 "out"
           "highest" 600 false false false (VideoInfo "Still" 0 "someone")
           "0:00:00" (bytes_of "mp4 bytes") false 0).
  - reflexivity.
  - vm_compute. reflexivity.
  - reflexivity.
  - reflexivity.
  - reflexivity.
  - lia.
Defined.

(** X18. With an interval of zero or less the orchestrator never returns
    [True]: for every world and every amount of fuel the call has not
    returned, has raised, or has returned [False]. *)
Theorem nonpositive_interval_never_succeeds (w : world) (fuel : nat) (fs : storage)
    (url : string) (interval : Z) (output_dir quality : string) (pdf_dpi : Z)
    (keep_video no_transcript no_pdf : bool) :
  interval ≤ 0 →
  match process_video_with_banner w fuel fs url interval output_dir quality pdf_dpi
          keep_video no_transcript no_pdf with
  | Some (inr r) => succeeded r = false ∧ run_pdf r = None ∧ run_report r = None
  | _ => True
  end.
Proof.
  intros Hi. unfold process_video_with_banner, process_video.
  destruct (yt_dlp_info w url) as [info|]; [|done].
  destruct (format_time (info_duration info)); [done|].
  destruct (yt_dlp_download w url) as [|video transcript]; [done|].
  destruct (extract_high_quality_screenshots _ _ _ _ _ _ _ _) as [ex|] eqn:Hex; [|done].
  apply extract_nonpositive_interval_count in Hex; [|done]. rewrite Hex. done.
Qed.

(** The talk sampled backwards: the second timestamp is beyond what
    [format_time] can render, and the run returns [False]; sampled every
    four seconds the same talk gives a run that succeeds. *)
Lemma nonpositive_interval_never_succeeds_witness :
  (∃ r, process_video_with_banner lecture 10 ∅ "https://youtu.be/talk" (-86399999913601)
          "out" "highest" 600 false false false = Some (inr r) ∧
        succeeded r = false ∧ run_pdf r = None ∧ run_report r = None) ∧
  (∃ r, process_video_with_banner lecture 10 ∅ "https://youtu.be/talk" 4
          "out" "highest" 600 false false false = Some (inr r) ∧
        succeeded r = true).
Proof.
  split.
  - pose proof (nonpositive_interval_never_succeeds lecture 10 ∅ "https://youtu.be/talk"
                  (-86399999913601) "out" "highest" 600 false false false) as Hrun.
    destruct (process_video_with_banner lecture 10 ∅ "https://youtu.be/talk"
                (-86399999913601) "out" "highest" 600 false false false)
      as [[e|r]|] eqn:Hr.
    + vm_compute in Hr. discriminate.
    + exists r. split; [reflexivity|]. apply Hrun. lia.
    + vm_compute in Hr. discriminate.
  - eexists. split; [vm_compute; reflexivity|reflexivity].
Defined.

Lemma create_hd_pdf_other (w : world) (fs : storage) (images_dir output_pdf : string)
    (dpi : Z) (p : string) :
  p ≠ output_pdf →
  fst (create_hd_pdf w fs images_dir output_pdf dpi) !! p = fs !! p.
Proof.
  intros Hp. unfold create_hd_pdf, create_pdf_with_pillow.
  destruct (img2pdf_convert w) as [convert|];
    destruct (image_files fs images_dir) as [|img imgs]; cbn [fst]; try done.
  - destruct (convert (img :: imgs)); cbn [fst]; by rewrite lookup_insert_ne.
  - destruct (pillow_save w (img :: imgs)); cbn [fst]; [by rewrite lookup_insert_ne|done].
Qed.

(** Every path an extraction lists is the name of a frame. *)
Lemma sample_loop_files_named (w : world)
    (video_path output_dir title_prefix quality : string)
    (duration : Q) (interval : Z) (fuel : nat) :
  ∀ (t : Z) (st : extract_state) (p : string),
    p ∈ screenshot_files
          (fst (sample_loop duration interval
                  (capture w video_path output_dir title_prefix quality duration)
                  fuel t st)) →
    p ∈ screenshot_files st ∨ ∃ t', p = output_file_name output_dir title_prefix quality t'.
Proof.
  induction fuel as [|fuel IH]; intros t st p; cbn [sample_loop]; [auto|].
  destruct (Qle_bool _ _); [|auto].
  destruct (capture_frame w video_path output_dir title_prefix quality duration t st)
    as (_ & _ & _ & Hlist).
  destruct (capture _ _ _ _ _ _ t st) as [st1 [e|]]; cbn [fst] in *.
  - intros [?|[-> _]]%Hlist; eauto.
  - intros [[?|[-> _]]%Hlist|?]%IH; eauto.
Qed.

Lemma extract_files_named (w : world) (fuel : nat) (fs : storage)
    (video_path output_dir : string) (interval : Z) (title_prefix quality : string)
    (r : extraction) (p : string) :
  extract_high_quality_screenshots w fuel fs video_path output_dir interval
    title_prefix quality = Some r →
  p ∈ ex_files r → ∃ t, p = output_file_name output_dir title_prefix quality t.
Proof.
  unfold extract_high_quality_screenshots.
  destruct (ffprobe w video_path) as [e|d]; [by intros [= <-] ?%elem_of_nil|].
  pose proof (sample_loop_files_named w video_path output_dir title_prefix quality d
                interval fuel 0 (ExtractState fs 0 [] []) p) as Hnamed.
  destruct (sample_loop _ _ _ _ _ _) as [st [|e|]]; cbn [fst screenshot_files] in Hnamed;
    intros [= <-]; cbn [ex_files]; [|by intros ?%elem_of_nil].
  intros [?%elem_of_nil|?]%Hnamed; done.
Qed.

(** X19. On success, when [GITHUB_OUTPUT] names a file, the number of
    screenshots reported is the number of frames the extraction listed less
    the number of duplicates removed, so that with the duplicates removed it
    makes up the count the extraction returned; and when every frame listed
    is on disk after the extraction, it is the number of listed frames that
    are still on storage after the de-duplication pass. *)
Theorem reported_count_is_frames_left (w : world) (fuel : nat) (fs : storage)
    (url : string) (interval : Z) (output_dir quality : string) (pdf_dpi : Z)
    (keep_video no_transcript no_pdf : bool)
    (info : video_info) (banner : string) (video : list byte) (transcript : bool)
    (ex : extraction) (out : string) :
  yt_dlp_info w url = Some info →
  format_time (info_duration info) = inr banner →
  yt_dlp_download w url = Downloaded video transcript →
  let safe_title := sanitize_filename (title info) 100 in
  let video_path := os_path_join (temp_dir w) "video.mp4" in
  let images_dir := path_div (path_div output_dir safe_title) "images" in
  extract_high_quality_screenshots w fuel (<[video_path := File video true true]> fs)
    video_path images_dir interval safe_title quality = Some ex →
  (0 < ex_count ex)%nat →
  github_output w = Some out →
  out ≠ ""%string →
  let dd := remove_duplicate_screenshots (ex_disk ex) (ex_files ex) in
  ∃ r rep, process_video_with_banner w fuel fs url interval output_dir quality pdf_dpi
             keep_video no_transcript no_pdf = Some (inr r) ∧
           succeeded r = true ∧ run_report r = Some rep ∧
           run_removed r = duplicates_removed dd ∧
           report_screenshot_count rep = (length (ex_files ex) - run_removed r)%nat ∧
           (report_screenshot_count rep + run_removed r = ex_count ex)%nat ∧
           ((∀ p, p ∈ ex_files ex → is_Some (ex_disk ex !! p)) →
            report_screenshot_count rep
            = length (List.filter (fun p => bool_decide (is_Some (store dd !! p)))
                                  (ex_files ex))).
Proof.
  intros Hinfo Hbanner Hdl safe_title video_path images_dir Hex Hcount Hout Hset dd.
  destruct (extract_result_facts _ _ _ _ _ _ _ _ _ Hex) as (Hlen & Hnd & _ & _).
  assert (length (survivors dd) + duplicates_removed dd = length (ex_files ex))%nat as Hsum.
  { unfold dd. destruct (remove_duplicate_screenshots_loop (ex_disk ex) (ex_files ex))
      as (_ & -> & ->).
    rewrite dedup_loop_count. simpl. lia. }
  assert ((∀ p, p ∈ ex_files ex → is_Some (ex_disk ex !! p)) →
          (length (ex_files ex) - duplicates_removed dd)%nat
          = length (List.filter (fun p => bool_decide (is_Some (store dd !! p)))
                                (ex_files ex))) as Hleft.
  { intros Hthere.
    pose proof (survivors_filter (ex_disk ex) (ex_files ex) Hnd Hthere) as Hs.
    fold dd in Hs. rewrite <- Hs. lia. }
  apply String.eqb_neq in Hset.
  rewrite (process_video_with_banner_ok _ _ _ _ _ _ _ _ _ _ _ info banner) by done.
  unfold process_video. rewrite Hinfo, Hdl. fold safe_title video_path images_dir.
  rewrite Hex, Hout, Hset. destruct (Nat.ltb_spec 0 (ex_count ex)) as [_|]; [|lia]. fold dd.
  destruct no_pdf.
  - eexists _, _. split; [reflexivity|]. cbn [succeeded run_report run_removed].
    split; [done|]. split; [reflexivity|]. cbn [report_screenshot_count].
    split_and!; [done|done|lia|done].
  - destruct (create_hd_pdf _ _ _ _ _) as [fs' b].
    eexists _, _. split; [reflexivity|]. cbn [succeeded run_report run_removed].
    split; [done|]. split; [reflexivity|]. cbn [report_screenshot_count].
    split_and!; [done|done|lia|done].
Qed.

Lemma reported_count_is_frames_left_witness :
  ∃ r rep, process_video_with_banner captioned_lecture 10 ∅ "https://youtu.be/talk" 4 "out"
             "highest" 600 false false false = Some (inr r) ∧
           run_report r = Some rep ∧ report_screenshot_count rep = 2%nat ∧
           run_removed r = 1%nat.
Proof.
  destruct (reported_count_is_frames_left captioned_lecture 10 ∅ "https://youtu.be/talk" 4
              "out" "highest" 600 false false false
              (VideoInfo "My Talk: part 1" 10 "someone") "0:00:10"
              (bytes_of "mp4 bytes") true
              (Extraction
                 {[ "/tmp/tmpab12cd/video.mp4"%string := File (bytes_of "mp4 bytes") true true;
                    "out/My_Talk_part_1/images/My_Talk_part_1_0000s.png"%string
                      := File (bytes_of "slide 1") true true;
                    "out/My_Talk_part_1/images/My_Talk_part_1_0004s.png"%string
                      := File (bytes_of "slide 2") true true;
                    "out/My_Talk_part_1/images/My_Talk_part_1_0008s.png"%string
                      := File (bytes_of "slide 1") true true ]}
                 3 ["out/My_Talk_part_1/images/My_Talk_part_1_0000s.png";
                    "out/My_Talk_part_1/images/My_Talk_part_1_0004s.png";
                    "out/My_Talk_part_1/images/My_Talk_part_1_0008s.png"]%string
                 [0; 4; 8] None) "/tmp/github_output")
    as (r & rep & Hr & _ & Hrep & _ & _ & Hsum & Hleft).
  - reflexivity.
  - vm_compute. reflexivity.
  - reflexivity.
  - vm_compute. reflexivity.
  - cbn [ex_count]. lia.
  - reflexivity.
  - discriminate.
  - exists r, rep. split; [exact Hr|]. split; [exact Hrep|].
    assert (report_screenshot_count rep = 2%nat) as Hc.
    { rewrite Hleft; [vm_compute; reflexivity|]. cbn [ex_files ex_disk].
      intros p [->|[->|[->|[]%elem_of_nil]%elem_of_cons]%elem_of_cons]%elem_of_cons;
        vm_compute; eauto. }
    split; [exact Hc|]. cbn [ex_count] in Hsum. lia.
Defined.

(** X20. A document that could not be built is reported all the same: for
    an output directory given in the form [Path] keeps it in, on success and
    when [GITHUB_OUTPUT] names a file, the report names the path of the PDF
    whatever [create_hd_pdf] returned, [False] included, and the run returns
    [True]. *)
Theorem failed_document_is_still_reported (w : world) (fuel : nat) (fs : storage)
    (url : string) (interval : Z) (output_dir quality : string) (pdf_dpi : Z)
    (keep_video no_transcript : bool)
    (info : video_info) (banner : string) (video : list byte) (transcript : bool)
    (ex : extraction) (out : string) :
  pathlib_str output_dir = output_dir →
  yt_dlp_info w url = Some info →
  format_time (info_duration info) = inr banner →
  yt_dlp_download w url = Downloaded video transcript →
  let safe_title := sanitize_filename (title info) 100 in
  let video_path := os_path_join (temp_dir w) "video.mp4" in
  let video_dir := path_div output_dir safe_title in
  let images_dir := path_div video_dir "images" in
  let pdf_path := path_div video_dir (safe_title ++ "_HD.pdf") in
  extract_high_quality_screenshots w fuel (<[video_path := File video true true]> fs)
    video_path images_dir interval safe_title quality = Some ex →
  (0 < ex_count ex)%nat →
  github_output w = Some out →
  out ≠ ""%string →
  ∃ r rep, process_video_with_banner w fuel fs url interval output_dir quality pdf_dpi
             keep_video no_transcript false = Some (inr r) ∧
           succeeded r = true ∧ run_report r = Some rep ∧
           report_pdf_file rep = pdf_path ∧
           run_pdf r
           = Some (snd (create_hd_pdf w
                          (store (remove_duplicate_screenshots (ex_disk ex) (ex_files ex)))
                          images_dir pdf_path pdf_dpi)).
Proof.
  intros _ Hinfo Hbanner Hdl safe_title video_path video_dir images_dir pdf_path
    Hex Hcount Hout Hset.
  apply String.eqb_neq in Hset.
  rewrite (process_video_with_banner_ok _ _ _ _ _ _ _ _ _ _ _ info banner) by done.
  unfold process_video. rewrite Hinfo, Hdl.
  fold safe_title video_path video_dir images_dir pdf_path.
  rewrite Hex, Hout, Hset. destruct (Nat.ltb_spec 0 (ex_count ex)) as [_|]; [|lia].
  cbv iota.
  destruct (create_hd_pdf _ _ _ _ _) as [fs' b] eqn:Hpdf.
  eexists _, _. split; [reflexivity|]. cbn [succeeded run_report run_pdf run_disk].
  split; [done|]. split; [reflexivity|]. split; done.
Qed.

Lemma failed_document_is_still_reported_witness :
  pathlib_str "out" = "out"%string ∧
  ∃ r rep, process_video_with_banner lecture_without_pdf 10 ∅ "https://youtu.be/talk" 4
             "out" "highest" 600 false false false = Some (inr r) ∧
           succeeded r = true ∧ run_report r = Some rep ∧
           report_pdf_file rep = "out/My_Talk_part_1/My_Talk_part_1_HD.pdf"%string ∧
           run_pdf r = Some false.
Proof.
  split; [reflexivity|].
  destruct (failed_document_is_still_reported lecture_without_pdf 10 ∅
              "https://youtu.be/talk" 4 "out" "highest" 600 false false
              (VideoInfo "My Talk: part 1" 10 "someone") "0:00:10"
              (bytes_of "mp4 bytes") false
              (Extraction
                 {[ "/tmp/tmpab12cd/video.mp4"%string := File (bytes_of "mp4 bytes") true true;
                    "out/My_Talk_part_1/images/My_Talk_part_1_0000s.png"%string
                      := File (bytes_of "slide 1") true true;
                    "out/My_Talk_part_1/images/My_Talk_part_1_0004s.png"%string
                      := File (bytes_of "slide 2") true true;
                    "out/My_Talk_part_1/images/My_Talk_part_1_0008s.png"%string
                      := File (bytes_of "slide 1") true true ]}
                 3 ["out/My_Talk_part_1/images/My_Talk_part_1_0000s.png";
                    "out/My_Talk_part_1/images/My_Talk_part_1_0004s.png";
                    "out/My_Talk_part_1/images/My_Talk_part_1_0008s.png"]%string
                 [0; 4; 8] None) "/tmp/github_output")
    as (r & rep & Hr & Hok & Hrep & Hname & Hpdf).
  - reflexivity.
  - reflexivity.
  - vm_compute. reflexivity.
  - reflexivity.
  - vm_compute. reflexivity.
  - cbn [ex_count]. lia.
  - reflexivity.
  - discriminate.
  - exists r, rep. split; [exact Hr|]. split; [exact Hok|]. split; [exact Hrep|].
    split; [rewrite Hname; vm_compute; reflexivity|].
    rewrite Hpdf. vm_compute. reflexivity.
Defined.

(** [pathlib_str] on paths as they are typed. *)
Example pathlib_str_examples :
  map pathlib_str
      [""; "."; "./output"; "output/"; "a//b"; "a/./b"; "/"; "//"; "///"; "//a";
       "///a//b/"; "a/.."; "./"; "/."; "out"; "/tmp/x"]%string
  = [".";  "."; "output"; "output"; "a/b"; "a/b"; "/"; "//"; "/"; "//a";
     "/a/b"; "a/.."; "."; "/"; "out"; "/tmp/x"]%string.
Proof. vm_compute. reflexivity. Qed.

(** X21. Extraction, de-duplication, document and copy of the video change
    no file but the run's own.  For an output directory given in the form
    [Path] keeps it in, and whatever the outcome, a file is afterwards as it
    was before when it is not the temporary video, does not lie in the
    temporary directory, is not the document, the copy of the video, the
    transcript or the file [GITHUB_OUTPUT] names, and does not bear the name
    of a frame. *)
Theorem run_touches_only_its_own_files (w : world) (fuel : nat) (fs : storage)
    (url : string) (interval : Z) (output_dir quality : string) (pdf_dpi : Z)
    (keep_video no_transcript no_pdf : bool) (r : run) :
  pathlib_str output_dir = output_dir →
  process_video w fuel fs url interval output_dir quality pdf_dpi
    keep_video no_transcript no_pdf = Some r →
  (yt_dlp_info w url = None → run_disk r = fs) ∧
  ∀ info, yt_dlp_info w url = Some info →
    let safe_title := sanitize_filename (title info) 100 in
    let video_dir := path_div output_dir safe_title in
    ∀ p, p ≠ os_path_join (temp_dir w) "video.mp4" →
         String.prefix (temp_dir w ++ "/") p = false →
         p ≠ path_div video_dir (safe_title ++ "_HD.pdf") →
         p ≠ path_div video_dir (safe_title ++ ".mp4") →
         p ≠ path_div video_dir (safe_title ++ "_transcript.txt") →
         github_output w ≠ Some p →
         (∀ t, p ≠ output_file_name (path_div video_dir "images") safe_title quality t) →
         run_disk r !! p = fs !! p.
Proof.
  intros _. unfold process_video.
  destruct (yt_dlp_info w url) as [info|]; [|by intros [= <-]].
  intros Hrun. split; [done|].
  intros ? [= <-] p Hvideo _ Hpdf Hcopy _ _ Hframe.
  set (safe_title := sanitize_filename (title info) 100) in *.
  set (video_dir := path_div output_dir safe_title) in *. revert Hrun.
  destruct (yt_dlp_download w url) as [|video transcript]; [by intros [= <-]|].
  destruct (extract_high_quality_screenshots _ _ _ _ _ _ _ _) as [ex|] eqn:Hex; [|done].
  assert (ex_disk ex !! p = fs !! p) as Hdisk.
  { rewrite (extract_other _ _ _ _ _ _ _ _ _ p Hframe Hex). by rewrite lookup_insert_ne. }
  destruct (0 <? ex_count ex)%nat.
  2: { intros [= <-]. cbn [run_disk]. by rewrite lookup_delete_ne. }
  assert (store (remove_duplicate_screenshots (ex_disk ex) (ex_files ex)) !! p = fs !! p)
    as Hstore.
  { rewrite <- Hdisk.
    destruct (remove_duplicate_screenshots_loop (ex_disk ex) (ex_files ex)) as (-> & _).
    apply dedup_loop_store_other. intros Hin.
    destruct (extract_files_named _ _ _ _ _ _ _ _ _ p Hex Hin) as [t ->].
    by apply (Hframe t). }
  destruct no_pdf.
  - intros [= <-]. cbn [run_disk]. rewrite lookup_delete_ne by done.
    destruct keep_video; [by rewrite lookup_insert_ne|done].
  - pose proof (create_hd_pdf_other w
                  (store (remove_duplicate_screenshots (ex_disk ex) (ex_files ex)))
                  (path_div video_dir "images")
                  (path_div video_dir (safe_title ++ "_HD.pdf")) pdf_dpi p Hpdf) as Hother.
    destruct (create_hd_pdf _ _ _ _ _) as [fs' b]. cbn [fst] in Hother.
    intros [= <-]. cbn [run_disk]. rewrite lookup_delete_ne by done.
    destruct keep_video; [rewrite lookup_insert_ne by done|]; by rewrite Hother.
Qed.

(** The talk processed next to a file of notes, with a copy of the video
    kept: the run succeeds and the notes are as they were. *)
Lemma run_touches_only_its_own_files_witness :
  pathlib_str "out" = "out"%string ∧
  ∃ r, process_video lecture 10
         {[ "notes.txt"%string := File (bytes_of "my notes") true true ]}
         "https://youtu.be/talk" 4 "out" "highest" 600 true false false = Some r ∧
       succeeded r = true ∧
       run_disk r !! "notes.txt"%string = Some (File (bytes_of "my notes") true true).
Proof.
  split; [reflexivity|].
  assert (∃ r, process_video lecture 10
                 {[ "notes.txt"%string := File (bytes_of "my notes") true true ]}
                 "https://youtu.be/talk" 4 "out" "highest" 600 true false false = Some r ∧
               succeeded r = true) as (r & Hr & Hok).
  { eexists. split; [vm_compute; reflexivity|reflexivity]. }
  exists r. split; [exact Hr|]. split; [exact Hok|].
  rewrite (proj2 (run_touches_only_its_own_files lecture 10
                    {[ "notes.txt"%string := File (bytes_of "my notes") true true ]}
                    "https://youtu.be/talk" 4 "out" "highest" 600 true false false
                    r eq_refl Hr)
                 (VideoInfo "My Talk: part 1" 10 "someone") eq_refl "notes.txt"%string).
  - vm_compute. reflexivity.
  - vm_compute. discriminate.
  - reflexivity.
  - vm_compute. discriminate.
  - vm_compute. discriminate.
  - vm_compute. discriminate.
  - discriminate.
  - intros t Heq. apply (f_equal (String.get 0)) in Heq. vm_compute in Heq. discriminate.
Defined.

(** X22. The banner is printed outside any [try]: when the metadata give a
    duration that [format_time] cannot render, the call raises
    [OverflowError] before anything is downloaded, whatever the other
    arguments. *)
Theorem overlong_duration_raises (w : world) (fuel : nat) (fs : storage)
    (url : string) (interval : Z) (output_dir quality : string) (pdf_dpi : Z)
    (keep_video no_transcript no_pdf : bool) (info : video_info) :
  yt_dlp_info w url = Some info →
  info_duration info < -86399999913600 ∨ 86399999999999 < info_duration info →
  process_video_with_banner w fuel fs url interval output_dir quality pdf_dpi
    keep_video no_transcript no_pdf = Some (inl OverflowError).
Proof.
  intros Hinfo Hrange. unfold process_video_with_banner. rewrite Hinfo.
  destruct Hrange as [Hlo|Hhi].
  - by rewrite format_time_overflow.
  - by rewrite format_time_overflow_above.
Qed.

Lemma overlong_duration_raises_witness :
  process_video_with_banner endless_stream 10 ∅ "https://youtu.be/stream" 4 "out"
    "highest" 600 false false false = Some (inl OverflowError).
Proof.
  apply (overlong_duration_raises endless_stream 10 ∅ "https://youtu.be/stream" 4 "out"
           "highest" 600 false false false (VideoInfo "Stream" 86400000000000 "someone")).
  - reflexivity.
  - right. simpl. lia.
Defined.

(** ** From the frames to the pages of the document *)

Lemma string_app_cons (c : ascii) (a b : string) :
  (String c a ++ b = String c (a ++ b))%string.
Proof. reflexivity. Qed.

Lemma list_ascii_of_string_app (a b : string) :
  list_ascii_of_string (a ++ b) = list_ascii_of_string a ++ list_ascii_of_string b.
Proof.
  induction a as [|c a IH]; [done|].
  rewrite string_app_cons. cbn [list_ascii_of_string app]. by rewrite IH.
Qed.

Lemma string_length_app (a b : string) :
  String.length (a ++ b) = (String.length a + String.length b)%nat.
Proof.
  induction a as [|c a IH]; [done|].
  rewrite string_app_cons. cbn [String.length]. by rewrite IH.
Qed.

Lemma substring_all (b : string) : substring 0 (String.length b) b = b.
Proof. induction b as [|c b IH]; [done|]. cbn [String.length substring]. by rewrite IH. Qed.

Lemma substring_app_r (a b : string) :
  substring (String.length a) (String.length b) (a ++ b) = b.
Proof.
  induction a as [|c a IH]; [apply substring_all|].
  rewrite string_app_cons. cbn [String.length substring]. exact IH.
Qed.

Lemma prefix_app (a b : string) : String.prefix a (a ++ b) = true.
Proof.
  induction a as [|c a IH]; [by destruct b|].
  rewrite string_app_cons. cbn [String.prefix]. by destruct (ascii_dec c c).
Qed.

Lemma mem_ascii_app (c : ascii) (l1 l2 : list ascii) :
  mem_ascii c (l1 ++ l2) = mem_ascii c l1 || mem_ascii c l2.
Proof. apply existsb_app. Qed.

(** An entry of a directory, addressed through the directory. *)
Lemma child_name_join (dir name : string) :
  name ≠ ""%string → mem_ascii "/" (list_ascii_of_string name) = false →
  child_name dir (dir ++ "/" ++ name) = Some name.
Proof.
  intros Hne Hslash. unfold child_name.
  rewrite <- string_app_assoc. set (pre := (dir ++ "/")%string).
  rewrite prefix_app, (string_length_app pre name).
  replace (String.length pre + String.length name - String.length pre)%nat
    with (String.length name) by lia.
  rewrite substring_app_r, Hslash.
  by apply String.eqb_neq in Hne as ->.
Qed.

(** The suffix of a name that ends in one of the two extensions the
    extractor uses. *)
Lemma path_suffix_frame (stem : string) (png : bool) :
  stem ≠ ""%string →
  path_suffix (stem ++ (if png then ".png" else ".jpg"))
  = (if png then ".png" else ".jpg")%string.
Proof.
  intros Hne. unfold path_suffix.
  rewrite list_ascii_of_string_app, rev_app_distr, string_length_app.
  assert (0 < String.length stem)%nat as Hlen by (destruct stem; [done|simpl; lia]).
  destruct png; cbn [list_ascii_of_string rev app chars_before_dot Ascii.eqb Bool.eqb
                      fmap option_fmap option_map String.length].
  - replace (String.length stem + 4 - 4)%nat with (String.length stem) by lia.
    destruct (Nat.ltb_spec 4 (String.length stem + 4)) as [_|]; [|lia].
    apply (substring_app_r stem ".png").
  - replace (String.length stem + 4 - 4)%nat with (String.length stem) by lia.
    destruct (Nat.ltb_spec 4 (String.length stem + 4)) as [_|]; [|lia].
    apply (substring_app_r stem ".jpg").
Qed.

Lemma digit_not_slash (d : Z) : 0 ≤ d ≤ 9 → Ascii.eqb "/" (digit d) = false.
Proof.
  intros Hd.
  assert (d = 0 ∨ d = 1 ∨ d = 2 ∨ d = 3 ∨ d = 4 ∨ d = 5 ∨ d = 6 ∨ d = 7 ∨ d = 8 ∨ d = 9)
    as Hc by lia.
  repeat (destruct Hc as [->|Hc]; [reflexivity|]). by subst d.
Qed.

Lemma decimal_digits_no_slash (fuel : nat) :
  ∀ (n : Z) (acc : string),
    0 ≤ n → mem_ascii "/" (list_ascii_of_string acc) = false →
    mem_ascii "/" (list_ascii_of_string (decimal_digits fuel n acc)) = false.
Proof.
  induction fuel as [|fuel IH]; intros n acc Hn Hacc; cbn [decimal_digits]; [done|].
  assert (mem_ascii "/" (list_ascii_of_string (String (digit (n mod 10)) acc)) = false)
    as Hacc'.
  { cbn [list_ascii_of_string mem_ascii existsb].
    rewrite digit_not_slash by (Z.div_mod_to_equations; lia). exact Hacc. }
  destruct (n <? 10); [done|]. apply IH; [|done]. Z.div_mod_to_equations; lia.
Qed.

Lemma zeros_no_slash (k : nat) : mem_ascii "/" (list_ascii_of_string (zeros k)) = false.
Proof. induction k as [|k IH]; [done|]. exact IH. Qed.

(** A timestamp is written with a sign, zeros and digits only. *)
Lemma format_04d_no_slash (t : Z) :
  mem_ascii "/" (list_ascii_of_string (format_04d t)) = false.
Proof.
  unfold format_04d, zfill. cbv zeta.
  rewrite !list_ascii_of_string_app, !mem_ascii_app, zeros_no_slash.
  unfold decimal. rewrite decimal_digits_no_slash by (done || lia).
  by destruct (t <? 0).
Qed.

(** The frame of a timestamp is an entry of the directory it is written to,
    and an image. *)
Lemma frame_is_child (dir title_prefix quality : string) (t : Z) :
  dir ≠ ""%string → ends_with_slash dir = false →
  mem_ascii "/" (list_ascii_of_string title_prefix) = false →
  ∃ name, output_file_name dir title_prefix quality t = (dir ++ "/" ++ name)%string ∧
          child_name dir (dir ++ "/" ++ name) = Some name ∧
          is_image dir (dir ++ "/" ++ name) = true.
Proof.
  intros Hdir Hend Hprefix.
  set (stem := (title_prefix ++ "_" ++ format_04d t ++ "s")%string).
  set (png := (quality =? "highest")%string).
  assert (stem ≠ ""%string) as Hstem by (unfold stem; by destruct title_prefix).
  assert (mem_ascii "/" (list_ascii_of_string
                           (stem ++ (if png then ".png" else ".jpg"))) = false) as Hslash.
  { unfold stem. rewrite !list_ascii_of_string_app, !mem_ascii_app, Hprefix.
    rewrite format_04d_no_slash. by destruct png. }
  exists (stem ++ (if png then ".png" else ".jpg"))%string.
  assert (child_name dir (dir ++ "/" ++ stem ++ (if png then ".png" else ".jpg"))
          = Some (stem ++ (if png then ".png" else ".jpg"))%string) as Hchild.
  { apply child_name_join; [by destruct stem, png|done]. }
  split_and!; [|done|].
  - unfold output_file_name, os_path_join. fold png.
    assert (∀ x, is_absolute (title_prefix ++ "_" ++ x) = false) as Habs.
    { intros x. destruct title_prefix as [|c p]; [done|].
      cbn [list_ascii_of_string mem_ascii existsb] in Hprefix.
      apply orb_false_elim in Hprefix as [Hc _].
      rewrite string_app_cons. cbn [is_absolute]. by rewrite Ascii.eqb_sym. }
    apply String.eqb_neq in Hdir. unfold stem.
    destruct png; rewrite Habs, Hdir, Hend; cbn [orb]; by rewrite !string_app_assoc.
  - unfold is_image. rewrite Hchild, path_suffix_frame by done. by destruct png.
Qed.

Lemma is_image_frame (dir title_prefix quality : string) (t : Z) :
  dir ≠ ""%string → ends_with_slash dir = false →
  mem_ascii "/" (list_ascii_of_string title_prefix) = false →
  is_image dir (output_file_name dir title_prefix quality t) = true.
Proof.
  intros Hdir Hend Hprefix.
  destruct (frame_is_child dir title_prefix quality t Hdir Hend Hprefix)
    as (name & -> & _ & Himg).
  done.
Qed.

Lemma StronglySorted_sublist {A : Type} (R : relation A) (k l : list A) :
  sublist k l → StronglySorted R l → StronglySorted R k.
Proof.
  induction 1 as [|x k l Hsub IH|x k l Hsub IH]; intros Hl; [done|..];
    apply StronglySorted_inv in Hl as [Hl Hx]; [|auto].
  constructor; [auto|]. rewrite Forall_forall in *. intros y Hy.
  apply Hx. by eapply elem_of_sublist.
Qed.

(** Below 10000 s the names of the grid are in ascending order. *)
Lemma grid_files_sorted (output_dir title_prefix quality : string) (interval : Z) (n : nat) :
  0 < interval →
  (∀ t, t ∈ multiples interval n → t < 10000) →
  StronglySorted String.le
    (map (output_file_name output_dir title_prefix quality) (multiples interval n)).
Proof.
  intros Hi. induction n as [|n IH]; intros Hsmall; [constructor|].
  rewrite multiples_S, map_app in *.
  apply StronglySorted_app_2.
  - intros p1 p2 (t1 & -> & (i & [Hin ->]%multiples_lookup)%list_elem_of_lookup)%list_elem_of_fmap
           Hp2%list_elem_of_singleton.
    subst p2. unfold String.le, String.leb.
    rewrite short_video_names_in_order; [done|lia|nia|].
    apply Hsmall, elem_of_app. right. by left.
  - apply IH. intros t Ht. apply Hsmall, elem_of_app. by left.
  - repeat constructor.
Qed.

(** Two sorted lists without repetition that have the same elements. *)
Lemma sorted_lists_equal (k l : list string) :
  StronglySorted String.le k → StronglySorted String.le l →
  NoDup k → NoDup l → (∀ p, p ∈ k ↔ p ∈ l) → k = l.
Proof.
  intros Hk Hl Hndk Hndl Hsame.
  apply (StronglySorted_unique String.le); [done|done|].
  by apply NoDup_Permutation.
Qed.

Lemma image_files_StronglySorted (fs : storage) (dir : string) :
  StronglySorted String.le (image_files fs dir).
Proof. apply (StronglySorted_merge_sort String.le). Qed.

(** X23. For a video shorter than 10000 seconds whose captures all go
    through, into a directory that held no image before: the images found in
    the directory after the extraction are the frames in the order of
    capture, and after the de-duplication pass the pages handed to the PDF
    library are the surviving frames, in the order of capture. *)
Theorem pages_are_the_frames_left_in_order (w : world) (fs : storage)
    (video_path images_dir title_prefix quality : string)
    (duration : Q) (interval : Z) (fuel : nat) :
  ffprobe w video_path = ProbeDuration duration →
  0 < interval → (0 <= duration)%Q → Qfloor duration < 10000 →
  (∀ t, t ∈ multiples interval (grid_size duration interval) →
        capture_exn w video_path images_dir title_prefix quality duration t = None) →
  (grid_size duration interval < fuel)%nat →
  images_dir ≠ ""%string → ends_with_slash images_dir = false →
  mem_ascii "/" (list_ascii_of_string title_prefix) = false →
  (∀ p, is_Some (fs !! p) → is_image images_dir p = false) →
  ∃ r, extract_high_quality_screenshots w fuel fs video_path images_dir interval
         title_prefix quality = Some r ∧
       image_files (ex_disk r) images_dir = ex_files r ∧
       let dd := remove_duplicate_screenshots (ex_disk r) (ex_files r) in
       image_files (store dd) images_dir = survivors dd.
Proof.
  intros Hprobe Hi Hd Hshort Hall Hfuel Hdir Hend Hprefix Hclean.
  destruct (extract_all_frames w fs video_path images_dir title_prefix quality duration
              interval fuel Hprobe Hi Hd Hall Hfuel) as (r & Hr & _ & Hfiles & Hthere & Hother).
  set (grid := multiples interval (grid_size duration interval)) in *.
  set (file_of := output_file_name images_dir title_prefix quality) in *.
  assert (∀ t, t ∈ grid → 0 ≤ t < 10000) as Hrange.
  { intros t (i & [Hin ->]%multiples_lookup)%list_elem_of_lookup.
    rewrite grid_size_floor in Hin by done.
    assert (0 ≤ Qfloor duration) by (by apply Qfloor_nonneg).
    assert (0 ≤ Qfloor duration / interval) by (apply Z.div_pos; lia).
    assert (interval * (Qfloor duration / interval) ≤ Qfloor duration)
      by (apply Z.mul_div_le; lia).
    nia. }
  assert (StronglySorted String.le (ex_files r)) as Hsorted.
  { rewrite Hfiles. apply grid_files_sorted; [done|]. intros t Ht. by apply Hrange. }
  assert (NoDup (ex_files r)) as Hnd by (by eapply extract_files_NoDup).
  assert (∀ p, p ∈ ex_files r → is_Some (ex_disk r !! p) ∧ is_image images_dir p = true)
    as Hframes.
  { intros p. rewrite Hfiles. intros (t & -> & Ht)%list_elem_of_fmap.
    destruct (Hthere t Ht) as (image & _ & ->). split; [eauto|].
    apply is_image_frame; auto. }
  assert (∀ p, is_Some (ex_disk r !! p) → is_image images_dir p = true → p ∈ ex_files r)
    as Himages.
  { intros p Hp Himg. destruct (decide (p ∈ ex_files r)) as [|Hnot]; [done|].
    rewrite Hfiles in Hnot. rewrite (Hother p Hnot) in Hp.
    rewrite (Hclean p Hp) in Himg. done. }
  exists r. split; [done|]. split.
  - apply sorted_lists_equal;
      [apply image_files_StronglySorted|done|apply image_files_NoDup|done|].
    intros p. rewrite elem_of_image_files. split; [by intros [? ?]; apply Himages|auto].
  - cbn zeta. set (dd := remove_duplicate_screenshots (ex_disk r) (ex_files r)).
    destruct (first_seen_wins (ex_disk r) (ex_files r) Hnd) as (Hsub & _). fold dd in Hsub.
    assert (store dd ⊆ ex_disk r) as Hle.
    { unfold dd. destruct (remove_duplicate_screenshots_loop (ex_disk r) (ex_files r))
        as (-> & _). apply (dedup_loop_store_subseteq _ (dedup_init _)). }
    apply sorted_lists_equal;
      [apply image_files_StronglySorted|by eapply StronglySorted_sublist
      |apply image_files_NoDup|by eapply sublist_NoDup|].
    intros p. rewrite elem_of_image_files. split.
    + intros [[f Hf] Himg].
      assert (p ∈ ex_files r) as Hp.
      { apply Himages; [|done]. exists f. by eapply lookup_weaken. }
      apply (survivors_are_the_files_left (ex_disk r) (ex_files r) p Hnd Hp);
        [by apply Hframes|]. fold dd. eauto.
    + intros Hp. assert (p ∈ ex_files r) as Hin by (by eapply elem_of_sublist).
      destruct (Hframes p Hin) as [Hfile Himg]. split; [|done].
      by apply (survivors_are_the_files_left (ex_disk r) (ex_files r) p Hnd Hin).
Qed.

Lemma pages_are_the_frames_left_in_order_witness :
  ∃ r, extract_high_quality_screenshots lecture 10 ∅ "video.mp4" "img" 4 "talk" "highest"
       = Some r ∧
       image_files (ex_disk r) "img" = ex_files r ∧
       image_files (store (remove_duplicate_screenshots (ex_disk r) (ex_files r))) "img"
       = survivors (remove_duplicate_screenshots (ex_disk r) (ex_files r)).
Proof.
  apply (pages_are_the_frames_left_in_order lecture ∅ "video.mp4" "img" "talk" "highest"
           10 4 10).
  - reflexivity.
  - lia.
  - vm_compute; discriminate.
  - vm_compute; reflexivity.
  - change (multiples 4 (grid_size 10 4)) with [0; 4; 8].
    intros t Ht. repeat (apply elem_of_cons in Ht as [->|Ht]); [..|by apply elem_of_nil in Ht];
      vm_compute; reflexivity.
  - vm_compute; lia.
  - discriminate.
  - reflexivity.
  - reflexivity.
  - intros p [f Hf]. by rewrite lookup_empty in Hf.
Defined.

(** ** [convert_srt_to_text] *)

Lemma join_space_snoc (ls : list (list ascii)) (x : list ascii) :
  ls ≠ [] → join_space (ls ++ [x]) = join_space ls ++ " "%char :: x.
Proof.
  induction ls as [|a [|b ls] IH]; intros Hne; [done|done|].
  change (join_space ((a :: b :: ls) ++ [x]))
    with (a ++ " "%char :: join_space ((b :: ls) ++ [x])).
  rewrite IH by done.
  change (join_space (a :: b :: ls)) with (a ++ " "%char :: join_space (b :: ls)).
  by rewrite <- app_assoc.
Qed.

Lemma join_space_last_app (ls : list (list ascii)) (a b : list ascii) :
  join_space (ls ++ [a ++ b]) = join_space (ls ++ [a]) ++ b.
Proof.
  destruct ls as [|l ls]; [done|].
  rewrite !join_space_snoc by done. by rewrite <- !app_assoc.
Qed.

(** One iteration adds the text of its line to the transcript when the line
    is a caption, and nothing otherwise: the grouping into cues does not
    show in the text joined. *)
Lemma srt_step_groups (st : srt_state) (line : list ascii) (flat : list (list ascii)) :
  join_space (srt_groups st) = join_space flat →
  (srt_groups st = [] ↔ flat = []) →
  let flat' := flat ++ caption_texts [line] in
  join_space (srt_groups (srt_step st line)) = join_space flat' ∧
  (srt_groups (srt_step st line) = [] ↔ flat' = []).
Proof.
  intros Hjoin Hnil. cbn zeta. unfold caption_texts, srt_step. cbn [List.filter].
  unfold is_caption. cbv zeta.
  destruct (negb (is_empty (str_strip line)) && negb (str_isdigit (str_strip line))
            && negb (contains ["-"; "-"; ">"]%char (str_strip line))).
  - cbn [map]. set (x := re_sub_tags 0 (str_strip line)).
    unfold srt_groups in *. cbn [current_text transcript_lines].
    destruct (current_text st) as [|c cur] eqn:Hcur; cbn [is_empty app] in *.
    + split; [|split; intros H; by destruct (app_cons_not_nil _ _ _ (eq_sym H))].
      destruct (transcript_lines st) as [|t tl] eqn:Htl.
      * assert (flat = []) as -> by (by apply Hnil). done.
      * assert (flat ≠ []) as Hflat by (intros H%Hnil; done).
        rewrite !join_space_snoc by done. by rewrite Hjoin.
    + split; [|split; intros H; by destruct (app_cons_not_nil _ _ _ (eq_sym H))].
      assert (flat ≠ []) as Hflat.
      { intros H%Hnil. by destruct (app_cons_not_nil _ _ _ (eq_sym H)). }
      change (c :: cur ++ [x]) with ((c :: cur) ++ [x]).
      rewrite (join_space_snoc (c :: cur)) by done.
      rewrite join_space_last_app, Hjoin. by rewrite join_space_snoc.
  - cbn [map]. rewrite app_nil_r.
    destruct (is_empty (str_strip line) && negb (is_empty (current_text st))) eqn:Hblank;
      [|done].
    apply andb_prop in Hblank as [_ Hcur]. unfold srt_groups in *.
    cbn [current_text transcript_lines is_empty].
    destruct (current_text st); [done|]. done.
Qed.

Lemma caption_texts_cons (line : list ascii) (lines : list (list ascii)) :
  caption_texts (line :: lines) = caption_texts [line] ++ caption_texts lines.
Proof.
  unfold caption_texts. cbn [List.filter]. by destruct (is_caption line).
Qed.

Lemma srt_loop_groups (lines : list (list ascii)) :
  ∀ (st : srt_state) (flat : list (list ascii)),
    join_space (srt_groups st) = join_space flat →
    (srt_groups st = [] ↔ flat = []) →
    join_space (srt_groups (fold_left srt_step lines st))
    = join_space (flat ++ caption_texts lines).
Proof.
  induction lines as [|line lines IH]; intros st flat Hjoin Hnil.
  - unfold caption_texts. simpl. by rewrite app_nil_r.
  - destruct (srt_step_groups st line flat Hjoin Hnil) as [Hjoin' Hnil'].
    cbn [fold_left]. rewrite caption_texts_cons, app_assoc. by apply IH.
Qed.

Lemma srt_full_text_flat (lines : list (list ascii)) :
  srt_full_text lines = re_sub_spaces false (join_space (caption_texts lines)).
Proof.
  unfold srt_full_text. cbv zeta.
  change (if is_empty (current_text ?st) then transcript_lines ?st
          else transcript_lines ?st ++ [join_space (current_text ?st)])
    with (srt_groups st).
  by rewrite (srt_loop_groups lines (SrtState [] []) []).
Qed.

(** X24. The text of the transcript is the caption lines of the file, each
    stripped and freed of its tags, joined by single spaces, with every run
    of whitespace turned into one space.  Blank lines, cue numbers and
    timing lines leave no trace, and neither does the grouping into cues. *)
Theorem transcript_is_the_caption_lines_joined (lines : list (list ascii)) :
  srt_full_text lines = re_sub_spaces false (join_space (caption_texts lines)).
Proof. apply srt_full_text_flat. Qed.

Lemma convert_srt_to_text_other (textwrap_fill : list ascii → list ascii)
    (write_text : string → list byte → write_result) (fs : storage)
    (srt_file : string) (text_file : option string) (p : string) :
  text_file ≠ Some p →
  fst (convert_srt_to_text textwrap_fill write_text fs srt_file text_file) !! p = fs !! p.
Proof.
  intros Hp. unfold convert_srt_to_text.
  destruct (fs !! srt_file) as [f|]; [|done]. destruct (readable f); [|done].
  destruct text_file as [path|]; [|done]. cbv zeta.
  assert (p ≠ path) as Hne by (intros ->; done).
  destruct (write_text path _) as [| |written]; cbn [fst]; [|done|];
    by rewrite lookup_insert_ne.
Qed.

(** X25. [convert_srt_to_text] returns [False] and leaves the storage as it
    is when the subtitle file is missing or cannot be read, and when no path
    to write to is given; and it never changes a file other than the one at
    the path given.  When a subtitle file in ASCII can be read and a path is
    given, it returns [True] exactly when the writing goes through, and the
    file at that path then holds the two header lines followed by the
    wrapped text of the caption lines; when that file cannot be opened for
    writing, the storage is as before. *)
Theorem convert_srt_to_text_effect (textwrap_fill : list ascii → list ascii)
    (write_text : string → list byte → write_result)
    (fs : storage) (srt_file : string) (text_file : option string) :
  let r := convert_srt_to_text textwrap_fill write_text fs srt_file text_file in
  ((∀ f, fs !! srt_file = Some f → readable f = false) ∨ text_file = None →
     r = (fs, false)) ∧
  (∀ p, text_file ≠ Some p → fst r !! p = fs !! p) ∧
  (∀ f path, fs !! srt_file = Some f → readable f = true → text_file = Some path →
     ascii_bytes (data f) →
     let full_text :=
       re_sub_spaces false
         (join_space (caption_texts (readlines (decode_text (data f))))) in
     ascii_text (textwrap_fill full_text) →
     let content := encode_text (transcript_header ++ textwrap_fill full_text) in
     (snd r = true ↔ write_text path content = Written) ∧
     (snd r = true → fst r !! path = Some (File content true true)) ∧
     (write_text path content = OpenRaises → fst r = fs)).
Proof.
  cbn zeta. split_and!.
  - unfold convert_srt_to_text. intros [Hsrt| ->].
    + destruct (fs !! srt_file) as [f|]; [|done]. by rewrite (Hsrt f eq_refl).
    + destruct (fs !! srt_file) as [f|]; [|done]. by destruct (readable f).
  - intros p. apply convert_srt_to_text_other.
  - intros f path Hf Hr -> _ _. unfold convert_srt_to_text.
    rewrite Hf, Hr, srt_full_text_flat. cbv zeta.
    destruct (write_text path _) as [| |written]; cbn [fst snd]; split_and!; try done.
    intros _. by rewrite lookup_insert_eq.
Qed.

(** The subtitle file of two cues, written out as it is read. *)
Lemma convert_srt_to_text_effect_witness :
  let r := convert_srt_to_text (fun text => text) (fun _ _ => Written)
             {[ "/tmp/tmpab12cd/video.en.srt"%string := File two_cues true true ]}
             "/tmp/tmpab12cd/video.en.srt" (Some "out/talk_transcript.txt"%string) in
  snd r = true ∧
  fst r !! "out/talk_transcript.txt"%string
  = Some (File (encode_text
                  (transcript_header ++ list_ascii_of_string "Good morning everyone"))
               true true) ∧
  fst r !! "/tmp/tmpab12cd/video.en.srt"%string = Some (File two_cues true true).
Proof.
  cbv zeta.
  destruct (convert_srt_to_text_effect (fun text => text) (fun _ _ => Written)
              {[ "/tmp/tmpab12cd/video.en.srt"%string := File two_cues true true ]}
              "/tmp/tmpab12cd/video.en.srt" (Some "out/talk_transcript.txt"%string))
    as (_ & Hother & Hwritten).
  destruct (Hwritten (File two_cues true true) "out/talk_transcript.txt"%string)
    as (Htrue & Hcontent & _).
  - reflexivity.
  - reflexivity.
  - reflexivity.
  - compute_done.
  - compute_done.
  - split; [apply Htrue; reflexivity|]. split.
    + rewrite (Hcontent (proj2 Htrue eq_refl)). vm_compute. reflexivity.
    + rewrite Hother; [reflexivity|discriminate].
Defined.

(** ** [download_video_and_transcript] *)

Lemma find_exists (fs : storage) (l : list string) :
  is_Some (List.find (os_path_exists fs) l) ↔ ∃ c, c ∈ l ∧ is_Some (fs !! c).
Proof.
  induction l as [|x l IH]; cbn [List.find].
  - split; [by intros [? ?]|]. by intros (c & ?%elem_of_nil & _).
  - unfold os_path_exists at 1. case_bool_decide as Hx.
    + split; [|eauto]. intros _. exists x. split; [by left|done].
    + rewrite IH. split.
      * intros (c & Hc & Hf). exists c. split; [by right|done].
      * intros (c & [->|Hc]%elem_of_cons & Hf); [done|eauto].
Qed.

Lemma find_first (fs : storage) (pre post : list string) (c : string) :
  (∀ x, x ∈ pre → fs !! x = None) → is_Some (fs !! c) →
  List.find (os_path_exists fs) (pre ++ c :: post) = Some c.
Proof.
  intros Hpre Hc. induction pre as [|x pre IH]; cbn [app List.find].
  - unfold os_path_exists. by rewrite bool_decide_eq_true_2.
  - unfold os_path_exists at 1. rewrite bool_decide_eq_false_2.
    + apply IH. intros y Hy. apply Hpre. by right.
    + rewrite (Hpre x) by (by left). by intros [? ?].
Qed.

(** X26. When the downloader fails nothing else is done and both flags are
    [False].  When it succeeds the first flag is [True], and the second tells
    whether one of the four subtitle files exists, nothing more: it is the
    same whether or not a transcript path was given and whether or not the
    conversion went through.  Apart from what the downloader did, no file but
    the one at the transcript path is changed; without a transcript path none
    is. *)
Theorem transcript_flag_means_a_subtitle_file_exists
    (yt_dlp : string → string → storage → storage * bool)
    (textwrap_fill : list ascii → list ascii)
    (write_text : string → list byte → write_result) (fs : storage)
    (url video_path : string) (transcript_path : option string) :
  let r := download_video_and_transcript yt_dlp textwrap_fill write_text fs url video_path
             transcript_path in
  let fs1 := fst (yt_dlp url video_path fs) in
  (snd (yt_dlp url video_path fs) = false → r = (fs1, (false, false))) ∧
  (snd (yt_dlp url video_path fs) = true →
     fst (snd r) = true ∧
     (snd (snd r) = true ↔ ∃ c, c ∈ subtitle_candidates video_path ∧ is_Some (fs1 !! c)) ∧
     (∀ p, transcript_path ≠ Some p → fst r !! p = fs1 !! p) ∧
     (transcript_path = None → fst r = fs1)).
Proof.
  cbn zeta. unfold download_video_and_transcript.
  destruct (yt_dlp url video_path fs) as [fs1 [|]]; cbn [fst snd]; split; try done.
  intros _.
  pose proof (find_exists fs1 (subtitle_candidates video_path)) as Hfind.
  destruct (List.find _ _) as [c|]; cbn [fst snd].
  - split_and!; try done.
    + split; [intros _; apply Hfind; eauto|done].
    + intros p Hp. by apply convert_srt_to_text_other.
    + intros ->. unfold convert_srt_to_text.
      destruct (fs1 !! c) as [f|]; [|done]. by destruct (readable f).
  - split_and!; try done.
    split; [done|]. intros Hc%Hfind. by destruct Hc.
Qed.

(** X27. Of the four subtitle files the first one that exists, in the order
    .en.srt, .en.vtt, .srt, .vtt, is the one converted; the others are not
    looked at, and the result of the conversion does not show in the flags. *)
Theorem first_subtitle_file_is_converted
    (yt_dlp : string → string → storage → storage * bool)
    (textwrap_fill : list ascii → list ascii)
    (write_text : string → list byte → write_result) (fs fs1 : storage)
    (url video_path : string) (transcript_path : option string)
    (pre post : list string) (c : string) :
  yt_dlp url video_path fs = (fs1, true) →
  subtitle_candidates video_path = pre ++ c :: post →
  (∀ x, x ∈ pre → fs1 !! x = None) →
  is_Some (fs1 !! c) →
  download_video_and_transcript yt_dlp textwrap_fill write_text fs url video_path
    transcript_path
  = (fst (convert_srt_to_text textwrap_fill write_text fs1 c transcript_path),
     (true, true)).
Proof.
  intros Hrun Hcands Hpre Hc. unfold download_video_and_transcript.
  by rewrite Hrun, Hcands, (find_first fs1 pre post c Hpre Hc).
Qed.

Lemma first_subtitle_file_is_converted_witness :
  download_video_and_transcript yt_dlp_with_captions (fun text => text)
    (fun _ _ => Written) ∅ "https://youtu.be/talk" "/tmp/tmpab12cd/video.mp4" None
  = (fst (yt_dlp_with_captions "https://youtu.be/talk" "/tmp/tmpab12cd/video.mp4" ∅),
     (true, true)).
Proof.
  rewrite (first_subtitle_file_is_converted yt_dlp_with_captions (fun text => text)
             (fun _ _ => Written) ∅
             (fst (yt_dlp_with_captions "https://youtu.be/talk" "/tmp/tmpab12cd/video.mp4" ∅))
             "https://youtu.be/talk" "/tmp/tmpab12cd/video.mp4" None
             [] ["/tmp/tmpab12cd/video.en.vtt"; "/tmp/tmpab12cd/video.srt";
                 "/tmp/tmpab12cd/video.vtt"]%string
             "/tmp/tmpab12cd/video.en.srt").
  - vm_compute. reflexivity.
  - reflexivity.
  - vm_compute. reflexivity.
  - intros x Hx. by apply elem_of_nil in Hx.
  - vm_compute. eauto.
Defined.

Example transcript_of_two_cues :
  string_of_list_ascii
    (srt_full_text (readlines (decode_text two_cues)))
  = "Good morning everyone"%string.
Proof. vm_compute. reflexivity. Qed.

Lemma string_get_last (d : string) :
  String.get (String.length d - 1) d = last (list_ascii_of_string d).
Proof.
  induction d as [|a d IH]; [done|].
  destruct d as [|b d]; [done|].
  cbn [String.length list_ascii_of_string] in *.
  rewrite Nat.sub_1_r in *. cbn [Nat.pred String.get] in *. exact IH.
Qed.

(** A path that is not empty and does not end in a slash. *)
Lemma no_trailing_slash (d : string) :
  d ≠ ""%string → ends_with_slash d = false →
  ∃ l c, list_ascii_of_string d = l ++ [c] ∧ Ascii.eqb c "/" = false.
Proof.
  intros Hd Hend. unfold ends_with_slash in Hend. rewrite string_get_last in Hend.
  destruct (last (list_ascii_of_string d)) as [c|] eqn:Hlast.
  - apply last_Some in Hlast as [l Hl]. by exists l, c.
  - apply last_None in Hlast. destruct d; [done|discriminate].
Qed.

(** X28. For a video written as [video.mp4] into a directory given without
    a slash at its end, which is how [process_video] calls the function, the
    subtitle files looked for are [video.en.srt], [video.en.vtt],
    [video.srt] and [video.vtt] of that directory, in this order. *)
Theorem subtitles_are_sought_next_to_the_video (d : string) :
  d ≠ ""%string → ends_with_slash d = false →
  subtitle_candidates (os_path_join d "video.mp4")
  = [d ++ "/video.en.srt"; d ++ "/video.en.vtt"; d ++ "/video.srt"; d ++ "/video.vtt"]%string.
Proof.
  intros Hd Hend. destruct (no_trailing_slash d Hd Hend) as (l & c & Hl & Hc).
  assert (os_path_join d "video.mp4" = (d ++ "/video.mp4")%string) as ->.
  { unfold os_path_join. cbn [is_absolute Ascii.eqb Bool.eqb]. rewrite Hend.
    by apply String.eqb_neq in Hd as ->. }
  assert (rsplit_after "/" (list_ascii_of_string (d ++ "/video.mp4"))
          = (l ++ [c; "/"%char], list_ascii_of_string "video.mp4")) as Hsplit.
  { unfold rsplit_after. rewrite list_ascii_of_string_app, rev_app_distr.
    cbn [list_ascii_of_string rev app take_while drop_while Ascii.eqb Bool.eqb negb].
    rewrite rev_involutive, Hl, <- app_assoc. done. }
  assert (os_path_dirname (d ++ "/video.mp4") = d) as Hdir.
  { unfold os_path_dirname. rewrite Hsplit. cbn [fst].
    assert (is_empty (l ++ [c; "/"%char]) = false) as -> by (by destruct l).
    assert (forallb (Ascii.eqb "/") (l ++ [c; "/"%char]) = false) as ->.
    { rewrite forallb_app. cbn [forallb]. rewrite (Ascii.eqb_sym "/" c), Hc.
      apply andb_false_r. }
    cbn [orb]. rewrite rev_app_distr. cbn [rev app lstrip mem_ascii existsb].
    rewrite Ascii.eqb_refl, Hc. cbn [orb].
    change (c :: rev l) with (rev [c] ++ rev l). rewrite <- rev_app_distr, rev_involutive.
    rewrite <- Hl. apply string_of_list_ascii_of_string. }
  assert (os_path_basename (d ++ "/video.mp4") = "video.mp4"%string) as Hbase.
  { unfold os_path_basename. by rewrite Hsplit. }
  unfold subtitle_candidates. rewrite Hdir, Hbase.
  change (fst (os_path_splitext "video.mp4")) with "video"%string.
  unfold subtitle_patterns, os_path_join. cbn [map is_absolute Ascii.eqb Bool.eqb].
  rewrite Hend. by apply String.eqb_neq in Hd as ->.
Qed.

Lemma subtitles_are_sought_next_to_the_video_witness :
  subtitle_candidates (os_path_join "/tmp/tmpab12cd" "video.mp4")
  = ["/tmp/tmpab12cd/video.en.srt"; "/tmp/tmpab12cd/video.en.vtt";
     "/tmp/tmpab12cd/video.srt"; "/tmp/tmpab12cd/video.vtt"]%string.
Proof.
  apply (subtitles_are_sought_next_to_the_video "/tmp/tmpab12cd"); [discriminate|reflexivity].
Defined.

(** ** The title cannot lead the frames astray *)

Lemma sanitize_filename_no_slash (filename : string) (max_length : nat) :
  mem_ascii "/" (list_ascii_of_string (sanitize_filename filename max_length)) = false.
Proof.
  destruct (sanitize_filename_stages filename max_length)
    as (l1 & l2 & l3 & _ & _ & _ & -> & Hchars & _).
  apply not_true_is_false. intros Hin%mem_ascii_true.
  assert ("/"%char ∈ l3) as Hl3.
  { destruct (max_length <? length l3)%nat; [|done].
    change (@firstn ascii) with (@take ascii) in Hin.
    apply elem_of_take in Hin as (i & Hi & _). by eapply list_elem_of_lookup_2. }
  by destruct (Hchars _ Hl3) as [? _].
Qed.

(** The directory of the images, as [process_video] forms it, is a path
    that is not empty and does not end in a slash. *)
Lemma images_dir_plain (video_dir : string) :
  path_div video_dir "images" ≠ ""%string ∧
  ends_with_slash (path_div video_dir "images") = false.
Proof.
  assert (∃ x, path_div video_dir "images" = (x ++ "images")%string) as [x ->].
  { unfold path_div, os_path_join. cbn [String.eqb is_absolute Ascii.eqb Bool.eqb].
    destruct (video_dir =? ".")%string; [by exists ""%string|].
    destruct ((video_dir =? "")%string || ends_with_slash video_dir); [by exists video_dir|].
    exists (video_dir ++ "/")%string. by rewrite string_app_assoc. }
  split; [by destruct x|].
  unfold ends_with_slash. rewrite string_get_last, list_ascii_of_string_app, last_app.
  done.
Qed.

(** X29. Whatever the title of the video, the output directory, the quality
    and the timestamp, the file a frame is written to is a direct entry of
    the images directory of the run and has the suffix of an image: the
    sanitized title contains no slash, so a title cannot move a frame to
    another directory, and every frame written is among the files the PDF
    builder collects. *)
Theorem frames_are_images_of_the_images_directory
    (video_title output_dir quality : string) (t : Z) :
  let safe_title := sanitize_filename video_title 100 in
  let images_dir := path_div (path_div output_dir safe_title) "images" in
  let frame := output_file_name images_dir safe_title quality t in
  (∃ name, frame = (images_dir ++ "/" ++ name)%string ∧
           child_name images_dir frame = Some name) ∧
  is_image images_dir frame = true.
Proof.
  cbn zeta. set (safe_title := sanitize_filename video_title 100).
  set (images_dir := path_div (path_div output_dir safe_title) "images").
  destruct (images_dir_plain (path_div output_dir safe_title)) as [Hdir Hend].
  fold images_dir in Hdir, Hend.
  pose proof (sanitize_filename_no_slash video_title 100) as Hslash. fold safe_title in Hslash.
  destruct (frame_is_child images_dir safe_title quality t Hdir Hend Hslash)
    as (name & -> & Hchild & Himg).
  split; [|done]. by exists name.
Qed.
